(** * Werewolf engine: rules engine, win evaluator, chat router, view redactor

    Shallow embedding of the TypeScript sources

    - [src/engine/types.ts], [src/engine/utils.ts], [src/engine/win.ts],
    - [src/engine/transitions.ts],
    - [src/server/chat.ts], [src/shared/messages.ts],

    followed by the properties of the specification that concern them.

    Conventions of the embedding.

    - A JS [number] that holds a counter, a duration or a timestamp is a [Z];
      a length is a [nat].
    - A JS [string] is a [string].  Tests of the form [!s] on a
      [string | null] are truthiness tests: they succeed on [null] and on the
      empty string alike; [truthy] writes this out.
    - A JS [Map] is the association list of its entries in insertion order
      ([rec_set] is [Map.prototype.set]).
    - A plain object used as a dictionary ([Record<string, T | null>]) is the
      association list of its own entries.  JS enumerates the keys that are
      array indices first, in ascending numeric order, and the other keys
      after them in the order of their creation: [obj_entries] is that
      enumeration, [obj_set] and [obj_fromEntries] build the lists in that
      order, and [Object.values] and [Object.entries] are read through it.
    - A function that throws returns [Throw e]; one that returns, [Ok v].
    - [RandomFn] is the sequence of draws of the injected generator; a draw
      is a double of [0, 1), and [Math.floor(random() * n)] rounds the
      product to the nearest double before taking its floor. *)

From Stdlib Require Import List String Ascii NArith ZArith Lia Bool Arith.
From Stdlib Require Import PeanoNat.
From Stdlib Require Import DecimalString.
From Stdlib Require Import Permutation.
Import ListNotations.

Local Open Scope string_scope.
Local Open Scope list_scope.
Local Open Scope nat_scope.

Set Implicit Arguments.

(* ================================================================== *)
(** ** Exceptions and the result monad *)

(** [GameRuleError] carries a stable code and a message (types.ts); the view
    builder throws a plain [Error]; calling a value that is not a function
    raises a [TypeError]. *)
Inductive Exn : Type :=
| GameRuleError (code message : string)
| Error (message : string)
| TypeError (message : string).

Inductive Result (A : Type) : Type :=
| Ok (value : A)
| Throw (e : Exn).

Arguments Ok {A} value.
Arguments Throw {A} e.

Definition bind {A B : Type} (c : Result A) (k : A -> Result B) : Result B :=
  match c with
  | Ok v => k v
  | Throw e => Throw e
  end.

Notation "x <- c ;; k" := (bind c (fun x => k))
  (at level 61, c at next level, right associativity).
Notation "c ;;; k" := (bind c (fun _ => k))
  (at level 61, right associativity).

(** The code of a rejection, when it is a typed one. *)
Definition errorCode {A : Type} (c : Result A) : option string :=
  match c with
  | Throw (GameRuleError code _) => Some code
  | _ => None
  end.

(* ================================================================== *)
(** ** types.ts *)

Inductive Role : Type := SUBJECT | TRAITOR.
Inductive Phase : Type :=
  LOBBY | NIGHT | DAY_DISCUSSION | TRIAL | DAY_VERDICT | GAME_OVER.
Inductive Winner : Type := TRAITORS | SUBJECTS | DRAW.
Inductive VerdictChoice : Type := HANG | SPARE.

Definition Role_eqb (a b : Role) : bool :=
  match a, b with
  | SUBJECT, SUBJECT | TRAITOR, TRAITOR => true
  | _, _ => false
  end.

Definition Phase_eqb (a b : Phase) : bool :=
  match a, b with
  | LOBBY, LOBBY | NIGHT, NIGHT | DAY_DISCUSSION, DAY_DISCUSSION
  | TRIAL, TRIAL | DAY_VERDICT, DAY_VERDICT | GAME_OVER, GAME_OVER => true
  | _, _ => false
  end.

Record Player : Type := mkPlayer {
  accountId : string;
  playerId : string;
  name : string;
  role : Role;
  alive : bool;
  connected : bool;
  isHost : bool
}.

(** [isHost?: boolean]: an optional field. *)
Record PlayerIdentity : Type := mkIdentity {
  id_accountId : string;
  id_playerId : string;
  id_name : string;
  id_isHost : option bool
}.

Record Durations : Type := mkDurations {
  night : Z;
  dayDiscussion : Z;
  trial : Z;
  dayVerdict : Z
}.

Record GameOptions : Type := mkOptions {
  minPlayers : Z;
  durations : Durations
}.

(** [Record<string, T | null>]: the own entries of the object. *)
Definition Rec (V : Type) : Type := list (string * option V).

Record GameState : Type := mkGame {
  gameId : string;
  players : list Player;
  phase : Phase;
  dayNumber : Z;
  nightNumber : Z;
  accusedId : option string;
  lastKilledId : option string;
  phaseEndsAt : Z;
  winner : option Winner;
  options : GameOptions;
  rolesAssigned : bool;
  nightVotes : Rec string;
  dayNominations : Rec string;
  verdictVotes : Rec VerdictChoice
}.

(* ================================================================== *)
(** ** JavaScript values: truthiness, objects used as dictionaries, Map *)

(** [Boolean(s)] for a string: only the empty string is falsy. *)
Definition truthy (s : string) : bool := negb (String.eqb s "").

(** [Boolean(v)] for [string | null]. *)
Definition truthyOpt (v : option string) : bool :=
  match v with
  | Some s => truthy s
  | None => false
  end.

(** The array index a property key stands for, if any: the key is the
    canonical decimal numeral (no sign, no leading zero) of an integer below
    2^32 - 1. *)
Definition digitOf (c : ascii) : option N :=
  let n := N_of_ascii c in
  if (48 <=? n)%N && (n <=? 57)%N then Some (n - 48)%N else None.

Fixpoint digitsValue (acc : N) (s : string) : option N :=
  match s with
  | EmptyString => Some acc
  | String c rest =>
      match digitOf c with
      | Some d => digitsValue (acc * 10 + d)%N rest
      | None => None
      end
  end.

Definition arrayIndex (k : string) : option N :=
  match k with
  | EmptyString => None
  | String c rest =>
      if Ascii.eqb c "0" && negb (String.eqb rest "") then None
      else
        match digitsValue 0 k with
        | Some n => if (n <? 4294967295)%N then Some n else None
        | None => None
        end
  end.

Section Dictionaries.
Variable V : Type.

(** [Object.prototype.hasOwnProperty.call(r, k)] *)
Fixpoint rec_has (r : list (string * V)) (k : string) : bool :=
  match r with
  | [] => false
  | (k', _) :: rest => if String.eqb k' k then true else rec_has rest k
  end.

(** [r[k]], [None] standing for [undefined]. *)
Fixpoint rec_get (r : list (string * V)) (k : string) : option V :=
  match r with
  | [] => None
  | (k', v) :: rest => if String.eqb k' k then Some v else rec_get rest k
  end.

(** [Map.prototype.set]: an existing key keeps its place, a new one goes
    last.  On a plain object this is the assignment [r[k] = v] of a key that
    is no array index. *)
Fixpoint rec_set (r : list (string * V)) (k : string) (v : V)
  : list (string * V) :=
  match r with
  | [] => [(k, v)]
  | (k', v') :: rest =>
      if String.eqb k' k then (k', v) :: rest else (k', v') :: rec_set rest k v
  end.

(** The values and the keys of the entries, in the order of the list:
    [[...m.values()]] and [[...m.keys()]] of a [Map]. *)
Definition rec_values (r : list (string * V)) : list V := map snd r.

Definition rec_keys (r : list (string * V)) : list string := map fst r.

(** Files the entry [e], whose key is the array index [i], among entries in
    enumeration order: after the array indices below [i], before everything
    else. *)
Fixpoint insertIndexed (i : N) (e : string * V) (r : list (string * V))
  : list (string * V) :=
  match r with
  | [] => [e]
  | e' :: rest =>
      match arrayIndex (fst e') with
      | Some j => if (j <? i)%N then e' :: insertIndexed i e rest else e :: r
      | None => e :: r
      end
  end.

(** The entries whose key is an array index, in ascending numeric order. *)
Fixpoint indexedEntries (r : list (string * V)) : list (string * V) :=
  match r with
  | [] => []
  | e :: rest =>
      match arrayIndex (fst e) with
      | Some i => insertIndexed i e (indexedEntries rest)
      | None => indexedEntries rest
      end
  end.

(** The other entries, in the order of the list. *)
Definition namedEntries (r : list (string * V)) : list (string * V) :=
  filter
    (fun e => match arrayIndex (fst e) with Some _ => false | None => true end)
    r.

(** [Object.entries(r)]: the own entries as JS enumerates them. *)
Definition obj_entries (r : list (string * V)) : list (string * V) :=
  indexedEntries r ++ namedEntries r.

(** [Object.values(r)] *)
Definition obj_values (r : list (string * V)) : list V :=
  map snd (obj_entries r).

(** [Object.keys(r)] *)
Definition obj_keys (r : list (string * V)) : list string :=
  map fst (obj_entries r).

(** [{ ...r, [k]: v }]: an existing key keeps its place; a new key that is
    an array index is filed among the array indices, any other new key goes
    last. *)
Definition obj_set (r : list (string * V)) (k : string) (v : V)
  : list (string * V) :=
  if rec_has r k then rec_set r k v
  else
    match arrayIndex k with
    | Some i => insertIndexed i (k, v) r
    | None => r ++ [(k, v)]
    end.

(** [Object.fromEntries(entries)] *)
Definition obj_fromEntries (entries : list (string * V))
  : list (string * V) :=
  fold_left (fun acc e => obj_set acc (fst e) (snd e)) entries [].

(** A list in enumeration order: array-index keys first, ascending, then
    the other keys. *)
Fixpoint enumeratedFrom (low : N) r : Prop :=
  match r with
  | [] => True
  | e :: rest =>
      match arrayIndex (fst e) with
      | Some i => (low <= i)%N /\ enumeratedFrom i rest
      | None => namedEntries rest = rest
      end
  end.

Definition enumerated r : Prop := enumeratedFrom 0 r.
End Dictionaries.

(* ================================================================== *)
(** ** utils.ts *)

(** One draw of the generator.  [Math.random] returns a double of [0, 1):
    the number [mantissa / 2 ^ shift] with a mantissa below 2^53 and a shift
    from 53 to 1074.  Every double of [0, 1), subnormal ones included, is of
    that form, and every number of that form is such a double. *)
Record Draw : Type := mkDraw {
  mantissa : N;
  shift : N;
  draw_ok :
    ((mantissa <? 2 ^ 53) && (53 <=? shift) && (shift <=? 1074))%N = true
}.

(** [RandomFn = () => number]: the [k]-th call returns [random k]. *)
Definition RandomFn : Type := nat -> Draw.

(** Rounding to the nearest double, ties to even, of a number given as a
    multiple [p] of a power of two: a double keeps the 53 leading bits.  (The
    products below are multiples of 2^-1074 and stay below 2^32: neither
    underflow nor overflow occurs.) *)
Definition roundToDouble (p : N) : N :=
  let s := (N.size p - 53)%N in
  if (s =? 0)%N then p
  else
    let q := (p / 2 ^ s)%N in
    let rest := (p mod 2 ^ s)%N in
    let half := (2 ^ (s - 1))%N in
    let up := (half <? rest)%N || ((rest =? half)%N && N.odd q) in
    ((if up then q + 1 else q) * 2 ^ s)%N.

(** [Math.floor(random() * n)] for the draw [d]: the length [n] is an exact
    double, the product is rounded to the nearest double, and the floor of
    that double is taken. *)
Definition scaled (d : Draw) (n : nat) : nat :=
  N.to_nat (roundToDouble (mantissa d * N.of_nat n) / 2 ^ shift d).

(** [[copy[i], copy[j]] = [copy[j], copy[i]]] for indices within the array. *)
Definition swap {T : Type} (copy : list T) (i j : nat) : list T :=
  match nth_error copy i, nth_error copy j with
  | Some x, Some y =>
      let copy1 := firstn i copy ++ y :: skipn (S i) copy in
      firstn j copy1 ++ x :: skipn (S j) copy1
  | _, _ => copy
  end.

(** The loop of [shuffle]: [i] runs from [length - 1] down to [1]; [k] counts
    the calls made to [random] so far. *)
Fixpoint shuffle_from {T : Type} (i k : nat) (random : RandomFn)
  (copy : list T) : list T :=
  match i with
  | 0 => copy
  | S i' =>
      let j := scaled (random k) (i + 1) in
      shuffle_from i' (S k) random (swap copy i j)
  end.

(** Fisher-Yates shuffle (pure). *)
Definition shuffle {T : Type} (items : list T) (random : RandomFn) : list T :=
  shuffle_from (List.length items - 1) 0 random items.

(** Picks a random element, throwing on empty lists. *)
Definition randomItem {T : Type} (items : list T) (random : RandomFn)
  : Result T :=
  match items with
  | [] => Throw (GameRuleError "EMPTY_SELECTION" "Cannot select from empty list")
  | first :: _ =>
      Ok (nth (scaled (random 0) (List.length items)) items first)
  end.

(** Deep clone players list (shallow per player): a value copy. *)
Definition clonePlayers (ps : list Player) : list Player :=
  map (fun player => player) ps.

(** Counts alive players, optionally filtered by role. *)
Definition countAlive (ps : list Player) (r : option Role) : nat :=
  List.length
    (filter
       (fun p =>
          alive p &&
          match r with
          | None => true
          | Some r' => Role_eqb (role p) r'
          end)
       ps).

(** Returns only the living players. *)
Definition livingPlayers (ps : list Player) : list Player :=
  filter (fun p => alive p) ps.

(** Strict majority threshold: floor(n/2) + 1. *)
Definition majorityThreshold (aliveCount : nat) : nat := aliveCount / 2 + 1.

(** Safe player lookup, null when missing: the first player with that id. *)
Definition getPlayer (ps : list Player) (id : string) : option Player :=
  find (fun p => String.eqb (playerId p) id) ps.

(* ================================================================== *)
(** ** win.ts *)

(** Computes the terminal winner (if any) for the supplied state. *)
Definition checkWin (state : GameState) : option Winner :=
  match winner state with
  | Some w => Some w
  | None =>
      let subjectsAlive := countAlive (players state) (Some SUBJECT) in
      let traitorsAlive := countAlive (players state) (Some TRAITOR) in
      let totalAlive := subjectsAlive + traitorsAlive in
      if totalAlive =? 0 then Some DRAW
      else if traitorsAlive =? 0 then Some SUBJECTS
      else if subjectsAlive <=? traitorsAlive then Some TRAITORS
      else None
  end.

(* ================================================================== *)
(** ** transitions.ts *)

Record DurationsOverrides : Type := mkDurationsOverrides {
  o_night : option Z;
  o_dayDiscussion : option Z;
  o_trial : option Z;
  o_dayVerdict : option Z
}.

(** Partial overrides to tweak defaults when creating a game. *)
Record GameOptionsOverrides : Type := mkOverrides {
  o_minPlayers : option Z;
  o_durations : option DurationsOverrides
}.

Definition DEFAULT_GAME_OPTIONS : GameOptions :=
  {| minPlayers := 6;
     durations :=
       {| night := 90000; dayDiscussion := 90000;
          trial := 30000; dayVerdict := 15000 |} |}.

Definition orDefault {A : Type} (o : option A) (d : A) : A :=
  match o with
  | Some a => a
  | None => d
  end.

Definition mergeOptions (overrides : option GameOptionsOverrides)
  : GameOptions :=
  let d := durations DEFAULT_GAME_OPTIONS in
  let durations' :=
    match overrides with
    | Some {| o_durations := Some od |} =>
        {| night := orDefault (o_night od) (night d);
           dayDiscussion := orDefault (o_dayDiscussion od) (dayDiscussion d);
           trial := orDefault (o_trial od) (trial d);
           dayVerdict := orDefault (o_dayVerdict od) (dayVerdict d) |}
    | _ => d
    end in
  {| minPlayers :=
       match overrides with
       | Some o => orDefault (o_minPlayers o) (minPlayers DEFAULT_GAME_OPTIONS)
       | None => minPlayers DEFAULT_GAME_OPTIONS
       end;
     durations := durations' |}.

(** Ensures the state machine is in one of the allowed phases. *)
Definition ensurePhase (game : GameState) (expected : list Phase)
  (message : string) : Result unit :=
  if existsb (Phase_eqb (phase game)) expected then Ok tt
  else Throw (GameRuleError "INVALID_PHASE" message).

(** Looks a player up and enforces being alive when asked to. *)
Definition assertPlayer (game : GameState) (id : string) (mustBeAlive : bool)
  : Result Player :=
  match getPlayer (players game) id with
  | None =>
      Throw (GameRuleError "PLAYER_NOT_FOUND"
               (String.append "Player " (String.append id " not found")))
  | Some player =>
      if mustBeAlive && negb (alive player) then
        Throw (GameRuleError "PLAYER_DEAD"
                 (String.append "Player " (String.append id " is dead")))
      else Ok player
  end.

Definition toPlayer (identity : PlayerIdentity) : Player :=
  {| accountId := id_accountId identity;
     playerId := id_playerId identity;
     name := id_name identity;
     role := SUBJECT;
     alive := true;
     connected := true;
     isHost := orDefault (id_isHost identity) false |}.

Definition reassignHost (ps : list Player) : list Player :=
  match ps with
  | [] => ps
  | first :: rest =>
      if existsb (fun p => isHost p) ps then ps
      else
        {| accountId := accountId first; playerId := playerId first;
           name := name first; role := role first; alive := alive first;
           connected := connected first; isHost := true |} :: rest
  end.

Definition createInitialGame (gameId0 : string) (hostIdentity : PlayerIdentity)
  (overrides : option GameOptionsOverrides) : GameState :=
  let players0 :=
    [toPlayer
       {| id_accountId := id_accountId hostIdentity;
          id_playerId := id_playerId hostIdentity;
          id_name := id_name hostIdentity;
          id_isHost := Some true |}] in
  {| gameId := gameId0;
     players := players0;
     phase := LOBBY;
     dayNumber := 1;
     nightNumber := 1;
     accusedId := None;
     lastKilledId := None;
     phaseEndsAt := 0;
     winner := None;
     options := mergeOptions overrides;
     rolesAssigned := false;
     nightVotes := [];
     dayNominations := [];
     verdictVotes := [] |}.

(** [{ ...game, players }] *)
Definition withPlayers (game : GameState) (ps : list Player) : GameState :=
  {| gameId := gameId game; players := ps; phase := phase game;
     dayNumber := dayNumber game; nightNumber := nightNumber game;
     accusedId := accusedId game; lastKilledId := lastKilledId game;
     phaseEndsAt := phaseEndsAt game; winner := winner game;
     options := options game; rolesAssigned := rolesAssigned game;
     nightVotes := nightVotes game; dayNominations := dayNominations game;
     verdictVotes := verdictVotes game |}.

Definition addPlayerToLobby (game : GameState) (identity : PlayerIdentity)
  : Result GameState :=
  ensurePhase game [LOBBY] "Players can only join during the lobby phase" ;;;
  if existsb (fun p => String.eqb (accountId p) (id_accountId identity))
       (players game)
  then Throw (GameRuleError "DUPLICATE_ACCOUNT" "Account already joined")
  else Ok (withPlayers game (players game ++ [toPlayer identity])).

Definition removePlayerFromLobby (game : GameState) (id : string)
  : Result GameState :=
  ensurePhase game [LOBBY] "Players can only leave during the lobby phase" ;;;
  _ <- assertPlayer game id false ;;
  let remaining :=
    filter (fun p => negb (String.eqb (playerId p) id)) (players game) in
  Ok (withPlayers game (reassignHost remaining)).

Definition assignRoles (game : GameState) (random : RandomFn)
  : Result GameState :=
  ensurePhase game [LOBBY] "Roles are assigned from the lobby phase" ;;;
  if rolesAssigned game then Ok game
  else
    let shuffled := shuffle (players game) random in
    let traitorCount := Nat.max 1 (List.length shuffled / 4) in
    let traitors :=
      map (fun p =>
             {| accountId := accountId p; playerId := playerId p;
                name := name p; role := TRAITOR; alive := true;
                connected := connected p; isHost := isHost p |})
        (firstn traitorCount shuffled) in
    let subjects :=
      map (fun p =>
             {| accountId := accountId p; playerId := playerId p;
                name := name p; role := SUBJECT; alive := true;
                connected := connected p; isHost := isHost p |})
        (skipn traitorCount shuffled) in
    Ok {| gameId := gameId game; players := traitors ++ subjects;
          phase := phase game;
          dayNumber := dayNumber game; nightNumber := nightNumber game;
          accusedId := accusedId game; lastKilledId := lastKilledId game;
          phaseEndsAt := phaseEndsAt game; winner := winner game;
          options := options game; rolesAssigned := true;
          nightVotes := nightVotes game;
          dayNominations := dayNominations game;
          verdictVotes := verdictVotes game |}.

(** The ballots a night opens with: one null entry per living traitor. *)
Definition nightBallots (ps : list Player) : Rec string :=
  let traitors :=
    filter (fun p => Role_eqb (role p) TRAITOR) (livingPlayers ps) in
  obj_fromEntries (map (fun t => (playerId t, @None string)) traitors).

(** The snapshot [startNight] returns once its guards have passed. *)
Definition enterNight (game : GameState) (now : Z) : GameState :=
  let nightNumber' :=
    if Phase_eqb (phase game) LOBBY then nightNumber game
    else (nightNumber game + 1)%Z in
  {| gameId := gameId game; players := players game;
     phase := NIGHT;
     dayNumber := dayNumber game;
     nightNumber := nightNumber';
     accusedId := None;
     lastKilledId := lastKilledId game;
     phaseEndsAt := (now + night (durations (options game)))%Z;
     winner := winner game;
     options := options game; rolesAssigned := rolesAssigned game;
     nightVotes := nightBallots (players game);
     dayNominations := [];
     verdictVotes := [] |}.

(** [startNight] of [src/engine/transitions.ts] (lines 134-152). *)
Definition startNight (game : GameState) (now : Z) : Result GameState :=
  ensurePhase game [LOBBY; DAY_DISCUSSION; DAY_VERDICT]
    "Night can only start from lobby or day phases" ;;;
  Ok (enterNight game now).

Definition string_of_Z (z : Z) : string :=
  NilZero.string_of_int (Z.to_int z).

Definition startGame (game : GameState) (now : Z) (random : RandomFn)
  : Result GameState :=
  ensurePhase game [LOBBY] "Game can only start in the lobby phase" ;;;
  if (Z.of_nat (List.length (players game)) <? minPlayers (options game))%Z
  then
    Throw (GameRuleError "NOT_ENOUGH_PLAYERS"
             (String.append "Need at least "
                (String.append (string_of_Z (minPlayers (options game)))
                   " players")))
  else
    assigned <- assignRoles game random ;;
    startNight assigned now.

(** [{ ...game, nightVotes }] *)
Definition withNightVotes (game : GameState) (votes : Rec string)
  : GameState :=
  {| gameId := gameId game; players := players game; phase := phase game;
     dayNumber := dayNumber game; nightNumber := nightNumber game;
     accusedId := accusedId game; lastKilledId := lastKilledId game;
     phaseEndsAt := phaseEndsAt game; winner := winner game;
     options := options game; rolesAssigned := rolesAssigned game;
     nightVotes := votes; dayNominations := dayNominations game;
     verdictVotes := verdictVotes game |}.

(** [recordNightVote] of [src/engine/transitions.ts] (lines 163-171). *)
Definition recordNightVote (game : GameState) (traitorId targetId : string)
  : Result GameState :=
  ensurePhase game [NIGHT] "Night votes only apply during the night phase" ;;;
  traitor <- assertPlayer game traitorId true ;;
  if negb (Role_eqb (role traitor) TRAITOR) then
    Throw (GameRuleError "NOT_A_TRAITOR" "Only traitors vote at night")
  else
    target <- assertPlayer game targetId true ;;
    Ok (withNightVotes game
          (obj_set (nightVotes game) (playerId traitor)
             (Some (playerId target)))).

(** [tally.get(k) ?? 0] *)
Definition tallyOf (tally : list (string * nat)) (k : string) : nat :=
  orDefault (rec_get tally k) 0.

(** One turn of the loop of [tallyVotes]. *)
Definition tallyStep (tally : list (string * nat)) (target : option string)
  : list (string * nat) :=
  match target with
  | None => tally
  | Some t =>
      if truthy t then rec_set tally t (tallyOf tally t + 1) else tally
  end.

Definition tallyVotes (votes : Rec string) : list (string * nat) :=
  fold_left tallyStep (obj_values votes) [].

(** [victim.alive = false] on the cloned list: the first player with that
    id is the one [getPlayer] returned. *)
Fixpoint markDead (id : string) (ps : list Player) : list Player :=
  match ps with
  | [] => []
  | p :: rest =>
      if String.eqb (playerId p) id then
        {| accountId := accountId p; playerId := playerId p;
           name := name p; role := role p; alive := false;
           connected := connected p; isHost := isHost p |} :: rest
      else p :: markDead id rest
  end.

(** [[...votes.entries()].filter(([, score]) => score === topScore)
       .map(([id]) => id)] *)
Definition leadersOf (votes : list (string * nat)) : list string :=
  let topScore := list_max (map snd votes) in
  map fst (filter (fun e => snd e =? topScore) votes).

(** [leaders.length === 1 ? leaders[0] : randomItem(leaders, random)] *)
Definition pickVictim (leaders : list string) (random : RandomFn)
  : Result string :=
  match leaders with
  | [only] => Ok only
  | _ => randomItem leaders random
  end.

(** The kill of [resolveNight]: the players after it and the id killed. *)
Definition nightKill (game : GameState) (random : RandomFn)
  : Result (list Player * option string) :=
  let players0 := clonePlayers (players game) in
  let votes := tallyVotes (nightVotes game) in
  if 0 <? List.length votes then
    victimId <- pickVictim (leadersOf votes) random ;;
    match getPlayer players0 victimId with
    | Some victim =>
        if alive victim then
          Ok (markDead victimId players0, Some (playerId victim))
        else Ok (players0, None)
    | None => Ok (players0, None)
    end
  else Ok (players0, None).

Definition resolveNight (game : GameState) (now : Z) (random : RandomFn)
  : Result GameState :=
  ensurePhase game [NIGHT]
    "Night resolution only runs from the night phase" ;;;
  outcome <- nightKill game random ;;
  let baseState :=
    {| gameId := gameId game; players := fst outcome; phase := phase game;
       dayNumber := dayNumber game; nightNumber := nightNumber game;
       accusedId := accusedId game; lastKilledId := snd outcome;
       phaseEndsAt := now; winner := winner game;
       options := options game; rolesAssigned := rolesAssigned game;
       nightVotes := []; dayNominations := dayNominations game;
       verdictVotes := verdictVotes game |} in
  match checkWin baseState with
  | Some w =>
      Ok {| gameId := gameId baseState; players := players baseState;
            phase := GAME_OVER;
            dayNumber := dayNumber baseState;
            nightNumber := nightNumber baseState;
            accusedId := accusedId baseState;
            lastKilledId := lastKilledId baseState;
            phaseEndsAt := phaseEndsAt baseState;
            winner := Some w;
            options := options baseState;
            rolesAssigned := rolesAssigned baseState;
            nightVotes := nightVotes baseState;
            dayNominations := [];
            verdictVotes := [] |}
  | None =>
      Ok {| gameId := gameId baseState; players := players baseState;
            phase := DAY_DISCUSSION;
            dayNumber := (dayNumber game + 1)%Z;
            nightNumber := nightNumber baseState;
            accusedId := None;
            lastKilledId := lastKilledId baseState;
            phaseEndsAt := (now + dayDiscussion (durations (options game)))%Z;
            winner := winner baseState;
            options := options baseState;
            rolesAssigned := rolesAssigned baseState;
            nightVotes := nightVotes baseState;
            dayNominations := [];
            verdictVotes := [] |}
  end.

Definition startTrial (game : GameState) (accused : string) (now : Z)
  : Result GameState :=
  ensurePhase game [DAY_DISCUSSION] "Trials start from day discussion" ;;;
  _ <- assertPlayer game accused true ;;
  Ok {| gameId := gameId game; players := players game;
        phase := TRIAL;
        dayNumber := dayNumber game; nightNumber := nightNumber game;
        accusedId := Some accused;
        lastKilledId := lastKilledId game;
        phaseEndsAt := (now + trial (durations (options game)))%Z;
        winner := winner game;
        options := options game; rolesAssigned := rolesAssigned game;
        nightVotes := nightVotes game;
        dayNominations := dayNominations game;
        verdictVotes := [] |}.

(** [{ ...game, dayNominations }] *)
Definition withDayNominations (game : GameState) (noms : Rec string)
  : GameState :=
  {| gameId := gameId game; players := players game; phase := phase game;
     dayNumber := dayNumber game; nightNumber := nightNumber game;
     accusedId := accusedId game; lastKilledId := lastKilledId game;
     phaseEndsAt := phaseEndsAt game; winner := winner game;
     options := options game; rolesAssigned := rolesAssigned game;
     nightVotes := nightVotes game; dayNominations := noms;
     verdictVotes := verdictVotes game |}.

Definition recordNomination (game : GameState) (voterId targetId : string)
  (now : Z) : Result GameState :=
  ensurePhase game [DAY_DISCUSSION]
    "Nominations only apply during day discussion" ;;;
  voter <- assertPlayer game voterId true ;;
  target <- assertPlayer game targetId true ;;
  let updated :=
    withDayNominations game
      (obj_set (dayNominations game) (playerId voter)
         (Some (playerId target))) in
  let tally := tallyVotes (dayNominations updated) in
  let alive0 := List.length (livingPlayers (players game)) in
  let threshold := majorityThreshold alive0 in
  let votesForTarget := tallyOf tally (playerId target) in
  if threshold <=? votesForTarget then
    startTrial updated (playerId target) now
  else Ok updated.

Definition startDayVerdict (game : GameState) (now : Z) : Result GameState :=
  ensurePhase game [TRIAL] "Verdict phase only follows a trial" ;;;
  if negb (truthyOpt (accusedId game)) then
    Throw (GameRuleError "NO_ACCUSED" "No accused player to vote on")
  else
    let voters := livingPlayers (players game) in
    let verdictVotes' :=
      obj_fromEntries
        (map (fun p => (playerId p, @None VerdictChoice)) voters) in
    Ok {| gameId := gameId game; players := players game;
          phase := DAY_VERDICT;
          dayNumber := dayNumber game; nightNumber := nightNumber game;
          accusedId := accusedId game;
          lastKilledId := lastKilledId game;
          phaseEndsAt := (now + dayVerdict (durations (options game)))%Z;
          winner := winner game;
          options := options game; rolesAssigned := rolesAssigned game;
          nightVotes := nightVotes game;
          dayNominations := dayNominations game;
          verdictVotes := verdictVotes' |}.

Definition VerdictChoice_eqb (a b : VerdictChoice) : bool :=
  match a, b with
  | HANG, HANG | SPARE, SPARE => true
  | _, _ => false
  end.

(** [r.hasOwnProperty(k)], the method being looked up on [r] itself first:
    an own entry named [hasOwnProperty] holds a ballot, not a function. *)
Definition hasOwnProperty {V : Type} (r : list (string * V)) (k : string)
  : Result bool :=
  if rec_has r "hasOwnProperty" then
    Throw (TypeError "game.verdictVotes.hasOwnProperty is not a function")
  else Ok (rec_has r k).

(** [{ ...game, verdictVotes }] *)
Definition withVerdictVotes (game : GameState) (votes : Rec VerdictChoice)
  : GameState :=
  {| gameId := gameId game; players := players game; phase := phase game;
     dayNumber := dayNumber game; nightNumber := nightNumber game;
     accusedId := accusedId game; lastKilledId := lastKilledId game;
     phaseEndsAt := phaseEndsAt game; winner := winner game;
     options := options game; rolesAssigned := rolesAssigned game;
     nightVotes := nightVotes game; dayNominations := dayNominations game;
     verdictVotes := votes |}.

Definition recordVerdictVote (game : GameState) (voterId : string)
  (choice : VerdictChoice) : Result GameState :=
  ensurePhase game [DAY_VERDICT]
    "Verdict votes occur during the verdict phase" ;;;
  voter <- assertPlayer game voterId true ;;
  registered <- hasOwnProperty (verdictVotes game) (playerId voter) ;;
  if negb registered then
    Throw (GameRuleError "NOT_A_VOTER" "Player cannot vote in this verdict")
  else if negb (existsb (VerdictChoice_eqb choice) [HANG; SPARE]) then
    Throw (GameRuleError "INVALID_CHOICE" "Choice must be HANG or SPARE")
  else
    Ok (withVerdictVotes game
          (obj_set (verdictVotes game) (playerId voter) (Some choice))).

(** [livingIds.has(voterId)] with
    [livingIds = new Set(livingPlayers(players).map(p => p.playerId))]. *)
Definition livingIdsHas (ps : list Player) (voterId : string) : bool :=
  existsb (String.eqb voterId) (map playerId (livingPlayers ps)).

(** One turn of the counting loop of [resolveDayVerdict]; the accumulator is
    [(hangVotes, spareVotes)]. *)
Definition verdictStep (ps : list Player) (acc : nat * nat)
  (entry : string * option VerdictChoice) : nat * nat :=
  match snd entry with
  | None => acc
  | Some choice =>
      if negb (livingIdsHas ps (fst entry)) then acc
      else
        match choice with
        | HANG => (fst acc + 1, snd acc)
        | SPARE => (fst acc, snd acc + 1)
        end
  end.

Definition countVerdict (ps : list Player) (votes : Rec VerdictChoice)
  : nat * nat :=
  fold_left (verdictStep ps) (obj_entries votes) (0, 0).

(** The state [resolveDayVerdict] builds before it evaluates the win:
    ballots counted, the accused hanged when HANG beats SPARE. *)
Definition verdictBase (game : GameState) (accused : string) (now : Z)
  : GameState :=
  let players0 := clonePlayers (players game) in
  let tally := countVerdict players0 (verdictVotes game) in
  let hangVotes := fst tally in
  let spareVotes := snd tally in
  let accusedPlayer := getPlayer players0 accused in
  let hanged :=
    (spareVotes <? hangVotes) &&
    match accusedPlayer with
    | Some a => alive a
    | None => false
    end in
  let players1 := if hanged then markDead accused players0 else players0 in
  let killed :=
    if hanged then option_map playerId accusedPlayer else None in
  {| gameId := gameId game; players := players1; phase := phase game;
     dayNumber := dayNumber game; nightNumber := nightNumber game;
     accusedId := None;
     lastKilledId :=
       match killed with
       | Some k => Some k
       | None => lastKilledId game
       end;
     phaseEndsAt := now; winner := winner game;
     options := options game; rolesAssigned := rolesAssigned game;
     nightVotes := nightVotes game; dayNominations := dayNominations game;
     verdictVotes := [] |}.

(** [{ ...baseState, phase: "GAME_OVER", winner }] *)
Definition gameOver (baseState : GameState) (w : Winner) : GameState :=
  {| gameId := gameId baseState; players := players baseState;
     phase := GAME_OVER;
     dayNumber := dayNumber baseState; nightNumber := nightNumber baseState;
     accusedId := accusedId baseState;
     lastKilledId := lastKilledId baseState;
     phaseEndsAt := phaseEndsAt baseState;
     winner := Some w;
     options := options baseState; rolesAssigned := rolesAssigned baseState;
     nightVotes := nightVotes baseState;
     dayNominations := dayNominations baseState;
     verdictVotes := verdictVotes baseState |}.

Definition resolveDayVerdict (game : GameState) (now : Z)
  : Result GameState :=
  ensurePhase game [DAY_VERDICT] "Resolve verdict only from verdict phase" ;;;
  match accusedId game with
  | None => Throw (GameRuleError "NO_ACCUSED" "No accused player to resolve")
  | Some accused =>
      if negb (truthy accused) then
        Throw (GameRuleError "NO_ACCUSED" "No accused player to resolve")
      else
        let baseState := verdictBase game accused now in
        match checkWin baseState with
        | Some w => Ok (gameOver baseState w)
        | None => startNight baseState now
        end
  end.

Definition skipDayToNight (game : GameState) (now : Z) : Result GameState :=
  ensurePhase game [DAY_DISCUSSION]
    "Only discussion can skip straight to night" ;;;
  startNight
    {| gameId := gameId game; players := players game; phase := phase game;
       dayNumber := dayNumber game; nightNumber := nightNumber game;
       accusedId := None; lastKilledId := lastKilledId game;
       phaseEndsAt := phaseEndsAt game; winner := winner game;
       options := options game; rolesAssigned := rolesAssigned game;
       nightVotes := nightVotes game; dayNominations := [];
       verdictVotes := verdictVotes game |}
    now.

Definition setPlayerConnection (game : GameState) (id : string)
  (connected0 : bool) : GameState :=
  match getPlayer (players game) id with
  | None => game
  | Some _ =>
      withPlayers game
        (map (fun p =>
                if String.eqb (playerId p) id then
                  {| accountId := accountId p; playerId := playerId p;
                     name := name p; role := role p; alive := alive p;
                     connected := connected0; isHost := isHost p |}
                else p)
           (players game))
  end.

(* ================================================================== *)
(** ** The revised copy of transitions.ts

    The repository holds a second copy of [transitions.ts], documented with
    TSDoc.  It differs from the first in two guards: [startNight] refuses to
    leave the lobby before roles are assigned, and [recordNightVote] refuses a
    traitor who holds no ballot this night.  The functions that call
    [startNight] are repeated here so that they call the revised one; every
    other function of the revised copy is literally the one above. *)

Module Revised.

Definition startNight (game : GameState) (now : Z) : Result GameState :=
  ensurePhase game [LOBBY; DAY_DISCUSSION; DAY_VERDICT]
    "Night can only start from lobby or day phases" ;;;
  if Phase_eqb (phase game) LOBBY && negb (rolesAssigned game) then
    Throw (GameRuleError "ROLES_NOT_ASSIGNED"
             "Cannot start night before assigning roles")
  else Ok (enterNight game now).

Definition startGame (game : GameState) (now : Z) (random : RandomFn)
  : Result GameState :=
  ensurePhase game [LOBBY] "Game can only start in the lobby phase" ;;;
  if (Z.of_nat (List.length (players game)) <? minPlayers (options game))%Z
  then
    Throw (GameRuleError "NOT_ENOUGH_PLAYERS"
             (String.append "Need at least "
                (String.append (string_of_Z (minPlayers (options game)))
                   " players")))
  else
    assigned <- assignRoles game random ;;
    startNight assigned now.

Definition recordNightVote (game : GameState) (traitorId targetId : string)
  : Result GameState :=
  ensurePhase game [NIGHT]
    "Night votes only apply during the night phase" ;;;
  traitor <- assertPlayer game traitorId true ;;
  if negb (Role_eqb (role traitor) TRAITOR) then
    Throw (GameRuleError "NOT_A_TRAITOR" "Only traitors vote at night")
  else if negb (rec_has (nightVotes game) (playerId traitor)) then
    Throw (GameRuleError "NOT_A_NIGHT_VOTER"
             "Player is not scheduled to vote this night")
  else
    target <- assertPlayer game targetId true ;;
    Ok (withNightVotes game
          (obj_set (nightVotes game) (playerId traitor)
             (Some (playerId target)))).

Definition resolveDayVerdict (game : GameState) (now : Z)
  : Result GameState :=
  ensurePhase game [DAY_VERDICT]
    "Resolve verdict only from verdict phase" ;;;
  match accusedId game with
  | None =>
      Throw (GameRuleError "NO_ACCUSED" "No accused player to resolve")
  | Some accused =>
      if negb (truthy accused) then
        Throw (GameRuleError "NO_ACCUSED" "No accused player to resolve")
      else
        let baseState := verdictBase game accused now in
        match checkWin baseState with
        | Some w => Ok (gameOver baseState w)
        | None => startNight baseState now
        end
  end.

Definition skipDayToNight (game : GameState) (now : Z)
  : Result GameState :=
  ensurePhase game [DAY_DISCUSSION]
    "Only discussion can skip straight to night" ;;;
  startNight
    {| gameId := gameId game; players := players game; phase := phase game;
       dayNumber := dayNumber game; nightNumber := nightNumber game;
       accusedId := None; lastKilledId := lastKilledId game;
       phaseEndsAt := phaseEndsAt game; winner := winner game;
       options := options game; rolesAssigned := rolesAssigned game;
       nightVotes := nightVotes game; dayNominations := [];
       verdictVotes := verdictVotes game |}
    now.

End Revised.

(* ================================================================== *)
(** ** server/chat.ts *)

(** Modelled from the spec: the declaration of [ChatChannel] in
    [shared/messages.ts] is not among the sources; the chat protocol notes
    list its values as LOBBY | DAY | NIGHT_TRAITORS | TRIAL | GAME_OVER. *)
Inductive ChatChannel : Type :=
| CH_LOBBY | CH_DAY | CH_NIGHT_TRAITORS | CH_TRIAL | CH_GAME_OVER.

Inductive ChatAudience : Type := ROOM | TRAITORS_ONLY.

Record ChatRoute : Type := mkRoute {
  channel : ChatChannel;
  audience : ChatAudience
}.

(** Determines which chat channel a player may speak in for the current
    phase.  (The [default] branch of the switch is unreachable: [Phase] has
    the six values matched.) *)
Definition resolveChatRoute (game : GameState) (sender : Player)
  : Result ChatRoute :=
  match phase game with
  | LOBBY => Ok {| channel := CH_LOBBY; audience := ROOM |}
  | DAY_DISCUSSION | DAY_VERDICT =>
      if negb (alive sender) then
        Throw (GameRuleError "INVALID_CHAT"
                 "Dead players cannot chat during day")
      else Ok {| channel := CH_DAY; audience := ROOM |}
  | TRIAL => Throw (GameRuleError "INVALID_CHAT" "Use TRIAL_CHAT during trial")
  | NIGHT =>
      if negb (alive sender) || negb (Role_eqb (role sender) TRAITOR) then
        Throw (GameRuleError "INVALID_CHAT"
                 "Only living traitors may chat at night")
      else Ok {| channel := CH_NIGHT_TRAITORS; audience := TRAITORS_ONLY |}
  | GAME_OVER => Ok {| channel := CH_GAME_OVER; audience := ROOM |}
  end.

(* ================================================================== *)
(** ** shared/messages.ts *)

(** Public info exposed to every viewer, with all secret info stripped. *)
Record PublicPlayerView : Type := mkPublic {
  pv_playerId : string;
  pv_name : string;
  pv_alive : bool;
  pv_connected : bool;
  pv_isHost : bool
}.

(** A player's private view extends the public shape with the role. *)
Record SelfPlayerView : Type := mkSelf {
  sv_playerId : string;
  sv_name : string;
  sv_alive : bool;
  sv_connected : bool;
  sv_isHost : bool;
  sv_role : Role
}.

Record GameView : Type := mkView {
  v_gameId : string;
  v_phase : Phase;
  v_dayNumber : Z;
  v_nightNumber : Z;
  v_accusedId : option string;
  v_lastKilledId : option string;
  v_phaseEndsAt : Z;
  v_winner : option Winner;
  v_players : list PublicPlayerView;
  v_you : SelfPlayerView
}.

Definition publicView (p : Player) : PublicPlayerView :=
  {| pv_playerId := playerId p; pv_name := name p; pv_alive := alive p;
     pv_connected := connected p; pv_isHost := isHost p |}.

Definition buildGameView (game : GameState) (viewerId : string)
  : Result GameView :=
  match find (fun p => String.eqb (playerId p) viewerId) (players game) with
  | None => Throw (Error "Viewer is not part of the game")
  | Some viewer =>
      let publicPlayers := map publicView (players game) in
      let you :=
        {| sv_playerId := playerId viewer; sv_name := name viewer;
           sv_alive := alive viewer; sv_connected := connected viewer;
           sv_isHost := isHost viewer; sv_role := role viewer |} in
      Ok {| v_gameId := gameId game;
            v_phase := phase game;
            v_dayNumber := dayNumber game;
            v_nightNumber := nightNumber game;
            v_accusedId := accusedId game;
            v_lastKilledId := lastKilledId game;
            v_phaseEndsAt := phaseEndsAt game;
            v_winner := winner game;
            v_players := publicPlayers;
            v_you := you |}
  end.

(* ================================================================== *)
(** ** Notions of the specification *)

(** Invariants of a snapshot (spec, data model). *)
Definition rolesInvariant (g : GameState) : Prop :=
  rolesAssigned g = false -> phase g = LOBBY.

Definition winnerInvariant (g : GameState) : Prop :=
  winner g <> None <-> phase g = GAME_OVER.

Definition invariants (g : GameState) : Prop :=
  rolesInvariant g /\ winnerInvariant g.

(** A transition that returns a snapshot returns one that satisfies [P]. *)
Definition returning (P : GameState -> Prop) (c : Result GameState) : Prop :=
  forall g', c = Ok g' -> P g'.

(** A player with this id is currently living. *)
Definition isLiving (ps : list Player) (id : string) : bool :=
  existsb (fun p => alive p && String.eqb (playerId p) id) ps.

(** The seated player an id designates is alive. *)
Definition seatedAlive (ps : list Player) (id : string) : bool :=
  match getPlayer ps id with
  | Some p => alive p
  | None => false
  end.

(** The seated player an id designates is a living traitor. *)
Definition livingTraitor (ps : list Player) (id : string) : bool :=
  match getPlayer ps id with
  | Some p => alive p && Role_eqb (role p) TRAITOR
  | None => false
  end.

(** The night vote the specification accepts: cast by a living traitor who
    holds a ballot this night, for a living target. *)
Definition nightVoteAllowed (g : GameState) (voterId targetId : string)
  : bool :=
  livingTraitor (players g) voterId
  && rec_has (nightVotes g) voterId
  && seatedAlive (players g) targetId.

(** Number of ballots of a ballot map that name [target]. *)
Definition votesFor (votes : Rec string) (target : string) : nat :=
  List.length
    (filter
       (fun e =>
          match snd e with
          | Some t => String.eqb t target
          | None => false
          end)
       votes).

(** [target] holds the maximum tally of the ballot map. *)
Definition topTarget (votes : Rec string) (target : string) : Prop :=
  1 <= votesFor votes target /\
  forall t, votesFor votes t <= votesFor votes target.

(** The ids that the ballots name, each once, in the order in which the
    ballots first name them; [seen] holds the ids met so far. *)
Fixpoint firstNamed (seen : list string) (ballots : list (option string))
  : list string :=
  match ballots with
  | [] => []
  | None :: rest => firstNamed seen rest
  | Some t :: rest =>
      if existsb (String.eqb t) seen then firstNamed seen rest
      else t :: firstNamed (t :: seen) rest
  end.

(** The targets that hold the maximum tally of the ballot map, in the order
    in which the ballots, enumerated as [Object.values] does, first name
    them. *)
Definition tiedTargets (votes : Rec string) : list string :=
  let named := firstNamed [] (obj_values votes) in
  filter
    (fun t =>
       forallb (fun t' => votesFor votes t' <=? votesFor votes t) named)
    named.

(** Verdict ballots cast for [choice] by voters who are currently living. *)
Definition verdictCount (ps : list Player) (votes : Rec VerdictChoice)
  (choice : VerdictChoice) : nat :=
  List.length
    (filter
       (fun e =>
          match snd e with
          | Some c => VerdictChoice_eqb c choice && isLiving ps (fst e)
          | None => false
          end)
       votes).

(** The verdict hangs the accused: HANG strictly exceeds SPARE and the
    accused is alive. *)
Definition hangs (g : GameState) (accused : string) : bool :=
  (verdictCount (players g) (verdictVotes g) SPARE
   <? verdictCount (players g) (verdictVotes g) HANG)
  && seatedAlive (players g) accused.

(** Two snapshots that differ at most in the roles of players other than
    [viewerId]. *)
Definition sameButRole (viewerId : string) (p q : Player) : Prop :=
  accountId p = accountId q /\ playerId p = playerId q /\
  name p = name q /\ alive p = alive q /\ connected p = connected q /\
  isHost p = isHost q /\
  (playerId p = viewerId -> role p = role q).

Definition differOnlyInOtherRoles (viewerId : string) (g1 g2 : GameState)
  : Prop :=
  gameId g1 = gameId g2 /\ phase g1 = phase g2 /\
  dayNumber g1 = dayNumber g2 /\ nightNumber g1 = nightNumber g2 /\
  accusedId g1 = accusedId g2 /\ lastKilledId g1 = lastKilledId g2 /\
  phaseEndsAt g1 = phaseEndsAt g2 /\ winner g1 = winner g2 /\
  options g1 = options g2 /\ rolesAssigned g1 = rolesAssigned g2 /\
  nightVotes g1 = nightVotes g2 /\ dayNominations g1 = dayNominations g2 /\
  verdictVotes g1 = verdictVotes g2 /\
  Forall2 (sameButRole viewerId) (players g1) (players g2).

(** What the loop of [tallyVotes] maintains: distinct keys, every key a
    non-empty id, every count positive. *)
Definition tallyOk (tally : list (string * nat)) : Prop :=
  NoDup (rec_keys tally) /\
  forall k n, rec_get tally k = Some n -> truthy k = true /\ 1 <= n.

(* ================================================================== *)
(** ** Fixtures of the test suites *)

(** [createPlayer] of [tests/engine/transitions.test.ts]. *)
Definition createPlayer (id : string) (r : Role) (alive0 : bool) : Player :=
  {| accountId := id; playerId := id; name := id; role := r;
     alive := alive0; connected := true;
     isHost := String.eqb id "host" |}.

(** [makeState] of [tests/engine/transitions.test.ts], the fields a test
    overrides being its arguments. *)
Definition makeState (ps : list Player) (ph : Phase)
  (accused : option string) (night0 day0 : Rec string)
  (verdict0 : Rec VerdictChoice) : GameState :=
  {| gameId := "game"; players := ps; phase := ph;
     dayNumber := 1; nightNumber := 1;
     accusedId := accused; lastKilledId := None;
     phaseEndsAt := 0; winner := None;
     options := DEFAULT_GAME_OPTIONS; rolesAssigned := true;
     nightVotes := night0; dayNominations := day0;
     verdictVotes := verdict0 |}.

(** [baseState] of [tests/engine/win.test.ts]. *)
Definition baseState (ps : list Player) (w : option Winner) : GameState :=
  {| gameId := "g"; players := ps; phase := DAY_DISCUSSION;
     dayNumber := 1; nightNumber := 1;
     accusedId := None; lastKilledId := None;
     phaseEndsAt := 0; winner := w;
     options := DEFAULT_GAME_OPTIONS; rolesAssigned := true;
     nightVotes := []; dayNominations := []; verdictVotes := [] |}.

(** The lobby a host has just created. *)
Definition freshLobby : GameState :=
  createInitialGame "g"
    {| id_accountId := "host"; id_playerId := "host"; id_name := "Host";
       id_isHost := None |}
    None.

(** [() => x] for a constant generator. *)
Definition constRandom (d : Draw) : RandomFn := fun _ => d.

(** Five living players, two of whom have nominated ["p5"]. *)
Definition fiveAlive (day0 : Rec string) : GameState :=
  makeState
    [createPlayer "p1" SUBJECT true; createPlayer "p2" SUBJECT true;
     createPlayer "p3" SUBJECT true; createPlayer "p4" SUBJECT true;
     createPlayer "p5" TRAITOR true]
    DAY_DISCUSSION None [] day0 [].

(** A discussion among three living players, one of them seated under the
    empty id and already nominated once. *)
Definition blankTargetDay : GameState :=
  makeState
    [createPlayer "" SUBJECT true; createPlayer "a" SUBJECT true;
     createPlayer "b" TRAITOR true]
    DAY_DISCUSSION None [] [("a", Some "")] [].

(** A verdict on an accused seated under the empty id, both other players
    voting HANG. *)
Definition blankAccusedHanged : GameState :=
  makeState
    [createPlayer "" SUBJECT true; createPlayer "p1" SUBJECT true;
     createPlayer "p2" TRAITOR true]
    DAY_VERDICT (Some "") [] []
    [("p1", Some HANG); ("p2", Some HANG)].

(** The same accused with one HANG against one SPARE. *)
Definition blankAccusedSpared : GameState :=
  makeState
    [createPlayer "" SUBJECT true; createPlayer "p1" SUBJECT true;
     createPlayer "p2" TRAITOR true]
    DAY_VERDICT (Some "") [] []
    [("p1", Some HANG); ("p2", Some SPARE)].

(** [ties spare the accused] of transitions.test.ts. *)
Definition tiedVerdict : GameState :=
  makeState
    [createPlayer "p1" SUBJECT true; createPlayer "p2" SUBJECT true;
     createPlayer "p3" SUBJECT true]
    DAY_VERDICT (Some "p3") [] []
    [("p1", Some HANG); ("p2", Some SPARE); ("p3", None)].

(** [hangs accused when hang votes beat spare] of transitions.test.ts. *)
Definition hangingVerdict : GameState :=
  makeState
    [createPlayer "p1" SUBJECT true; createPlayer "p2" SUBJECT true;
     createPlayer "p3" TRAITOR true]
    DAY_VERDICT (Some "p3") [] []
    [("p1", Some HANG); ("p2", Some HANG); ("p3", Some SPARE)].

(** [breaks night vote ties using supplied RNG] of transitions.test.ts. *)
Definition tiedNight : GameState :=
  makeState
    [createPlayer "t1" TRAITOR true; createPlayer "t2" TRAITOR true;
     createPlayer "s1" SUBJECT true; createPlayer "s2" SUBJECT true]
    NIGHT None [("t1", Some "s1"); ("t2", Some "s2")] [] [].

(** [ignores votes that reference already-dead targets] of
    transitions.test.ts. *)
Definition deadTargetNight : GameState :=
  makeState
    [createPlayer "t1" TRAITOR true; createPlayer "s1" SUBJECT false]
    NIGHT None [("t1", Some "s1")] [] [].

(** A night whose only ballot names a living player seated under the empty
    id. *)
Definition blankTargetNight : GameState :=
  makeState
    [createPlayer "t1" TRAITOR true; createPlayer "" SUBJECT true;
     createPlayer "s2" SUBJECT true; createPlayer "s3" SUBJECT true]
    NIGHT None [("t1", Some "")] [] [].

(** [() => 0.9] and [() => 0]; the double written 0.9 is
    8106479329266893 / 2^53. *)
Definition nineTenths : RandomFn :=
  constRandom
    {| mantissa := 8106479329266893; shift := 53; draw_ok := eq_refl |}.
Definition zero : RandomFn :=
  constRandom {| mantissa := 0; shift := 53; draw_ok := eq_refl |}.

(** [rejects night votes from players not scheduled to vote] of
    transitions.test.ts: a living traitor and a living subject, and a night
    whose ballot map is empty. *)
Definition unscheduledNight : GameState :=
  makeState
    [createPlayer "t1" TRAITOR true; createPlayer "s1" SUBJECT true]
    NIGHT None [] [] [].

(** [() => 0.1]; the double written 0.1 is 7205759403792794 / 2^56. *)
Definition oneTenth : RandomFn :=
  constRandom
    {| mantissa := 7205759403792794; shift := 56; draw_ok := eq_refl |}.

(** [() => 0.3333333333333333]: the double 6004799503160661 / 2^54, just
    below one third, whose product with 3 rounds to 1. *)
Definition oneThird : RandomFn :=
  constRandom
    {| mantissa := 6004799503160661; shift := 54; draw_ok := eq_refl |}.

(** A night in which the traitors seated under 10 and 9 tie two targets; the
    key 9 is enumerated before the key 10. *)
Definition numberedNight : GameState :=
  makeState
    [createPlayer "10" TRAITOR true; createPlayer "9" TRAITOR true;
     createPlayer "a" SUBJECT true; createPlayer "b" SUBJECT true;
     createPlayer "c" SUBJECT true; createPlayer "d" SUBJECT true]
    NIGHT None [("10", Some "a"); ("9", Some "b")] [] [].

(** A night whose only ballot names the empty id, under which nobody is
    seated. *)
Definition blankAbsentNight : GameState :=
  makeState
    [createPlayer "t1" TRAITOR true; createPlayer "s1" SUBJECT true;
     createPlayer "s2" SUBJECT true]
    NIGHT None [("t1", Some "")] [] [].

(** A night in which three traitors tie three targets. *)
Definition threeTiedNight : GameState :=
  makeState
    [createPlayer "t1" TRAITOR true; createPlayer "t2" TRAITOR true;
     createPlayer "t3" TRAITOR true; createPlayer "s1" SUBJECT true;
     createPlayer "s2" SUBJECT true; createPlayer "s3" SUBJECT true;
     createPlayer "s4" SUBJECT true; createPlayer "s5" SUBJECT true]
    NIGHT None [("t1", Some "s1"); ("t2", Some "s2"); ("t3", Some "s3")]
    [] [].

(** The lobby of [starts the game once min players met]: the host and two
    joiners, [minPlayers = 3]. *)
Definition threeSeated : Result GameState :=
  g1 <- addPlayerToLobby
          (createInitialGame "g"
             {| id_accountId := "host"; id_playerId := "host";
                id_name := "Host"; id_isHost := None |}
             (Some {| o_minPlayers := Some 3%Z; o_durations := None |}))
          {| id_accountId := "a2"; id_playerId := "p2"; id_name := "P2";
             id_isHost := None |} ;;
  addPlayerToLobby g1
    {| id_accountId := "a3"; id_playerId := "p3"; id_name := "P3";
       id_isHost := None |}.

(** The night of the test suite: one traitor holding the only ballot. *)
Definition nightGame : GameState :=
  makeState
    [createPlayer "t1" TRAITOR true; createPlayer "s1" SUBJECT true;
     createPlayer "s2" SUBJECT true; createPlayer "s3" SUBJECT true]
    NIGHT None [("t1", None)] [] [].

(** [immediately ends the game when the last traitor is hanged]. *)
Definition lastTraitorVerdict : GameState :=
  makeState
    [createPlayer "s1" SUBJECT true; createPlayer "s2" SUBJECT true;
     createPlayer "t1" TRAITOR true]
    DAY_VERDICT (Some "t1") [] []
    [("s1", Some HANG); ("s2", Some HANG); ("t1", Some SPARE)].

(* ================================================================== *)
(** ** More of transitions.ts, server/store.ts and server/ws.ts *)

(** Helper to check whether every living traitor has submitted a vote
    ([Object.values(game.nightVotes).filter(Boolean).length]). *)
Definition areNightVotesComplete (game : GameState) : Result bool :=
  ensurePhase game [NIGHT] "Only check completeness during night" ;;;
  let traitorsAlive := countAlive (players game) (Some TRAITOR) in
  let votes :=
    List.length (filter truthyOpt (obj_values (nightVotes game))) in
  Ok ((votes =? traitorsAlive) && (0 <? traitorsAlive)).

(** [Map.prototype.delete] *)
Fixpoint rec_delete {V : Type} (r : list (string * V)) (k : string)
  : list (string * V) :=
  match r with
  | [] => []
  | (k', v) :: rest =>
      if String.eqb k' k then rest else (k', v) :: rec_delete rest k
  end.

(** The in-memory registry of [server/store.ts].  The private [Map] is the
    state; a method returns what it returns or throws, together with the map
    it leaves behind. *)
Module GameStore.

Definition t : Type := list (string * GameState).

(** [new Map()] *)
Definition empty : t := [].

(** Inserts a brand new game, throwing if the ID already exists. *)
Definition create (games : t) (game : GameState) : Result GameState * t :=
  if rec_has games (gameId game) then
    (Throw (Error (String.append "Game "
                     (String.append (gameId game) " already exists"))),
     games)
  else (Ok game, rec_set games (gameId game) game).

(** Fetches a game by ID or undefined when missing. *)
Definition get (games : t) (id : string) : option GameState :=
  rec_get games id.

(** Blindly replaces the stored snapshot after asserting the IDs match. *)
Definition update (games : t) (id : string) (game : GameState)
  : Result GameState * t :=
  if negb (String.eqb (gameId game) id) then
    (Throw (Error "Game ID mismatch"), games)
  else (Ok game, rec_set games id game).

(** Load-modify-store of a game snapshot; the updater is a transition of
    the engine and may throw. *)
Definition withGame (games : t) (id : string)
  (updater : GameState -> Result GameState) : Result GameState * t :=
  match rec_get games id with
  | None =>
      (Throw (Error (String.append "Game " (String.append id " not found"))),
       games)
  | Some current =>
      match updater current with
      | Throw e => (Throw e, games)
      | Ok updated => (Ok updated, rec_set games id updated)
      end
  end.

(** Removes a game entirely. *)
Definition delete (games : t) (id : string) : t := rec_delete games id.

(** Returns all games. *)
Definition list (games : t) : Datatypes.list GameState := rec_values games.

End GameStore.

(** The switch of [onPhaseTimeout] in [server/ws.ts]: the transition a
    deadline triggers in each phase, [None] where it triggers nothing.
    Reading the snapshot from the store and broadcasting the result are the
    caller's. *)
Definition phaseTimeoutStep (game : GameState) (now : Z) (random : RandomFn)
  : option (Result GameState) :=
  match phase game with
  | NIGHT => Some (resolveNight game now random)
  | DAY_DISCUSSION => Some (skipDayToNight game now)
  | TRIAL => Some (startDayVerdict game now)
  | DAY_VERDICT => Some (resolveDayVerdict game now)
  | _ => None
  end.

(* ================================================================== *)
(** ** Further notions *)

(** What a seat keeps when roles are dealt. *)
Definition seat (p : Player) : string * string * string * bool * bool :=
  (accountId p, playerId p, name p, connected p, isHost p).

(** Everything of a player but the connection flag. *)
Definition standing (p : Player)
  : string * string * string * Role * bool * bool :=
  (accountId p, playerId p, name p, role p, alive p, isHost p).

(** Some living traitor is seated under [id]. *)
Definition livingTraitorId (ps : list Player) (id : string) : Prop :=
  exists p, In p ps /\ alive p = true /\ role p = TRAITOR /\ playerId p = id.

(** [accusedId != null] only while the phase is TRIAL or DAY_VERDICT. *)
Definition accusationInvariant (g : GameState) : Prop :=
  accusedId g <> None -> phase g = TRIAL \/ phase g = DAY_VERDICT.

(** In NIGHT the night-vote map has exactly one entry per living traitor. *)
Definition nightBallotInvariant (g : GameState) : Prop :=
  phase g = NIGHT ->
  NoDup (rec_keys (nightVotes g)) /\
  forall id,
    In id (rec_keys (nightVotes g)) <-> livingTraitorId (players g) id.

(** In DAY_VERDICT the verdict-vote map has exactly one entry per living
    player. *)
Definition verdictBallotInvariant (g : GameState) : Prop :=
  phase g = DAY_VERDICT ->
  NoDup (rec_keys (verdictVotes g)) /\
  forall id,
    In id (rec_keys (verdictVotes g)) <-> isLiving (players g) id = true.

Definition ballotInvariants (g : GameState) : Prop :=
  nightBallotInvariant g /\ verdictBallotInvariant g.

(** One accepted action of the rules engine (first copy of
    transitions.ts). *)
Inductive step (g : GameState) : GameState -> Prop :=
| step_join identity g' :
    addPlayerToLobby g identity = Ok g' -> step g g'
| step_leave id g' :
    removePlayerFromLobby g id = Ok g' -> step g g'
| step_assignRoles random g' :
    assignRoles g random = Ok g' -> step g g'
| step_startGame now random g' :
    startGame g now random = Ok g' -> step g g'
| step_startNight now g' :
    startNight g now = Ok g' -> step g g'
| step_recordNightVote voter target g' :
    recordNightVote g voter target = Ok g' -> step g g'
| step_resolveNight now random g' :
    resolveNight g now random = Ok g' -> step g g'
| step_recordNomination voter target now g' :
    recordNomination g voter target now = Ok g' -> step g g'
| step_startTrial accused now g' :
    startTrial g accused now = Ok g' -> step g g'
| step_startDayVerdict now g' :
    startDayVerdict g now = Ok g' -> step g g'
| step_recordVerdictVote voter choice g' :
    recordVerdictVote g voter choice = Ok g' -> step g g'
| step_resolveDayVerdict now g' :
    resolveDayVerdict g now = Ok g' -> step g g'
| step_skipDayToNight now g' :
    skipDayToNight g now = Ok g' -> step g g'
| step_setPlayerConnection id connected0 :
    step g (setPlayerConnection g id connected0).

(** The snapshots a room goes through, from the lobby its host created. *)
Inductive reachable (g0 : GameState) : GameState -> Prop :=
| reachable_start : reachable g0 g0
| reachable_step g g' : reachable g0 g -> step g g' -> reachable g0 g'.

(** Every stored snapshot sits under its own id. *)
Definition storedUnderOwnId (games : GameStore.t) : Prop :=
  forall id g, In (id, g) games -> gameId g = id.

(** The lobby [threeSeated] ends in. *)
Definition threeLobby : GameState :=
  match threeSeated with
  | Ok lobby => lobby
  | Throw _ => freshLobby
  end.

(** The invariants of the data model that every copy of the engine keeps:
    winner, accusation and ballot maps. *)
Definition wellFormed (g : GameState) : Prop :=
  winnerInvariant g /\ accusationInvariant g /\ ballotInvariants g.

(** [completes when all traitors voted] of transitions.test.ts. *)
Definition votedNight : GameState :=
  withNightVotes nightGame [("t1", Some "s1")].

(** What a viewer may see of a player: the public fields, and the role when
    the player is seated under the viewer's id. *)
Definition sameToViewer (viewerId : string) (p q : Player) : Prop :=
  playerId p = playerId q /\ name p = name q /\ alive p = alive q /\
  connected p = connected q /\ isHost p = isHost q /\
  (playerId p = viewerId -> role p = role q).

(** Two snapshots that agree on everything the view shows. *)
Definition sameToViewerGame (viewerId : string) (g1 g2 : GameState) : Prop :=
  gameId g1 = gameId g2 /\ phase g1 = phase g2 /\
  dayNumber g1 = dayNumber g2 /\ nightNumber g1 = nightNumber g2 /\
  accusedId g1 = accusedId g2 /\ lastKilledId g1 = lastKilledId g2 /\
  phaseEndsAt g1 = phaseEndsAt g2 /\ winner g1 = winner g2 /\
  Forall2 (sameToViewer viewerId) (players g1) (players g2).

(* ================================================================== *)
(** * Properties *)

Unset Implicit Arguments.

(** ** Basic facts *)

Lemma Phase_eqb_eq (a b : Phase) : Phase_eqb a b = true <-> a = b.
Proof. destruct a, b; simpl; split; congruence. Qed.

Lemma Role_eqb_eq (a b : Role) : Role_eqb a b = true <-> a = b.
Proof. destruct a, b; simpl; split; congruence. Qed.

Lemma ensurePhase_ok (g : GameState) (allowed : list Phase) (msg : string) :
  In (phase g) allowed -> ensurePhase g allowed msg = Ok tt.
Proof.
  intros Hin. unfold ensurePhase.
  replace (existsb (Phase_eqb (phase g)) allowed) with true; [reflexivity|].
  symmetry. apply existsb_exists. exists (phase g). split; [exact Hin|].
  now apply Phase_eqb_eq.
Qed.

Lemma ensurePhase_inv (g : GameState) (allowed : list Phase) (msg : string)
  (u : unit) :
  ensurePhase g allowed msg = Ok u -> In (phase g) allowed.
Proof.
  unfold ensurePhase.
  destruct (existsb (Phase_eqb (phase g)) allowed) eqn:E; [|discriminate].
  intros _. apply existsb_exists in E. destruct E as [x [Hin Hx]].
  apply Phase_eqb_eq in Hx. now subst.
Qed.

Lemma ensurePhase_throw (g : GameState) (allowed : list Phase) (msg : string) :
  ~ In (phase g) allowed ->
  ensurePhase g allowed msg = Throw (GameRuleError "INVALID_PHASE" msg).
Proof.
  intros Hn. unfold ensurePhase.
  destruct (existsb (Phase_eqb (phase g)) allowed) eqn:E; [|reflexivity].
  exfalso. apply Hn. apply existsb_exists in E. destruct E as [x [Hin Hx]].
  apply Phase_eqb_eq in Hx. now subst.
Qed.

Lemma getPlayer_id (ps : list Player) (id : string) (p : Player) :
  getPlayer ps id = Some p -> playerId p = id.
Proof.
  unfold getPlayer. intros H. apply find_some in H.
  now apply String.eqb_eq.
Qed.

Lemma getPlayer_In (ps : list Player) (id : string) (p : Player) :
  getPlayer ps id = Some p -> In p ps.
Proof. unfold getPlayer. intros H. now apply find_some in H. Qed.

Lemma clonePlayers_id (ps : list Player) : clonePlayers ps = ps.
Proof. unfold clonePlayers. apply map_id. Qed.

Lemma assertPlayer_alive_ok (g : GameState) (id : string) (p : Player) :
  getPlayer (players g) id = Some p -> alive p = true ->
  assertPlayer g id true = Ok p.
Proof. intros H Ha. unfold assertPlayer. now rewrite H, Ha. Qed.

Lemma assertPlayer_inv (g : GameState) (id : string) (must : bool)
  (p : Player) :
  assertPlayer g id must = Ok p ->
  getPlayer (players g) id = Some p /\ (must = true -> alive p = true).
Proof.
  unfold assertPlayer. destruct (getPlayer (players g) id) as [q|]; [|discriminate].
  destruct must, (alive q) eqn:Ea; simpl; try discriminate;
    intros [= <-]; split; auto; discriminate.
Qed.

(* ================================================================== *)
(** ** The test suite, replayed on the embedding *)

(** [starts the game once min players met]: roles are assigned, the phase is
    NIGHT and the one traitor of three players holds the only ballot. *)
Example startGame_three_players :
  exists g lobby,
    threeSeated = Ok lobby /\
    startGame lobby 0 oneTenth = Ok g /\
    phase g = NIGHT /\ rolesAssigned g = true /\
    List.length (nightVotes g) = 1 /\
    countAlive (players g) (Some TRAITOR) = 1.
Proof.
  eexists. eexists. split; [reflexivity|].
  split; [vm_compute; reflexivity|]. repeat split.
Qed.

(** [records traitor votes] and [resolves and advances to day discussion]. *)
Example night_vote_then_resolve :
  exists voted resolved,
    recordNightVote nightGame "t1" "s1" = Ok voted /\
    rec_get (nightVotes voted) "t1" = Some (Some "s1") /\
    resolveNight voted 1000 zero = Ok resolved /\
    phase resolved = DAY_DISCUSSION /\
    lastKilledId resolved = Some "s1" /\
    dayNumber resolved = 2%Z.
Proof.
  eexists. eexists. split; [reflexivity|]. split; [reflexivity|].
  split; [vm_compute; reflexivity|]. repeat split.
Qed.

(** [creates verdict ballots for all living players]. *)
Example trial_then_verdict_ballots :
  exists trial0 verdict,
    startTrial (fiveAlive []) "p1" 0 = Ok trial0 /\
    startDayVerdict trial0 0 = Ok verdict /\
    phase verdict = DAY_VERDICT /\
    rec_keys (verdictVotes verdict) = ["p1"; "p2"; "p3"; "p4"; "p5"].
Proof.
  eexists. eexists. split; [reflexivity|].
  split; [vm_compute; reflexivity|]. repeat split.
Qed.

(** [immediately ends the game when the last traitor is hanged]. *)
Example last_traitor_hanged :
  exists g,
    resolveDayVerdict lastTraitorVerdict 0 = Ok g /\
    phase g = GAME_OVER /\ winner g = Some SUBJECTS /\
    lastKilledId g = Some "t1".
Proof.
  eexists. split; [vm_compute; reflexivity|]. repeat split.
Qed.

(* ================================================================== *)
(** ** Win evaluator *)

Lemma countAlive_split (ps : list Player) :
  countAlive ps None =
  countAlive ps (Some SUBJECT) + countAlive ps (Some TRAITOR).
Proof.
  unfold countAlive. induction ps as [|p ps IH]; [reflexivity|].
  simpl. destruct (alive p), (role p); simpl; rewrite ?IH; lia.
Qed.

(** C6, as stated, fails: a snapshot that already carries a winner keeps it,
    whatever its living players are.  Here nobody is alive and the evaluator
    answers SUBJECTS, not DRAW (the case [returns existing winner] of
    win.test.ts). *)
Lemma checkWin_keeps_recorded_winner :
  countAlive (players (baseState [] (Some SUBJECTS))) None = 0 /\
  checkWin (baseState [] (Some SUBJECTS)) = Some SUBJECTS /\
  checkWin (baseState [] (Some SUBJECTS)) <> Some DRAW.
Proof. repeat split; cbv; congruence. Qed.

(** C6, amended: a snapshot whose winner is already set evaluates to that
    winner; a snapshot without a winner evaluates to DRAW when nobody is
    alive, to SUBJECTS when somebody is alive and no traitor is, to TRAITORS
    when a traitor is alive and the living traitors are at least as many as
    the living subjects, and to no winner otherwise. *)
Theorem checkWin_cases (state : GameState) :
  (forall w, winner state = Some w -> checkWin state = Some w) /\
  (winner state = None ->
   (countAlive (players state) None = 0 -> checkWin state = Some DRAW) /\
   (1 <= countAlive (players state) None ->
    countAlive (players state) (Some TRAITOR) = 0 ->
    checkWin state = Some SUBJECTS) /\
   (1 <= countAlive (players state) (Some TRAITOR) ->
    countAlive (players state) (Some SUBJECT)
    <= countAlive (players state) (Some TRAITOR) ->
    checkWin state = Some TRAITORS) /\
   (1 <= countAlive (players state) (Some TRAITOR) ->
    countAlive (players state) (Some TRAITOR)
    < countAlive (players state) (Some SUBJECT) ->
    checkWin state = None)).
Proof.
  split.
  - intros w Hw. unfold checkWin. now rewrite Hw.
  - intros Hw. unfold checkWin. rewrite Hw.
    rewrite countAlive_split.
    set (s := countAlive (players state) (Some SUBJECT)).
    set (t := countAlive (players state) (Some TRAITOR)).
    repeat split; intros.
    + replace (s + t =? 0) with true; [reflexivity|].
      symmetry; apply Nat.eqb_eq; lia.
    + replace (s + t =? 0) with false.
      2:{ symmetry; apply Nat.eqb_neq; lia. }
      replace (t =? 0) with true; [reflexivity|].
      symmetry; apply Nat.eqb_eq; lia.
    + replace (s + t =? 0) with false.
      2:{ symmetry; apply Nat.eqb_neq; lia. }
      replace (t =? 0) with false.
      2:{ symmetry; apply Nat.eqb_neq; lia. }
      replace (s <=? t) with true; [reflexivity|].
      symmetry; apply Nat.leb_le; lia.
    + replace (s + t =? 0) with false.
      2:{ symmetry; apply Nat.eqb_neq; lia. }
      replace (t =? 0) with false.
      2:{ symmetry; apply Nat.eqb_neq; lia. }
      replace (s <=? t) with false; [reflexivity|].
      symmetry; apply Nat.leb_gt; lia.
Qed.

(** Parity is a traitor win (the case [traitors win on parity] of
    win.test.ts). *)
Lemma checkWin_cases_witness :
  checkWin
    (baseState [createPlayer "s1" SUBJECT true; createPlayer "t1" TRAITOR true]
       None)
  = Some TRAITORS.
Proof.
  apply (checkWin_cases
           (baseState
              [createPlayer "s1" SUBJECT true; createPlayer "t1" TRAITOR true]
              None)).
  - reflexivity.
  - vm_compute. lia.
  - vm_compute. lia.
Defined.

(* ================================================================== *)
(** ** Chat router *)

(** C8: the route the chat router returns, phase by phase.  LOBBY and
    GAME_OVER let anyone speak to the room; DAY_DISCUSSION and DAY_VERDICT let
    the living speak to the room and reject the dead with the dead-player
    message; TRIAL rejects every sender; NIGHT lets living traitors speak to
    the traitors only and rejects everyone else. *)
Theorem resolveChatRoute_by_phase (game : GameState) (sender : Player) :
  (phase game = LOBBY ->
   resolveChatRoute game sender
   = Ok {| channel := CH_LOBBY; audience := ROOM |}) /\
  (phase game = DAY_DISCUSSION \/ phase game = DAY_VERDICT ->
   (alive sender = true ->
    resolveChatRoute game sender
    = Ok {| channel := CH_DAY; audience := ROOM |}) /\
   (alive sender = false ->
    resolveChatRoute game sender
    = Throw (GameRuleError "INVALID_CHAT"
               "Dead players cannot chat during day"))) /\
  (phase game = TRIAL ->
   errorCode (resolveChatRoute game sender) = Some "INVALID_CHAT") /\
  (phase game = NIGHT ->
   (alive sender = true /\ role sender = TRAITOR ->
    resolveChatRoute game sender
    = Ok {| channel := CH_NIGHT_TRAITORS; audience := TRAITORS_ONLY |}) /\
   (~ (alive sender = true /\ role sender = TRAITOR) ->
    errorCode (resolveChatRoute game sender) = Some "INVALID_CHAT")) /\
  (phase game = GAME_OVER ->
   resolveChatRoute game sender
   = Ok {| channel := CH_GAME_OVER; audience := ROOM |}).
Proof.
  unfold resolveChatRoute.
  repeat split.
  - intros ->. reflexivity.
  - destruct H as [-> | ->]; intros ->; reflexivity.
  - destruct H as [-> | ->]; intros ->; reflexivity.
  - intros ->. reflexivity.
  - rewrite H. intros [-> ->]. reflexivity.
  - rewrite H. intros Hn.
    destruct (alive sender), (role sender); simpl; try reflexivity.
    exfalso. apply Hn. split; reflexivity.
  - intros ->. reflexivity.
Qed.

(** A living subject is refused the night channel. *)
Lemma resolveChatRoute_by_phase_witness :
  errorCode
    (resolveChatRoute
       (makeState [createPlayer "t1" TRAITOR true;
                   createPlayer "s1" SUBJECT true] NIGHT None [] [] [])
       (createPlayer "s1" SUBJECT true))
  = Some "INVALID_CHAT".
Proof.
  apply (resolveChatRoute_by_phase
           (makeState [createPlayer "t1" TRAITOR true;
                       createPlayer "s1" SUBJECT true] NIGHT None [] [] [])
           (createPlayer "s1" SUBJECT true)).
  - reflexivity.
  - simpl. intros [_ H]. discriminate H.
Defined.

(* ================================================================== *)
(** ** View redactor *)

Lemma find_viewer_sameButRole (viewerId : string) (ps qs : list Player) :
  Forall2 (sameButRole viewerId) ps qs ->
  match find (fun p => String.eqb (playerId p) viewerId) ps,
        find (fun p => String.eqb (playerId p) viewerId) qs with
  | Some p, Some q => sameButRole viewerId p q /\ role p = role q
  | None, None => True
  | _, _ => False
  end.
Proof.
  induction 1 as [|p q ps qs Hpq _ IH]; simpl; [exact I|].
  destruct Hpq as (Ha & Hi & Hn & Hl & Hc & Hh & Hr).
  rewrite <- Hi.
  destruct (String.eqb (playerId p) viewerId) eqn:E.
  - apply String.eqb_eq in E. repeat split; auto.
  - exact IH.
Qed.

Lemma publicView_sameButRole (viewerId : string) (ps qs : list Player) :
  Forall2 (sameButRole viewerId) ps qs ->
  map publicView ps = map publicView qs.
Proof.
  induction 1 as [|p q ps qs Hpq _ IH]; simpl; [reflexivity|].
  destruct Hpq as (Ha & Hi & Hn & Hl & Hc & Hh & Hr).
  unfold publicView at 1 3. now rewrite Hi, Hn, Hl, Hc, Hh, IH.
Qed.

(** C9: for a viewer seated in the snapshot the view is built, it carries the
    room id, the phase, both counters, the accused, the last killed, the
    deadline and the winner of the snapshot, one public entry (id, name,
    alive, connected, isHost) per player in order, and a self view with the
    viewer's own role; and the view of that viewer is the same for any
    snapshot that differs only in the roles of the other players. *)
Theorem buildGameView_redacts (game : GameState) (viewerId : string)
  (viewer : Player) :
  find (fun p => String.eqb (playerId p) viewerId) (players game)
  = Some viewer ->
  (exists view,
     buildGameView game viewerId = Ok view /\
     v_gameId view = gameId game /\ v_phase view = phase game /\
     v_dayNumber view = dayNumber game /\
     v_nightNumber view = nightNumber game /\
     v_accusedId view = accusedId game /\
     v_lastKilledId view = lastKilledId game /\
     v_phaseEndsAt view = phaseEndsAt game /\
     v_winner view = winner game /\
     v_players view
     = map (fun p => mkPublic (playerId p) (name p) (alive p) (connected p)
                       (isHost p))
         (players game) /\
     v_you view
     = mkSelf viewerId (name viewer) (alive viewer) (connected viewer)
         (isHost viewer) (role viewer)) /\
  (forall game2,
     differOnlyInOtherRoles viewerId game game2 ->
     buildGameView game2 viewerId = buildGameView game viewerId).
Proof.
  intros Hfind. split.
  - unfold buildGameView. rewrite Hfind.
    eexists. split; [reflexivity|]. simpl.
    assert (Hid : playerId viewer = viewerId).
    { apply find_some in Hfind. now apply String.eqb_eq. }
    rewrite Hid. repeat split; reflexivity.
  - intros game2 H.
    destruct H as (H1 & H2 & H3 & H4 & H5 & H6 & H7 & H8 & _ & _ & _ & _ & _
                   & Hps).
    unfold buildGameView.
    pose proof (find_viewer_sameButRole _ _ _ Hps) as Hv.
    pose proof (publicView_sameButRole _ _ _ Hps) as Hpub.
    rewrite Hfind in *.
    destruct (find (fun p => String.eqb (playerId p) viewerId) (players game2))
      as [viewer2|]; [|contradiction].
    destruct Hv as [(Ha & Hi & Hn & Hl & Hc & Hh & _) Hr].
    now rewrite <- H1, <- H2, <- H3, <- H4, <- H5, <- H6, <- H7, <- H8,
      <- Hpub, <- Hi, <- Hn, <- Hl, <- Hc, <- Hh, <- Hr.
Qed.

(** The view of a seated viewer shows that viewer's role (here a subject
    among traitors). *)
Lemma buildGameView_redacts_witness :
  exists view,
    buildGameView
      (makeState [createPlayer "t1" TRAITOR true;
                  createPlayer "s1" SUBJECT true] NIGHT None [] [] [])
      "s1" = Ok view /\
    sv_role (v_you view) = SUBJECT /\
    v_players view
    = [mkPublic "t1" "t1" true true false; mkPublic "s1" "s1" true true false].
Proof.
  destruct (buildGameView_redacts
              (makeState [createPlayer "t1" TRAITOR true;
                          createPlayer "s1" SUBJECT true] NIGHT None [] [] [])
              "s1" (createPlayer "s1" SUBJECT true) eq_refl)
    as [[view (Hv & _ & _ & _ & _ & _ & _ & _ & _ & Hp & Hy)] _].
  exists view. split; [exact Hv|]. rewrite Hy, Hp. split; reflexivity.
Defined.

(* ================================================================== *)
(** ** Dictionaries *)

Section DictionaryFacts.
Variable V : Type.
Implicit Types (r : list (string * V)) (k : string) (v : V).

Lemma rec_get_set_same r k v : rec_get (rec_set r k v) k = Some v.
Proof.
  induction r as [|[k' v'] r IH]; simpl.
  - now rewrite String.eqb_refl.
  - destruct (String.eqb k' k) eqn:E; simpl; rewrite E; auto.
Qed.

Lemma rec_get_set_other r k k' v :
  k' <> k -> rec_get (rec_set r k v) k' = rec_get r k'.
Proof.
  intros Hne. induction r as [|[k0 v0] r IH]; simpl.
  - destruct (String.eqb k k') eqn:E; [|reflexivity].
    apply String.eqb_eq in E. congruence.
  - destruct (String.eqb k0 k) eqn:E; simpl.
    + apply String.eqb_eq in E. subst k0.
      destruct (String.eqb k k') eqn:E'; [|reflexivity].
      apply String.eqb_eq in E'. congruence.
    + now rewrite IH.
Qed.

Lemma rec_has_get r k : rec_has r k = true <-> rec_get r k <> None.
Proof.
  induction r as [|[k' v'] r IH]; simpl.
  - split; [discriminate | congruence].
  - destruct (String.eqb k' k); [|exact IH].
    split; [discriminate | reflexivity].
Qed.

Lemma rec_keys_set r k v k' :
  In k' (rec_keys (rec_set r k v)) <-> k' = k \/ In k' (rec_keys r).
Proof.
  unfold rec_keys. induction r as [|[k0 v0] r IH]; simpl.
  - intuition.
  - destruct (String.eqb k0 k) eqn:E; simpl.
    + apply String.eqb_eq in E. subst. intuition.
    + rewrite IH. intuition.
Qed.

Lemma rec_keys_set_NoDup r k v :
  NoDup (rec_keys r) -> NoDup (rec_keys (rec_set r k v)).
Proof.
  unfold rec_keys. induction r as [|[k0 v0] r IH]; simpl; intros Hnd.
  - constructor; [intros []|constructor].
  - inversion Hnd as [|? ? Hnin Hnd']; subst.
    destruct (String.eqb k0 k) eqn:E; simpl.
    + now constructor.
    + constructor; [|now apply IH].
      intros Hin. apply (rec_keys_set r k v k0) in Hin.
      destruct Hin as [->|Hin]; [|contradiction].
      now rewrite String.eqb_refl in E.
Qed.

Lemma rec_get_In r k v :
  NoDup (rec_keys r) -> (In (k, v) r <-> rec_get r k = Some v).
Proof.
  unfold rec_keys. induction r as [|[k0 v0] r IH]; simpl; intros Hnd.
  - split; [intros [] | discriminate].
  - inversion Hnd as [|? ? Hnin Hnd']; subst.
    destruct (String.eqb k0 k) eqn:E.
    + apply String.eqb_eq in E. subst k0. split.
      * intros [[= ->]|Hin]; [reflexivity|].
        exfalso. apply Hnin. apply in_map_iff. now exists (k, v).
      * intros [= ->]. now left.
    + rewrite <- (IH Hnd'). split.
      * intros [[= -> ->]|Hin]; [|exact Hin].
        now rewrite String.eqb_refl in E.
      * intros Hin. now right.
Qed.

Lemma rec_get_key r k v : rec_get r k = Some v -> In k (rec_keys r).
Proof.
  unfold rec_keys. induction r as [|[k0 v0] r IH]; simpl; [discriminate|].
  destruct (String.eqb k0 k) eqn:E.
  - apply String.eqb_eq in E. now left.
  - intros H. right. now apply IH.
Qed.

Lemma rec_key_get r k : In k (rec_keys r) -> exists v, rec_get r k = Some v.
Proof.
  unfold rec_keys. induction r as [|[k0 v0] r IH]; simpl; [intros []|].
  destruct (String.eqb k0 k) eqn:E.
  - intros _. now exists v0.
  - intros [->|Hin]; [|now apply IH].
    now rewrite String.eqb_refl in E.
Qed.

Lemma rec_has_keys r k : rec_has r k = true <-> In k (rec_keys r).
Proof.
  rewrite rec_has_get. split.
  - destruct (rec_get r k) as [v|] eqn:E; [|congruence].
    intros _. now apply (rec_get_key r k v).
  - intros Hin. destruct (rec_key_get r k Hin) as [v ->]. discriminate.
Qed.

Lemma rec_keys_set_present r k v :
  rec_has r k = true -> rec_keys (rec_set r k v) = rec_keys r.
Proof.
  unfold rec_keys. induction r as [|[k0 v0] r IH]; simpl; [discriminate|].
  destruct (String.eqb k0 k) eqn:E; simpl; [reflexivity|].
  intros H. now rewrite IH.
Qed.

Lemma rec_keys_set_absent r k v :
  rec_has r k = false -> rec_set r k v = r ++ [(k, v)].
Proof.
  induction r as [|[k0 v0] r IH]; simpl; [reflexivity|].
  destruct (String.eqb k0 k) eqn:E; [discriminate|].
  intros H. now rewrite IH.
Qed.

(** *** Objects: enumeration order *)

Lemma insertIndexed_split (i : N) (e : string * V) r :
  exists l1 l2, r = l1 ++ l2 /\ insertIndexed i e r = l1 ++ e :: l2.
Proof.
  induction r as [|e' r (l1 & l2 & Hr & Hi)]; simpl.
  - now exists [], [].
  - destruct (arrayIndex (fst e')) as [j|].
    + destruct (j <? i)%N.
      * exists (e' :: l1), l2. simpl. now rewrite Hi, <- Hr.
      * now exists [], (e' :: r).
    + now exists [], (e' :: r).
Qed.

Lemma insertIndexed_Permutation (i : N) (e : string * V) r :
  Permutation (insertIndexed i e r) (e :: r).
Proof.
  destruct (insertIndexed_split i e r) as (l1 & l2 & -> & ->).
  apply Permutation_sym, Permutation_middle.
Qed.

(** The enumeration of an object lists its entries, each once. *)
Lemma obj_entries_Permutation r : Permutation (obj_entries r) r.
Proof.
  unfold obj_entries. induction r as [|e r IH]; simpl; [constructor|].
  destruct (arrayIndex (fst e)) as [i|].
  - eapply perm_trans.
    + apply Permutation_app_tail, insertIndexed_Permutation.
    + simpl. now constructor.
  - eapply perm_trans; [apply Permutation_sym, Permutation_middle|].
    now constructor.
Qed.

Lemma obj_values_Permutation r : Permutation (obj_values r) (rec_values r).
Proof. apply Permutation_map, obj_entries_Permutation. Qed.

Lemma obj_keys_Permutation r : Permutation (obj_keys r) (rec_keys r).
Proof. apply Permutation_map, obj_entries_Permutation. Qed.

(** A new key is filed somewhere among the entries, which keep their
    order. *)
Lemma obj_set_split r k v :
  rec_has r k = false ->
  exists l1 l2, r = l1 ++ l2 /\ obj_set r k v = l1 ++ (k, v) :: l2.
Proof.
  intros H. unfold obj_set. rewrite H.
  destruct (arrayIndex k) as [i|].
  - apply insertIndexed_split.
  - exists r, []. now rewrite app_nil_r.
Qed.

Lemma obj_set_present r k v :
  rec_has r k = true -> obj_set r k v = rec_set r k v.
Proof. intros H. unfold obj_set. now rewrite H. Qed.

Lemma rec_get_app r r' k :
  rec_get (r ++ r') k
  = match rec_get r k with Some v => Some v | None => rec_get r' k end.
Proof.
  induction r as [|[k0 v0] r IH]; simpl; [reflexivity|].
  now destruct (String.eqb k0 k).
Qed.

Lemma rec_has_false r k : rec_has r k = false <-> rec_get r k = None.
Proof.
  pose proof (rec_has_get r k) as H.
  destruct (rec_has r k), (rec_get r k); intuition congruence.
Qed.

Lemma rec_get_obj_set_same r k v : rec_get (obj_set r k v) k = Some v.
Proof.
  destruct (rec_has r k) eqn:E.
  - rewrite obj_set_present by exact E. apply rec_get_set_same.
  - destruct (obj_set_split r k v E) as (l1 & l2 & Hr & ->).
    apply rec_has_false in E. rewrite Hr, rec_get_app in E.
    rewrite rec_get_app. destruct (rec_get l1 k); [discriminate|].
    simpl. now rewrite String.eqb_refl.
Qed.

Lemma rec_get_obj_set_other r k k' v :
  k' <> k -> rec_get (obj_set r k v) k' = rec_get r k'.
Proof.
  intros Hne. destruct (rec_has r k) eqn:E.
  - rewrite obj_set_present by exact E. now apply rec_get_set_other.
  - destruct (obj_set_split r k v E) as (l1 & l2 & Hr & ->).
    rewrite Hr, !rec_get_app. simpl.
    destruct (String.eqb k k') eqn:E'; [|reflexivity].
    apply String.eqb_eq in E'. congruence.
Qed.

Lemma rec_keys_obj_set r k v k' :
  In k' (rec_keys (obj_set r k v)) <-> k' = k \/ In k' (rec_keys r).
Proof.
  destruct (rec_has r k) eqn:E.
  - rewrite obj_set_present by exact E. apply rec_keys_set.
  - destruct (obj_set_split r k v E) as (l1 & l2 & Hr & ->).
    rewrite Hr. unfold rec_keys. rewrite !map_app, !in_app_iff. simpl.
    intuition.
Qed.

Lemma rec_keys_obj_set_NoDup r k v :
  NoDup (rec_keys r) -> NoDup (rec_keys (obj_set r k v)).
Proof.
  intros Hnd. destruct (rec_has r k) eqn:E.
  - rewrite obj_set_present by exact E. now apply rec_keys_set_NoDup.
  - destruct (obj_set_split r k v E) as (l1 & l2 & Hr & ->).
    assert (Hnin : ~ In k (rec_keys r)).
    { intros Hin. apply rec_has_keys in Hin. congruence. }
    rewrite Hr in Hnd, Hnin. unfold rec_keys in *.
    rewrite map_app in *. simpl.
    apply (Permutation_NoDup (Permutation_middle _ _ _)).
    now constructor.
Qed.

Lemma rec_keys_obj_set_present r k v :
  rec_has r k = true -> rec_keys (obj_set r k v) = rec_keys r.
Proof.
  intros H. rewrite obj_set_present by exact H.
  now apply rec_keys_set_present.
Qed.

Lemma rec_has_obj_set r k v k' :
  rec_has (obj_set r k v) k' = String.eqb k k' || rec_has r k'.
Proof.
  destruct (String.eqb k k') eqn:E; simpl.
  - apply String.eqb_eq in E. subst k'. apply rec_has_get.
    rewrite rec_get_obj_set_same. discriminate.
  - apply String.eqb_neq in E.
    destruct (rec_has r k') eqn:Eh.
    + apply rec_has_get. rewrite rec_get_obj_set_other by congruence.
      now apply rec_has_get.
    + apply rec_has_false. rewrite rec_get_obj_set_other by congruence.
      now apply rec_has_false.
Qed.

Lemma rec_set_In_inv r k v k' v' :
  In (k', v') (rec_set r k v) -> (k' = k /\ v' = v) \/ In (k', v') r.
Proof.
  induction r as [|[k0 v0] r IH]; simpl.
  - intros [[= <- <-]|[]]. now left.
  - destruct (String.eqb k0 k) eqn:E; simpl.
    + apply String.eqb_eq in E. subst k0.
      intros [[= <- <-]|H]; [now left | right; now right].
    + intros [H|H]; [right; now left|].
      destruct (IH H) as [H'|H']; [now left | right; now right].
Qed.

Lemma obj_set_In_inv r k v k' v' :
  In (k', v') (obj_set r k v) -> (k' = k /\ v' = v) \/ In (k', v') r.
Proof.
  destruct (rec_has r k) eqn:E.
  - rewrite obj_set_present by exact E. apply rec_set_In_inv.
  - destruct (obj_set_split r k v E) as (l1 & l2 & Hr & ->).
    rewrite Hr, !in_app_iff. simpl.
    intros [H|[[= <- <-]|H]]; auto.
Qed.

Lemma obj_set_set r k v1 v2 :
  obj_set (obj_set r k v1) k v2 = rec_set (obj_set r k v1) k v2.
Proof.
  apply obj_set_present. rewrite rec_has_obj_set.
  now rewrite String.eqb_refl.
Qed.
End DictionaryFacts.

Section EnumerationFacts.
Variable V : Type.
Implicit Types (r : list (string * V)) (k : string) (v : V)
  (e : string * V).

Lemma namedEntries_named r : namedEntries r = r -> indexedEntries r = [].
Proof.
  unfold namedEntries. induction r as [|e r IH]; simpl; [reflexivity|].
  destruct (arrayIndex (fst e)) as [i|].
  - intros H. exfalso.
    assert (Hlen : List.length
                     (filter (fun e0 => match arrayIndex (fst e0) with
                                        | Some _ => false | None => true end) r)
                   <= List.length r) by apply filter_length_le.
    rewrite H in Hlen. simpl in Hlen. lia.
  - intros [= H]. now apply IH.
Qed.

Lemma enumeratedFrom_entries (low : N) r :
  enumeratedFrom low r ->
  obj_entries r = r /\
  match indexedEntries r with
  | [] => True
  | e :: _ => exists i, arrayIndex (fst e) = Some i /\ (low <= i)%N
  end.
Proof.
  unfold obj_entries. revert low. induction r as [|e r IH]; intros low; simpl.
  - now split.
  - destruct (arrayIndex (fst e)) as [i|] eqn:Ei.
    + intros [Hlow Hrest]. destruct (IH i Hrest) as [Heq Hhead].
      assert (Hins : insertIndexed i e (indexedEntries r)
                     = e :: indexedEntries r).
      { destruct (indexedEntries r) as [|e' l]; [reflexivity|].
        destruct Hhead as (j & Hj & Hle). simpl. rewrite Hj.
        destruct (N.ltb_spec j i); [lia | reflexivity]. }
      rewrite Hins. simpl. rewrite Heq. split; [reflexivity|].
      exists i. now split.
    + intros Hnamed. rewrite (namedEntries_named _ Hnamed). simpl.
      rewrite Hnamed. now split.
Qed.

(** Reading a list that is in enumeration order changes nothing. *)
Lemma obj_entries_enumerated r : enumerated r -> obj_entries r = r.
Proof. intros H. now apply (enumeratedFrom_entries 0). Qed.

Lemma enumeratedFrom_weaken (low low' : N) r :
  (low' <= low)%N -> enumeratedFrom low r -> enumeratedFrom low' r.
Proof.
  intros Hle. destruct r as [|e r]; simpl; [auto|].
  destruct (arrayIndex (fst e)); [|auto]. intros [H1 H2]. split; [lia | auto].
Qed.

Lemma enumeratedFrom_set (low : N) r k v :
  enumeratedFrom low r ->
  enumeratedFrom low (rec_set r k v) \/ rec_has r k = false.
Proof.
  revert low. induction r as [|[k0 v0] r IH]; intros low; simpl; [now right|].
  destruct (String.eqb_spec k0 k) as [->|Hne]; simpl.
  - intros H. now left.
  - destruct (arrayIndex k0) as [i|] eqn:Ei.
    + intros [Hlow Hrest]. destruct (IH i Hrest) as [H|H]; [left|now right].
      now split.
    + intros Hnamed.
      destruct (rec_has r k) eqn:Eh; [left | now right].
      clear IH. revert Hnamed. unfold namedEntries.
      assert (Hgen : forall r0,
        filter (fun e0 => match arrayIndex (fst e0) with
                          | Some _ => false | None => true end) r0 = r0 ->
        rec_has r0 k = true ->
        filter (fun e0 => match arrayIndex (fst e0) with
                          | Some _ => false | None => true end)
          (rec_set r0 k v) = rec_set r0 k v).
      { induction r0 as [|[k1 v1] r0 IH0]; simpl; [discriminate|].
        destruct (arrayIndex k1) as [j|] eqn:Ej.
        - intros H. exfalso.
          assert (Hlen : List.length
                     (filter (fun e0 => match arrayIndex (fst e0) with
                                        | Some _ => false | None => true end) r0)
                   <= List.length r0) by apply filter_length_le.
          rewrite H in Hlen. simpl in Hlen. lia.
        - intros [= H]. destruct (String.eqb_spec k1 k) as [->|Hne1]; simpl.
          + intros _. rewrite Ej. now rewrite H.
          + intros Hh. rewrite Ej. f_equal. now apply IH0. }
      intros Hn. now apply Hgen.
Qed.

Lemma enumeratedFrom_insert (low : N) (i : N) k v r :
  arrayIndex k = Some i -> (low <= i)%N ->
  enumeratedFrom low r -> enumeratedFrom low (insertIndexed i (k, v) r).
Proof.
  intros Hk Hlow. revert low Hlow.
  induction r as [|e r IH]; intros low Hlow; simpl.
  - rewrite Hk. auto.
  - destruct (arrayIndex (fst e)) as [j|] eqn:Ej.
    + intros [Hj Hrest]. destruct (N.ltb_spec j i).
      * simpl. rewrite Ej. split; [exact Hj|]. apply IH; [lia | exact Hrest].
      * simpl. rewrite Hk, Ej. repeat split; [exact Hlow | lia | exact Hrest].
    + intros Hnamed. simpl. rewrite Hk, Ej. split; [exact Hlow|].
      exact Hnamed.
Qed.

Lemma enumeratedFrom_append (low : N) k v r :
  arrayIndex k = None ->
  enumeratedFrom low r -> enumeratedFrom low (r ++ [(k, v)]).
Proof.
  intros Hk. revert low. induction r as [|e r IH]; intros low; simpl.
  - now rewrite Hk.
  - destruct (arrayIndex (fst e)) as [j|] eqn:Ej.
    + intros [Hj Hrest]. split; [exact Hj | now apply IH].
    + unfold namedEntries. rewrite filter_app. simpl. rewrite Hk.
      intros ->. reflexivity.
Qed.

(** The objects the engine builds are in enumeration order. *)
Lemma obj_set_enumerated r k v : enumerated r -> enumerated (obj_set r k v).
Proof.
  unfold enumerated, obj_set. intros H.
  destruct (rec_has r k) eqn:Eh.
  - destruct (enumeratedFrom_set 0 r k v H) as [H'|H']; [exact H'|congruence].
  - destruct (arrayIndex k) as [i|] eqn:Ek.
    + apply (enumeratedFrom_insert 0 i); [exact Ek | lia | exact H].
    + now apply enumeratedFrom_append.
Qed.

Lemma obj_fromEntries_enumerated (entries : list (string * V)) :
  enumerated (obj_fromEntries entries).
Proof.
  unfold obj_fromEntries.
  assert (Hgen : forall acc,
            enumerated acc ->
            enumerated
              (fold_left (fun a e => obj_set a (fst e) (snd e)) entries acc)).
  { induction entries as [|e entries IH]; simpl; intros acc H; [exact H|].
    apply IH. now apply obj_set_enumerated. }
  apply Hgen. exact I.
Qed.
End EnumerationFacts.

(** Counting is blind to the order of the entries. *)
Lemma filter_length_Permutation {A : Type} (f : A -> bool) (l l' : list A) :
  Permutation l l' ->
  List.length (filter f l) = List.length (filter f l').
Proof.
  induction 1 as [|x l l' _ IH|x y l|l l' l'' _ IH1 _ IH2]; simpl.
  - reflexivity.
  - destruct (f x); simpl; now rewrite IH.
  - destruct (f x), (f y); reflexivity.
  - now rewrite IH1.
Qed.

Lemma votesFor_Permutation (votes votes' : Rec string) (t : string) :
  Permutation votes votes' -> votesFor votes t = votesFor votes' t.
Proof. intros H. unfold votesFor. now apply filter_length_Permutation. Qed.

Lemma votesFor_obj_entries (votes : Rec string) (t : string) :
  votesFor (obj_entries votes) t = votesFor votes t.
Proof. apply votesFor_Permutation, obj_entries_Permutation. Qed.

(* ================================================================== *)
(** ** Tallies *)

Lemma tallyOk_nil : tallyOk [].
Proof.
  split; [constructor|]. intros k n H. discriminate H.
Qed.

Lemma tallyStep_ok (tally : list (string * nat)) (target : option string) :
  tallyOk tally -> tallyOk (tallyStep tally target).
Proof.
  intros [Hnd Hval]. destruct target as [t|]; simpl; [|now split].
  destruct (truthy t) eqn:Et; [|now split].
  split.
  - now apply rec_keys_set_NoDup.
  - intros k n Hget.
    destruct (String.eqb k t) eqn:E.
    + apply String.eqb_eq in E. subst k.
      rewrite rec_get_set_same in Hget. injection Hget as <-.
      split; [exact Et | lia].
    + apply String.eqb_neq in E.
      rewrite rec_get_set_other in Hget by exact E. now apply Hval.
Qed.

Lemma tallyFold_ok (targets : list (option string))
  (tally : list (string * nat)) :
  tallyOk tally -> tallyOk (fold_left tallyStep targets tally).
Proof.
  revert tally. induction targets as [|v vs IH]; simpl; intros tally H.
  - exact H.
  - apply IH. now apply tallyStep_ok.
Qed.

Lemma tallyVotes_ok (votes : Rec string) : tallyOk (tallyVotes votes).
Proof. apply tallyFold_ok, tallyOk_nil. Qed.

Lemma tallyOf_step (tally : list (string * nat)) (target : option string)
  (t : string) :
  tallyOf (tallyStep tally target) t
  = tallyOf tally t
    + match target with
      | Some t' => if String.eqb t' t && truthy t then 1 else 0
      | None => 0
      end.
Proof.
  destruct target as [t'|]; simpl; [|lia].
  destruct (String.eqb t' t) eqn:E; simpl.
  - apply String.eqb_eq in E. subst t'.
    destruct (truthy t); [|lia].
    unfold tallyOf at 1. rewrite rec_get_set_same. reflexivity.
  - destruct (truthy t'); [|lia].
    apply String.eqb_neq in E.
    unfold tallyOf at 1. rewrite rec_get_set_other by congruence.
    unfold tallyOf. lia.
Qed.

Lemma tallyOf_fold (votes : Rec string) (tally : list (string * nat))
  (t : string) :
  truthy t = true ->
  tallyOf (fold_left tallyStep (rec_values votes) tally) t
  = tallyOf tally t + votesFor votes t.
Proof.
  intros Ht. unfold rec_values, votesFor.
  revert tally. induction votes as [|[k v] votes IH]; simpl; intros tally.
  - lia.
  - rewrite IH, tallyOf_step. rewrite Ht.
    destruct v as [t'|]; simpl; [|lia].
    rewrite Bool.andb_true_r. destruct (String.eqb t' t); simpl; lia.
Qed.

(** The tally of a non-empty id is the number of ballots naming it. *)
Lemma tallyOf_tallyVotes (votes : Rec string) (t : string) :
  truthy t = true -> tallyOf (tallyVotes votes) t = votesFor votes t.
Proof.
  intros Ht. unfold tallyVotes.
  change (obj_values votes) with (rec_values (obj_entries votes)).
  rewrite tallyOf_fold by exact Ht. apply votesFor_obj_entries.
Qed.

Lemma truthy_neq (t : string) : truthy t = true <-> t <> "".
Proof.
  unfold truthy. destruct (String.eqb t "") eqn:E; simpl.
  - apply String.eqb_eq in E. split; [discriminate | congruence].
  - apply String.eqb_neq in E. split; auto.
Qed.

Lemma votesFor_pos (votes : Rec string) (t : string) :
  1 <= votesFor votes t <-> exists voter, In (voter, Some t) votes.
Proof.
  unfold votesFor. induction votes as [|[k v] votes IH]; simpl.
  - split; [lia | intros [? []]].
  - destruct v as [t'|]; simpl.
    + destruct (String.eqb t' t) eqn:E; simpl.
      * apply String.eqb_eq in E. subst. split; [|lia].
        intros _. exists k. now left.
      * rewrite IH. apply String.eqb_neq in E.
        split; intros [voter H]; exists voter; [now right|].
        destruct H as [[= _ ->]|H]; [congruence | exact H].
    + rewrite IH. split; intros [voter H]; exists voter; [now right|].
      destruct H as [[=]|H]; exact H.
Qed.

(* ================================================================== *)
(** ** Nominations *)

(** C5, as stated, fails for a target seated under the empty id: with three
    living players the threshold is 2, the second nomination of that target
    brings its ballots to 2, and the phase stays DAY_DISCUSSION, because
    [tallyVotes] skips ballots that name the empty id. *)
Lemma recordNomination_blank_target_not_tried :
  phase blankTargetDay = DAY_DISCUSSION /\
  seatedAlive (players blankTargetDay) "b" = true /\
  seatedAlive (players blankTargetDay) "" = true /\
  List.length (livingPlayers (players blankTargetDay)) / 2 + 1
  <= votesFor (obj_set (dayNominations blankTargetDay) "b" (Some "")) "" /\
  exists g',
    recordNomination blankTargetDay "b" "" 0 = Ok g' /\
    phase g' = DAY_DISCUSSION /\ accusedId g' = None.
Proof.
  repeat split; try (vm_compute; lia).
  eexists. split; [vm_compute; reflexivity|]. split; reflexivity.
Qed.

(** C5, amended: in DAY_DISCUSSION, a nomination by a living voter of a
    living target whose id is not empty moves the snapshot to TRIAL with that
    target as accused exactly when the ballots naming the target, the new one
    included, reach floor(livingCount / 2) + 1, livingCount being the number
    of living players of the snapshot the action starts from; otherwise the
    snapshot is returned with the nomination recorded and nothing else
    changed. *)
Theorem recordNomination_majority (game : GameState)
  (voterId targetId : string) (now : Z) :
  phase game = DAY_DISCUSSION ->
  seatedAlive (players game) voterId = true ->
  seatedAlive (players game) targetId = true ->
  targetId <> "" ->
  majorityThreshold (List.length (livingPlayers (players game)))
  = List.length (filter (fun p => alive p) (players game)) / 2 + 1 /\
  (majorityThreshold (List.length (livingPlayers (players game)))
   <= votesFor (obj_set (dayNominations game) voterId (Some targetId)) targetId ->
   recordNomination game voterId targetId now
   = Ok {| gameId := gameId game; players := players game;
           phase := TRIAL;
           dayNumber := dayNumber game; nightNumber := nightNumber game;
           accusedId := Some targetId;
           lastKilledId := lastKilledId game;
           phaseEndsAt := (now + trial (durations (options game)))%Z;
           winner := winner game;
           options := options game; rolesAssigned := rolesAssigned game;
           nightVotes := nightVotes game;
           dayNominations :=
             obj_set (dayNominations game) voterId (Some targetId);
           verdictVotes := [] |}) /\
  (votesFor (obj_set (dayNominations game) voterId (Some targetId)) targetId
   < majorityThreshold (List.length (livingPlayers (players game))) ->
   recordNomination game voterId targetId now
   = Ok (withDayNominations game
           (obj_set (dayNominations game) voterId (Some targetId)))).
Proof.
  intros Hphase Hvoter Htarget Hne.
  unfold seatedAlive in Hvoter, Htarget.
  destruct (getPlayer (players game) voterId) as [voter|] eqn:Ev;
    [|discriminate].
  destruct (getPlayer (players game) targetId) as [target|] eqn:Et;
    [|discriminate].
  pose proof (getPlayer_id _ _ _ Ev) as Hvid.
  pose proof (getPlayer_id _ _ _ Et) as Htid.
  assert (Htruthy : truthy targetId = true) by now apply truthy_neq.
  split; [reflexivity|].
  assert (Hrun :
    recordNomination game voterId targetId now
    = let updated :=
        withDayNominations game
          (obj_set (dayNominations game) voterId (Some targetId)) in
      if majorityThreshold (List.length (livingPlayers (players game)))
         <=? votesFor (dayNominations updated) targetId
      then startTrial updated targetId now else Ok updated).
  { unfold recordNomination.
    rewrite ensurePhase_ok by (rewrite Hphase; simpl; auto).
    rewrite (assertPlayer_alive_ok _ _ _ Ev Hvoter).
    rewrite (assertPlayer_alive_ok _ _ _ Et Htarget).
    simpl. rewrite Hvid, Htid.
    now rewrite (tallyOf_tallyVotes _ _ Htruthy). }
  rewrite Hrun. simpl.
  split; intros Hcmp.
  - apply Nat.leb_le in Hcmp. rewrite Hcmp.
    unfold startTrial.
    rewrite ensurePhase_ok by (simpl; rewrite Hphase; simpl; auto).
    unfold assertPlayer. simpl. rewrite Et, Htarget. reflexivity.
  - apply Nat.leb_gt in Hcmp. rewrite Hcmp. reflexivity.
Qed.

(** With five living players three nominations of the same target open the
    trial and two do not. *)
Lemma recordNomination_majority_witness :
  (exists g',
     recordNomination (fiveAlive [("p1", Some "p5"); ("p2", Some "p5")])
       "p3" "p5" 0 = Ok g' /\
     phase g' = TRIAL /\ accusedId g' = Some "p5") /\
  (exists g',
     recordNomination (fiveAlive [("p1", Some "p5")]) "p2" "p5" 0 = Ok g' /\
     phase g' = DAY_DISCUSSION /\ accusedId g' = None).
Proof.
  split.
  - destruct (recordNomination_majority
                (fiveAlive [("p1", Some "p5"); ("p2", Some "p5")])
                "p3" "p5" 0 eq_refl eq_refl eq_refl)
      as (_ & Hyes & _); [discriminate|].
    eexists. split; [apply Hyes; vm_compute; lia|]. split; reflexivity.
  - destruct (recordNomination_majority
                (fiveAlive [("p1", Some "p5")])
                "p2" "p5" 0 eq_refl eq_refl eq_refl)
      as (_ & _ & Hno); [discriminate|].
    eexists. split; [apply Hno; vm_compute; lia|]. split; reflexivity.
Defined.

(* ================================================================== *)
(** ** Verdicts *)

Lemma livingIdsHas_isLiving (ps : list Player) (id : string) :
  livingIdsHas ps id = isLiving ps id.
Proof.
  unfold livingIdsHas, isLiving, livingPlayers.
  induction ps as [|p ps IH]; simpl; [reflexivity|].
  destruct (alive p); simpl; rewrite IH; [|reflexivity].
  now rewrite (String.eqb_sym id).
Qed.

Lemma countVerdict_from (ps : list Player) (votes : Rec VerdictChoice)
  (acc : nat * nat) :
  fold_left (verdictStep ps) votes acc
  = (fst acc + verdictCount ps votes HANG,
     snd acc + verdictCount ps votes SPARE).
Proof.
  unfold verdictCount.
  revert acc. induction votes as [|[k c] votes IH]; intros [h s]; simpl.
  - f_equal; lia.
  - rewrite IH. unfold verdictStep. simpl.
    destruct c as [[|]|]; simpl; rewrite ?livingIdsHas_isLiving;
      destruct (isLiving ps k); simpl; f_equal; lia.
Qed.

(** The loop counts the ballots that are cast and whose voter is living. *)
Lemma countVerdict_counts (ps : list Player) (votes : Rec VerdictChoice) :
  countVerdict ps votes
  = (verdictCount ps votes HANG, verdictCount ps votes SPARE).
Proof.
  unfold countVerdict. rewrite countVerdict_from. unfold verdictCount.
  now rewrite !(filter_length_Permutation _ _ _
                  (obj_entries_Permutation _ votes)).
Qed.

Lemma markDead_kills (ps : list Player) (id : string) :
  getPlayer ps id <> None -> seatedAlive (markDead id ps) id = false.
Proof.
  unfold seatedAlive, getPlayer.
  induction ps as [|p ps IH]; simpl; [congruence|].
  destruct (String.eqb (playerId p) id) eqn:E; simpl; rewrite E.
  - reflexivity.
  - exact IH.
Qed.

(** Killing [id] leaves every player seated under another id as they were,
    and nobody changes seat. *)
Lemma markDead_frame (ps : list Player) (id other : string) :
  other <> id ->
  getPlayer (markDead id ps) other = getPlayer ps other /\
  map playerId (markDead id ps) = map playerId ps.
Proof.
  intros Hne. unfold getPlayer.
  induction ps as [|p ps [IH1 IH2]]; simpl; [split; reflexivity|].
  destruct (String.eqb (playerId p) id) eqn:E; simpl.
  - apply String.eqb_eq in E.
    destruct (String.eqb (playerId p) other) eqn:E'.
    + apply String.eqb_eq in E'. congruence.
    + split; reflexivity.
  - rewrite IH1, IH2. split; reflexivity.
Qed.

Lemma verdictBase_players (game : GameState) (accused : string) (now : Z) :
  players (verdictBase game accused now)
  = if hangs game accused then markDead accused (players game)
    else players game.
Proof.
  unfold verdictBase, hangs, seatedAlive. simpl.
  rewrite clonePlayers_id, countVerdict_counts. simpl.
  destruct (verdictCount (players game) (verdictVotes game) SPARE
            <? verdictCount (players game) (verdictVotes game) HANG);
    simpl; [|reflexivity].
  destruct (getPlayer (players game) accused) as [a|]; [|reflexivity].
  destruct (alive a); reflexivity.
Qed.

Lemma verdictBase_lastKilled (game : GameState) (accused : string) (now : Z) :
  lastKilledId (verdictBase game accused now)
  = if hangs game accused then Some accused else lastKilledId game.
Proof.
  unfold verdictBase, hangs, seatedAlive. simpl.
  rewrite clonePlayers_id, countVerdict_counts. simpl.
  destruct (verdictCount (players game) (verdictVotes game) SPARE
            <? verdictCount (players game) (verdictVotes game) HANG);
    simpl; [|reflexivity].
  destruct (getPlayer (players game) accused) as [a|] eqn:Ea; [|reflexivity].
  destruct (alive a); simpl; [|reflexivity].
  now rewrite (getPlayer_id _ _ _ Ea).
Qed.

(** What [resolveDayVerdict] returns for a recorded accused: the state
    [verdictBase] built, taken to GAME_OVER or to the next NIGHT. *)
Lemma resolveDayVerdict_returns (game : GameState) (now : Z)
  (accused : string) :
  phase game = DAY_VERDICT ->
  accusedId game = Some accused ->
  accused <> "" ->
  exists g',
    resolveDayVerdict game now = Ok g' /\
    players g' = players (verdictBase game accused now) /\
    lastKilledId g' = lastKilledId (verdictBase game accused now) /\
    accusedId g' = None /\ verdictVotes g' = [] /\
    (phase g' = GAME_OVER \/ phase g' = NIGHT).
Proof.
  intros Hphase Hacc Hne. unfold resolveDayVerdict.
  rewrite ensurePhase_ok by (rewrite Hphase; simpl; auto).
  simpl. rewrite Hacc.
  apply truthy_neq in Hne. rewrite Hne. simpl.
  destruct (checkWin (verdictBase game accused now)) as [w|].
  - eexists. split; [reflexivity|]. simpl. repeat split; auto.
  - unfold startNight.
    rewrite ensurePhase_ok by (simpl; rewrite Hphase; simpl; auto).
    eexists. split; [reflexivity|]. simpl. repeat split; auto.
Qed.

(** C3, as stated, fails for an accused seated under the empty id: the
    accused is recorded (not null) and alive, HANG beats SPARE two to
    nothing, and the resolution is rejected for want of an accused instead
    of hanging them. *)
Lemma resolveDayVerdict_blank_accused_not_hanged :
  phase blankAccusedHanged = DAY_VERDICT /\
  accusedId blankAccusedHanged = Some "" /\
  seatedAlive (players blankAccusedHanged) "" = true /\
  verdictCount (players blankAccusedHanged) (verdictVotes blankAccusedHanged)
    SPARE
  < verdictCount (players blankAccusedHanged)
      (verdictVotes blankAccusedHanged) HANG /\
  resolveDayVerdict blankAccusedHanged 0
  = Throw (GameRuleError "NO_ACCUSED" "No accused player to resolve").
Proof. repeat split; vm_compute; lia. Qed.

(** C3, amended: in DAY_VERDICT with an accused recorded under a non-empty
    id, [resolveDayVerdict] returns a snapshot; HANG and SPARE being counted
    over the ballots that are cast and whose voter is currently living, the
    accused is killed exactly when HANG strictly exceeds SPARE and the accused
    is alive; in every other case, equality and 0-0 included, the players are
    returned as they were. *)
Theorem resolveDayVerdict_tally (game : GameState) (now : Z)
  (accused : string) :
  phase game = DAY_VERDICT ->
  accusedId game = Some accused ->
  accused <> "" ->
  exists g',
    resolveDayVerdict game now = Ok g' /\
    (verdictCount (players game) (verdictVotes game) SPARE
     < verdictCount (players game) (verdictVotes game) HANG ->
     seatedAlive (players game) accused = true ->
     players g' = markDead accused (players game) /\
     seatedAlive (players g') accused = false) /\
    (~ (verdictCount (players game) (verdictVotes game) SPARE
        < verdictCount (players game) (verdictVotes game) HANG /\
        seatedAlive (players game) accused = true) ->
     players g' = players game) /\
    (verdictCount (players game) (verdictVotes game) HANG
     = verdictCount (players game) (verdictVotes game) SPARE ->
     seatedAlive (players g') accused = seatedAlive (players game) accused).
Proof.
  intros Hphase Hacc Hne.
  destruct (resolveDayVerdict_returns game now accused Hphase Hacc Hne)
    as (g' & Hrun & Hps & _).
  exists g'. split; [exact Hrun|].
  rewrite Hps, verdictBase_players. unfold hangs.
  split; [|split].
  - intros Hlt Halive. apply Nat.ltb_lt in Hlt. rewrite Hlt, Halive. simpl.
    split; [reflexivity|].
    apply markDead_kills. unfold seatedAlive in Halive.
    destruct (getPlayer (players game) accused); congruence.
  - intros Hn.
    destruct (verdictCount (players game) (verdictVotes game) SPARE
              <? verdictCount (players game) (verdictVotes game) HANG) eqn:E;
      simpl; [|reflexivity].
    destruct (seatedAlive (players game) accused) eqn:Ea; [|reflexivity].
    exfalso. apply Hn. apply Nat.ltb_lt in E. now split.
  - intros Heq.
    replace (verdictCount (players game) (verdictVotes game) SPARE
             <? verdictCount (players game) (verdictVotes game) HANG)
      with false; [reflexivity|].
    symmetry. apply Nat.ltb_ge. lia.
Qed.

(** One HANG, one SPARE and one ballot not cast: the tie spares the accused;
    two HANG against one SPARE hang them. *)
Lemma resolveDayVerdict_tally_witness :
  (exists g',
     resolveDayVerdict tiedVerdict 0 = Ok g' /\
     players g' = players tiedVerdict) /\
  (exists g',
     resolveDayVerdict hangingVerdict 0 = Ok g' /\
     seatedAlive (players g') "p3" = false).
Proof.
  split.
  - destruct (resolveDayVerdict_tally tiedVerdict 0 "p3" eq_refl eq_refl)
      as (g' & Hrun & _ & Hspared & _); [discriminate|].
    exists g'. split; [exact Hrun|]. apply Hspared.
    vm_compute. intros [H _]. lia.
  - destruct (resolveDayVerdict_tally hangingVerdict 0 "p3" eq_refl eq_refl)
      as (g' & Hrun & Hhanged & _); [discriminate|].
    exists g'. split; [exact Hrun|]. apply Hhanged.
    + vm_compute. lia.
    + reflexivity.
Defined.

(** C10, as stated, fails for an accused seated under the empty id: one HANG
    against one SPARE spares them, yet no snapshot is returned, so neither
    the accusation nor the ballots are cleared. *)
Lemma resolveDayVerdict_blank_accused_not_cleared :
  phase blankAccusedSpared = DAY_VERDICT /\
  accusedId blankAccusedSpared = Some "" /\
  verdictCount (players blankAccusedSpared) (verdictVotes blankAccusedSpared)
    HANG
  <= verdictCount (players blankAccusedSpared)
       (verdictVotes blankAccusedSpared) SPARE /\
  resolveDayVerdict blankAccusedSpared 0
  = Throw (GameRuleError "NO_ACCUSED" "No accused player to resolve").
Proof. repeat split; vm_compute; lia. Qed.

(** C10, amended: in DAY_VERDICT with an accused recorded under a non-empty
    id, when the verdict spares the accused (HANG does not strictly exceed
    SPARE, or the accused is not alive), [resolveDayVerdict] returns a
    snapshot with the same players, alive flags included, and the same
    lastKilledId as before, and with the accusation and the verdict ballots
    cleared. *)
Theorem resolveDayVerdict_spared_frame (game : GameState) (now : Z)
  (accused : string) :
  phase game = DAY_VERDICT ->
  accusedId game = Some accused ->
  accused <> "" ->
  verdictCount (players game) (verdictVotes game) HANG
  <= verdictCount (players game) (verdictVotes game) SPARE
  \/ seatedAlive (players game) accused = false ->
  exists g',
    resolveDayVerdict game now = Ok g' /\
    players g' = players game /\
    map alive (players g') = map alive (players game) /\
    lastKilledId g' = lastKilledId game /\
    accusedId g' = None /\
    verdictVotes g' = [].
Proof.
  intros Hphase Hacc Hne Hspared.
  destruct (resolveDayVerdict_returns game now accused Hphase Hacc Hne)
    as (g' & Hrun & Hps & Hlk & Hclear & Hballots & _).
  assert (Hh : hangs game accused = false).
  { unfold hangs. destruct Hspared as [Hle | Hdead].
    - replace (verdictCount (players game) (verdictVotes game) SPARE
               <? verdictCount (players game) (verdictVotes game) HANG)
        with false; [reflexivity|].
      symmetry. apply Nat.ltb_ge. exact Hle.
    - rewrite Hdead. apply Bool.andb_false_r. }
  rewrite verdictBase_players, Hh in Hps.
  rewrite verdictBase_lastKilled, Hh in Hlk.
  exists g'. rewrite Hps. repeat split; auto.
Qed.

(** The tie of the test suite leaves the players, the last kill and the
    cleared fields as claimed. *)
Lemma resolveDayVerdict_spared_frame_witness :
  exists g',
    resolveDayVerdict tiedVerdict 0 = Ok g' /\
    players g' = players tiedVerdict /\
    lastKilledId g' = None /\ accusedId g' = None /\ verdictVotes g' = [].
Proof.
  destruct (resolveDayVerdict_spared_frame tiedVerdict 0 "p3"
              eq_refl eq_refl)
    as (g' & Hrun & Hps & _ & Hlk & Hacc & Hv).
  - discriminate.
  - left. vm_compute. lia.
  - exists g'. repeat split; assumption.
Defined.

(* ================================================================== *)
(** ** Night resolution *)

(** Rounding to the nearest double moves a number by at most half a unit
    in the last place, which is at most the number over 2^53. *)
Lemma roundToDouble_le (p : N) :
  (roundToDouble p * 2 ^ 53 <= p * (2 ^ 53 + 1))%N.
Proof.
  unfold roundToDouble.
  set (s := (N.size p - 53)%N).
  destruct (N.eqb_spec s 0) as [E|E]; [nia|].
  set (h := (2 ^ (s - 1))%N).
  assert (H2s : (2 ^ s = 2 * h)%N).
  { unfold h. rewrite <- N.pow_succ_r'. f_equal. lia. }
  assert (Hsize : (h * 2 ^ 53 <= p)%N).
  { pose proof (N.size_le p) as Hle.
    replace (N.size p) with (N.succ (s - 1 + 53)) in Hle
      by (unfold s in *; lia).
    rewrite N.pow_succ_r', N.pow_add_r in Hle. fold h in Hle.
    rewrite N.succ_double_spec in Hle. lia. }
  rewrite H2s.
  assert (Hh : (0 < h)%N)
    by (unfold h; apply N.neq_0_lt_0, N.pow_nonzero; lia).
  pose proof (N.Div0.div_mod p (2 * h)) as Hdm.
  pose proof (N.mod_upper_bound p (2 * h)) as Hub.
  set (q := (p / (2 * h))%N) in *. set (rest := (p mod (2 * h))%N) in *.
  set (c := (2 ^ 53)%N) in *.
  destruct ((h <? rest)%N || ((rest =? h)%N && N.odd q)) eqn:Eup.
  - assert (Hge : (h <= rest)%N).
    { apply Bool.orb_true_iff in Eup. destruct Eup as [H|H].
      - apply N.ltb_lt in H. lia.
      - apply Bool.andb_true_iff in H. destruct H as [H _].
        apply N.eqb_eq in H. lia. }
    nia.
  - nia.
Qed.

(** The index drawn is within the list: the product of a double below 1 and
    a length never rounds up to the length. *)
Lemma scaled_lt (d : Draw) (n : nat) : 0 < n -> scaled d n < n.
Proof.
  intros Hn. unfold scaled.
  destruct d as [m sh Hok]. cbn [mantissa shift].
  apply Bool.andb_true_iff in Hok. destruct Hok as [Hok _].
  apply Bool.andb_true_iff in Hok. destruct Hok as [Hm Hsh].
  apply N.ltb_lt in Hm. apply N.leb_le in Hsh.
  assert (Hpow : (2 ^ 53 <= 2 ^ sh)%N) by (apply N.pow_le_mono_r; lia).
  pose proof (roundToDouble_le (m * N.of_nat n)) as Hr.
  set (r := roundToDouble (m * N.of_nat n)) in *.
  set (c := (2 ^ 53)%N) in *. set (b := (2 ^ sh)%N) in *.
  assert (Hc : (0 < c)%N)
    by (unfold c; apply N.neq_0_lt_0, N.pow_nonzero; lia).
  assert (Hlt : (r / b < N.of_nat n)%N).
  { apply N.Div0.div_lt_upper_bound. nia. }
  lia.
Qed.

Lemma scaled_one (d : Draw) : scaled d 1 = 0.
Proof. pose proof (scaled_lt d 1). lia. Qed.

Lemma pickVictim_draws (leaders : list string) (random : RandomFn) :
  leaders <> [] ->
  exists victim,
    pickVictim leaders random = Ok victim /\
    nth_error leaders (scaled (random 0) (List.length leaders)) = Some victim.
Proof.
  intros Hne. destruct leaders as [|a [|b rest]]; [congruence| |].
  - exists a. simpl. now rewrite scaled_one.
  - set (l := a :: b :: rest).
    exists (nth (scaled (random 0) (List.length l)) l a). split.
    + reflexivity.
    + apply nth_error_nth'. apply scaled_lt. simpl. lia.
Qed.

Lemma list_max_In (l : list nat) : l <> [] -> In (list_max l) l.
Proof.
  induction l as [|a l IH]; [congruence|]. intros _.
  destruct l as [|b l'].
  - simpl. left. lia.
  - change (list_max (a :: b :: l')) with (Nat.max a (list_max (b :: l'))).
    destruct (Nat.max_spec a (list_max (b :: l'))) as [[_ ->]|[_ ->]].
    + right. apply IH. discriminate.
    + now left.
Qed.

Lemma leadersOf_In (tally : list (string * nat)) (t : string) :
  NoDup (rec_keys tally) ->
  (In t (leadersOf tally)
   <-> rec_get tally t = Some (list_max (map snd tally))).
Proof.
  intros Hnd. unfold leadersOf.
  rewrite <- (rec_get_In _ tally t (list_max (map snd tally)) Hnd).
  rewrite in_map_iff. split.
  - intros [[k n] [Hk Hin]]. simpl in Hk. subst k.
    apply filter_In in Hin. destruct Hin as [Hin Hn]. simpl in Hn.
    apply Nat.eqb_eq in Hn. now subst.
  - intros Hin. exists (t, list_max (map snd tally)). split; [reflexivity|].
    apply filter_In. split; [exact Hin|]. simpl. apply Nat.eqb_refl.
Qed.

Lemma leadersOf_NoDup (tally : list (string * nat)) :
  NoDup (rec_keys tally) -> NoDup (leadersOf tally).
Proof.
  unfold leadersOf, rec_keys.
  generalize (list_max (map snd tally)) as top.
  induction tally as [|[k n] tally IH]; simpl; intros top Hnd.
  - constructor.
  - inversion Hnd as [|? ? Hnin Hnd']; subst.
    destruct (n =? top); simpl; [|now apply IH].
    constructor; [|now apply IH].
    intros Hin. apply Hnin. apply in_map_iff in Hin.
    destruct Hin as [[k' n'] [Hk Hin]]. simpl in Hk. subst k'.
    apply filter_In in Hin. apply in_map_iff. exists (k, n'). now split.
Qed.

Lemma leadersOf_nonempty (tally : list (string * nat)) :
  tally <> [] -> leadersOf tally <> [].
Proof.
  intros Hne Hnil.
  assert (Hmax : In (list_max (map snd tally)) (map snd tally)).
  { apply list_max_In. destruct tally; [congruence | discriminate]. }
  apply in_map_iff in Hmax. destruct Hmax as [[k n] [Hn Hin]]. simpl in Hn.
  assert (Hl : In k (leadersOf tally)).
  { unfold leadersOf. apply in_map_iff. exists (k, n). split; [reflexivity|].
    apply filter_In. split; [exact Hin|]. simpl. subst n. apply Nat.eqb_refl. }
  rewrite Hnil in Hl. destruct Hl.
Qed.

(** *** The targets named, in order *)

Lemma firstNamed_seen (seen seen' : list string)
  (ballots : list (option string)) :
  (forall t, In t seen <-> In t seen') ->
  firstNamed seen ballots = firstNamed seen' ballots.
Proof.
  revert seen seen'.
  induction ballots as [|[t|] rest IH]; intros seen seen' Hsame; simpl.
  - reflexivity.
  - assert (E : existsb (String.eqb t) seen = existsb (String.eqb t) seen').
    { apply Bool.eq_iff_eq_true. rewrite !existsb_exists.
      split; intros (x & Hin & Hx); exists x; (split; [|exact Hx]);
        now apply Hsame. }
    rewrite E. destruct (existsb (String.eqb t) seen').
    + now apply IH.
    + f_equal. apply IH. intros x. simpl. now rewrite Hsame.
  - now apply IH.
Qed.

Lemma existsb_eqb_In (t : string) (l : list string) :
  existsb (String.eqb t) l = true <-> In t l.
Proof.
  rewrite existsb_exists. split.
  - intros (x & Hin & Hx). apply String.eqb_eq in Hx. now subst.
  - intros Hin. exists t. split; [exact Hin | apply String.eqb_refl].
Qed.

Lemma firstNamed_In (seen : list string) (ballots : list (option string))
  (t : string) :
  In t (firstNamed seen ballots) <-> In (Some t) ballots /\ ~ In t seen.
Proof.
  revert seen. induction ballots as [|[t'|] rest IH]; intros seen; simpl.
  - tauto.
  - destruct (existsb (String.eqb t') seen) eqn:E.
    + apply existsb_eqb_In in E. rewrite IH. split.
      * intros [H1 H2]. auto.
      * intros [[[= ->]|H1] H2]; [contradiction | auto].
    + assert (Hn : ~ In t' seen).
      { intros H. apply existsb_eqb_In in H. congruence. }
      simpl. rewrite IH. simpl. split.
      * intros [<-|[H1 H2]]; [auto|]. split; [auto|]. tauto.
      * intros [[[= ->]|H1] H2]; [now left|].
        destruct (String.eqb_spec t' t) as [->|Hne]; [now left|].
        right. split; [exact H1|]. intros [H|H]; [congruence | contradiction].
  - rewrite IH. split.
    + intros [H1 H2]. auto.
    + intros [[H|H1] H2]; [discriminate | auto].
Qed.

Lemma firstNamed_NoDup (seen : list string) (ballots : list (option string)) :
  NoDup (firstNamed seen ballots).
Proof.
  revert seen. induction ballots as [|[t|] rest IH]; intros seen; simpl.
  - constructor.
  - destruct (existsb (String.eqb t) seen); [apply IH|].
    constructor; [|apply IH].
    rewrite firstNamed_In. simpl. tauto.
  - apply IH.
Qed.

(** The keys of the tally are the non-empty ids named, in the order in
    which the ballots first name them. *)
Lemma tallyFold_keys (ballots : list (option string))
  (tally : list (string * nat)) (seen : list string) :
  (forall t, truthy t = true -> (In t seen <-> In t (rec_keys tally))) ->
  rec_keys (fold_left tallyStep ballots tally)
  = rec_keys tally ++ filter truthy (firstNamed seen ballots).
Proof.
  revert tally seen.
  induction ballots as [|[t|] rest IH]; intros tally seen Hsame; simpl.
  - now rewrite app_nil_r.
  - destruct (truthy t) eqn:Et.
    + destruct (existsb (String.eqb t) seen) eqn:E.
      * apply existsb_eqb_In in E.
        assert (Hhas : rec_has tally t = true).
        { apply rec_has_keys. now apply Hsame. }
        rewrite (IH _ seen).
        -- now rewrite rec_keys_set_present.
        -- intros x Hx. rewrite rec_keys_set_present by exact Hhas.
           now apply Hsame.
      * assert (Hn : ~ In t seen).
        { intros H. apply existsb_eqb_In in H. congruence. }
        assert (Hhas : rec_has tally t = false).
        { destruct (rec_has tally t) eqn:Eh; [|reflexivity].
          apply rec_has_keys in Eh. apply Hsame in Eh; [contradiction|].
          exact Et. }
        rewrite (IH _ (t :: seen)).
        -- rewrite rec_keys_set_absent by exact Hhas.
           unfold rec_keys. rewrite map_app. simpl. rewrite Et.
           now rewrite <- app_assoc.
        -- intros x Hx. rewrite rec_keys_set_absent by exact Hhas.
           unfold rec_keys. rewrite map_app, in_app_iff. simpl.
           rewrite (Hsame x Hx). unfold rec_keys. tauto.
    + destruct (existsb (String.eqb t) seen) eqn:E.
      * now apply IH.
      * simpl. rewrite Et. rewrite (IH tally (t :: seen)); [reflexivity|].
        intros x Hx. simpl. rewrite <- (Hsame x Hx). split; [|auto].
        intros [<-|H]; [congruence | exact H].
  - now apply IH.
Qed.

Lemma tallyVotes_keys (votes : Rec string) :
  rec_keys (tallyVotes votes)
  = filter truthy (firstNamed [] (obj_values votes)).
Proof.
  unfold tallyVotes. rewrite (tallyFold_keys _ [] []); [reflexivity|].
  intros t _. simpl. tauto.
Qed.

Lemma obj_values_In (votes : Rec string) (t : string) :
  In (Some t) (obj_values votes) <-> exists voter, In (voter, Some t) votes.
Proof.
  split.
  - intros H.
    apply (Permutation_in _ (obj_values_Permutation _ votes)) in H.
    apply in_map_iff in H. destruct H as ([voter v] & Hv & Hin).
    simpl in Hv. subst v. now exists voter.
  - intros [voter H].
    apply (Permutation_in _ (Permutation_sym (obj_values_Permutation _ votes))).
    apply in_map_iff. now exists (voter, Some t).
Qed.

Lemma firstNamed_votes (votes : Rec string) (t : string) :
  In t (firstNamed [] (obj_values votes)) <-> 1 <= votesFor votes t.
Proof.
  rewrite firstNamed_In, obj_values_In, votesFor_pos. simpl. tauto.
Qed.

(** Holding the maximum tally is decided by comparing with the ids named. *)
Lemma topTarget_named (votes : Rec string) (t : string) :
  topTarget votes t
  <-> In t (firstNamed [] (obj_values votes)) /\
      forallb (fun t' => votesFor votes t' <=? votesFor votes t)
        (firstNamed [] (obj_values votes)) = true.
Proof.
  unfold topTarget. rewrite firstNamed_votes, forallb_forall. split.
  - intros [Hpos Htop]. split; [exact Hpos|].
    intros t' _. apply Nat.leb_le, Htop.
  - intros [Hpos Htop]. split; [exact Hpos|]. intros t'.
    destruct (votesFor votes t') as [|n] eqn:E; [lia|].
    rewrite <- E. apply Nat.leb_le, Htop. apply firstNamed_votes. lia.
Qed.

Lemma tiedTargets_top (votes : Rec string) (t : string) :
  In t (tiedTargets votes) <-> topTarget votes t.
Proof. unfold tiedTargets. now rewrite filter_In, topTarget_named. Qed.

Lemma tiedTargets_NoDup (votes : Rec string) : NoDup (tiedTargets votes).
Proof. apply NoDup_filter, firstNamed_NoDup. Qed.

(** When the empty id does not hold the maximum tally, some other id has
    more ballots than it. *)
Lemma blank_not_top (votes : Rec string) :
  ~ topTarget votes "" ->
  votesFor votes "" = 0 \/
  exists t, t <> "" /\ votesFor votes "" < votesFor votes t.
Proof.
  intros Hnot. destruct (votesFor votes "") as [|n] eqn:E; [now left|].
  right.
  destruct (forallb (fun t' => votesFor votes t' <=? votesFor votes "")
              (firstNamed [] (obj_values votes))) eqn:Ef.
  - exfalso. apply Hnot. apply topTarget_named. split; [|exact Ef].
    apply firstNamed_votes. lia.
  - assert (Hex : exists t,
              In t (firstNamed [] (obj_values votes)) /\
              (votesFor votes t <=? votesFor votes "") = false).
    { clear -Ef. induction (firstNamed [] (obj_values votes)) as [|a l IH];
        simpl in Ef; [discriminate|].
      apply Bool.andb_false_iff in Ef. destruct Ef as [H|H].
      - exists a. split; [now left | exact H].
      - destruct (IH H) as (t & Hin & Ht). exists t. split; [now right|].
        exact Ht. }
    destruct Hex as (t & _ & Ht). apply Nat.leb_gt in Ht.
    exists t. split; [|lia]. intros ->. lia.
Qed.

(** The entries of the tally: the non-empty ids named, each with the number
    of ballots naming it. *)
Lemma tallyVotes_lookup (votes : Rec string) (t : string) (n : nat) :
  rec_get (tallyVotes votes) t = Some n
  <-> t <> "" /\ n = votesFor votes t /\ 1 <= n.
Proof.
  destruct (tallyVotes_ok votes) as [Hnd Hval]. split.
  - intros Hget. destruct (Hval _ _ Hget) as [Ht Hn].
    split; [now apply truthy_neq|]. split; [|exact Hn].
    rewrite <- (tallyOf_tallyVotes votes t Ht). unfold tallyOf.
    now rewrite Hget.
  - intros (Hne & -> & Hn). apply truthy_neq in Hne.
    pose proof (tallyOf_tallyVotes votes t Hne) as Hof. unfold tallyOf in Hof.
    destruct (rec_get (tallyVotes votes) t) as [m|]; simpl in Hof.
    + now subst.
    + lia.
Qed.

Lemma list_max_ge (l : list nat) (n : nat) : In n l -> n <= list_max l.
Proof.
  intros Hin.
  assert (Hle : list_max l <= list_max l) by lia.
  apply list_max_le in Hle. rewrite Forall_forall in Hle. now apply Hle.
Qed.

(** The leaders of the tally are the targets holding the maximum number of
    ballots, unless the empty id is one of them. *)
Lemma leadersOf_topTarget (votes : Rec string) (t : string) :
  ~ topTarget votes "" ->
  (In t (leadersOf (tallyVotes votes)) <-> topTarget votes t).
Proof.
  intros Hblank. destruct (tallyVotes_ok votes) as [Hnd Hval].
  rewrite (leadersOf_In _ t Hnd).
  set (tally := tallyVotes votes) in *.
  assert (Hentry : forall k n,
            In (k, n) tally -> k <> "" /\ n = votesFor votes k /\ 1 <= n).
  { intros k n Hin. apply (rec_get_In _ tally k n Hnd) in Hin.
    now apply tallyVotes_lookup in Hin. }
  assert (Hbound : forall k,
            k <> "" -> votesFor votes k <= list_max (map snd tally)).
  { intros k Hk. destruct (votesFor votes k) as [|m] eqn:E; [lia|].
    apply list_max_ge. apply in_map_iff. exists (k, S m).
    split; [reflexivity|]. apply (rec_get_In _ tally k (S m) Hnd).
    apply tallyVotes_lookup. repeat split; [exact Hk | congruence | lia]. }
  unfold topTarget. split.
  - intros Hget. apply tallyVotes_lookup in Hget.
    destruct Hget as (Hne & Hmax & Hpos). split; [lia|]. intros t'.
    rewrite <- Hmax.
    destruct (String.eqb_spec t' "") as [->|Hne']; [|now apply Hbound].
    destruct (blank_not_top votes Hblank) as [->|(k & Hk & Hlt)]; [lia|].
    specialize (Hbound k Hk). lia.
  - intros [Hpos Htop].
    assert (Hne : t <> "").
    { intros ->. apply Hblank. now split. }
    apply tallyVotes_lookup. split; [exact Hne|]. split; [|].
    + apply Nat.le_antisymm.
      * apply list_max_le. apply Forall_forall. intros n Hn.
        apply in_map_iff in Hn. destruct Hn as [[k n'] [Hk Hin]].
        simpl in Hk. subst n'. destruct (Hentry _ _ Hin) as (_ & -> & _).
        apply Htop.
      * now apply Hbound.
    + assert (H := Hbound t Hne). lia.
Qed.

(** The keys kept by a filter on the entries of a map. *)
Lemma filter_keys {V : Type} (f : string * V -> bool) (l : list (string * V)) :
  NoDup (map fst l) ->
  map fst (filter f l)
  = filter (fun k => existsb (String.eqb k) (map fst (filter f l)))
      (map fst l).
Proof.
  induction l as [|e l IH]; simpl; intros Hnd; [reflexivity|].
  inversion Hnd as [|? ? Hnin Hnd']; subst.
  assert (Hsub : forall k, In k (map fst (filter f l)) -> In k (map fst l)).
  { intros k Hin. apply in_map_iff in Hin. destruct Hin as (x & <- & Hx).
    apply filter_In in Hx. apply in_map. tauto. }
  destruct (f e); simpl.
  - rewrite String.eqb_refl. simpl. f_equal.
    rewrite (IH Hnd') at 1. apply filter_ext_in. intros k Hk.
    destruct (String.eqb_spec k (fst e)) as [->|Hne]; [contradiction|].
    reflexivity.
  - destruct (existsb (String.eqb (fst e)) (map fst (filter f l))) eqn:E.
    + apply existsb_eqb_In in E. apply Hsub in E. contradiction.
    + now apply IH.
Qed.

Lemma filter_twice {A : Type} (f g : A -> bool) (l : list A) :
  filter g (filter f l) = filter (fun x => f x && g x) l.
Proof.
  induction l as [|a l IH]; simpl; [reflexivity|].
  destruct (f a); simpl; [|exact IH]. destruct (g a); now rewrite IH.
Qed.

(** The leaders of the tally, in the order of the [Map]: the tied targets in
    the order in which the ballots first name them. *)
Lemma leadersOf_tiedTargets (votes : Rec string) :
  ~ topTarget votes "" -> leadersOf (tallyVotes votes) = tiedTargets votes.
Proof.
  intros Hblank. destruct (tallyVotes_ok votes) as [Hnd _].
  pose proof (leadersOf_topTarget votes) as Htop.
  unfold leadersOf in *.
  rewrite (filter_keys _ _ Hnd).
  change (map fst (tallyVotes votes)) with (rec_keys (tallyVotes votes)).
  rewrite tallyVotes_keys, filter_twice. unfold tiedTargets.
  apply filter_ext_in. intros t Hin.
  apply Bool.eq_iff_eq_true.
  rewrite Bool.andb_true_iff, existsb_eqb_In, (Htop t Hblank).
  rewrite topTarget_named. split.
  - intros (_ & _ & H). exact H.
  - intros H. assert (Ht : topTarget votes t).
    { apply topTarget_named. now split. }
    split; [|now split]. apply truthy_neq. intros ->. now apply Hblank.
Qed.

Lemma tallyVotes_cast (votes : Rec string) :
  (exists voter t, In (voter, Some t) votes) ->
  ~ topTarget votes "" ->
  tallyVotes votes <> [].
Proof.
  intros (voter & t & Hin) Hblank Hnil.
  assert (Hpos : 1 <= votesFor votes t) by (apply votesFor_pos; eauto).
  assert (Hex : exists k, k <> "" /\ 1 <= votesFor votes k).
  { destruct (String.eqb_spec t "") as [->|Hne]; [|now exists t].
    destruct (blank_not_top votes Hblank) as [H|(k & Hk & Hlt)]; [lia|].
    exists k. split; [exact Hk | lia]. }
  destruct Hex as (k & Hk & Hkpos).
  assert (Hget : rec_get (tallyVotes votes) k = Some (votesFor votes k)).
  { apply tallyVotes_lookup. now repeat split. }
  rewrite Hnil in Hget. discriminate Hget.
Qed.

(** Ballots that name nobody leave the tally as it is. *)
Lemma tallyFold_none_cast (targets : list (option string))
  (acc : list (string * nat)) :
  Forall (fun v => truthyOpt v = false) targets ->
  fold_left tallyStep targets acc = acc.
Proof.
  revert acc. induction targets as [|v vs IH]; intros acc H; simpl.
  - reflexivity.
  - inversion H as [|? ? Hv Hvs]; subst. rewrite IH by exact Hvs.
    destruct v as [t|]; simpl in *; [|reflexivity]. now rewrite Hv.
Qed.

(** The kill of a night whose tally is not empty: the victim is the leader
    at the index drawn and dies if seated and alive. *)
Lemma nightKill_picks (game : GameState) (random : RandomFn) :
  tallyVotes (nightVotes game) <> [] ->
  exists victim,
    nth_error (leadersOf (tallyVotes (nightVotes game)))
      (scaled (random 0)
         (List.length (leadersOf (tallyVotes (nightVotes game)))))
    = Some victim /\
    nightKill game random
    = Ok (if seatedAlive (players game) victim
          then (markDead victim (players game), Some victim)
          else (players game, None)).
Proof.
  intros Hne.
  destruct (pickVictim_draws _ random (leadersOf_nonempty _ Hne))
    as (victim & Hpick & Hnth).
  exists victim. split; [exact Hnth|].
  unfold nightKill. rewrite clonePlayers_id.
  destruct (tallyVotes (nightVotes game)) as [|e tally] eqn:Et;
    [congruence|].
  simpl List.length. simpl Nat.ltb. cbv iota.
  rewrite Hpick. simpl. unfold seatedAlive.
  destruct (getPlayer (players game) victim) as [p|] eqn:Ep; [|reflexivity].
  destruct (alive p); [|reflexivity].
  now rewrite (getPlayer_id _ _ _ Ep).
Qed.

Lemma resolveNight_returns (game : GameState) (now : Z) (random : RandomFn)
  (outcome : list Player * option string) :
  phase game = NIGHT ->
  nightKill game random = Ok outcome ->
  exists g',
    resolveNight game now random = Ok g' /\
    players g' = fst outcome /\ lastKilledId g' = snd outcome /\
    nightVotes g' = [] /\
    (phase g' = GAME_OVER \/ phase g' = DAY_DISCUSSION).
Proof.
  intros Hphase Hkill. unfold resolveNight.
  rewrite ensurePhase_ok by (rewrite Hphase; simpl; auto).
  simpl. rewrite Hkill. simpl.
  match goal with
  | |- context [checkWin ?b] => destruct (checkWin b) as [w|]
  end; eexists; (split; [reflexivity|]); simpl; repeat split; auto.
Qed.

(** C4, as stated, fails when the ballots name a player seated under the
    empty id: that player is alive and is the only target with a ballot, yet
    nobody is killed, because [tallyVotes] skips the ballot. *)
Lemma resolveNight_blank_target_not_killed :
  phase blankTargetNight = NIGHT /\
  In ("t1", Some "") (nightVotes blankTargetNight) /\
  topTarget (nightVotes blankTargetNight) "" /\
  (forall t, topTarget (nightVotes blankTargetNight) t -> t = "") /\
  seatedAlive (players blankTargetNight) "" = true /\
  exists g',
    resolveNight blankTargetNight 0 zero = Ok g' /\
    players g' = players blankTargetNight /\ lastKilledId g' = None.
Proof.
  split; [reflexivity|]. split; [now left|].
  assert (Hv : forall t,
             votesFor (nightVotes blankTargetNight) t
             = if String.eqb "" t then 1 else 0).
  { intros t. unfold votesFor. destruct t; reflexivity. }
  split; [|split; [|split]].
  - split; [rewrite Hv; simpl; lia|].
    intros t. rewrite !Hv. destruct t; simpl; lia.
  - intros t [Hpos _]. rewrite Hv in Hpos.
    destruct t; [reflexivity|]. simpl in Hpos. lia.
  - reflexivity.
  - eexists. split; [vm_compute; reflexivity|]. split; reflexivity.
Qed.

(** A night in which every ballot cast names the empty id kills nobody. *)
Lemma nightKill_all_blank (game : GameState) (random : RandomFn) :
  (forall voter t, In (voter, Some t) (nightVotes game) -> t = "") ->
  nightKill game random = Ok (players game, None).
Proof.
  intros Hall. unfold nightKill, tallyVotes.
  rewrite tallyFold_none_cast; [now rewrite clonePlayers_id|].
  apply Forall_forall. intros [t|] Hin; [|reflexivity].
  apply obj_values_In in Hin. destruct Hin as [voter Hin].
  now rewrite (Hall _ _ Hin).
Qed.

(** C4, amended: in NIGHT, with at least one ballot cast, and with the empty
    id not among the targets that hold the maximum tally (or else named by
    every ballot cast while no living player is seated under it),
    [resolveNight] returns a snapshot (no rejection); the selected target
    holds the maximum tally: it is the one target that does when there is
    only one, and otherwise the tied target at the index
    [Math.floor(random() * k)], [k] being the number of tied targets,
    [random()] the draw of the randomness source, the product rounded as a
    double, and the tied targets taken in the order in which the ballots,
    enumerated as [Object.values] does, first name them; if the selected
    target is seated and alive it is killed and becomes lastKilledId; if it
    is dead (or not seated) nobody is killed and lastKilledId is null. *)
Theorem resolveNight_kills_top_target (game : GameState) (now : Z)
  (random : RandomFn) :
  phase game = NIGHT ->
  (exists voter t, In (voter, Some t) (nightVotes game)) ->
  (topTarget (nightVotes game) "" ->
   seatedAlive (players game) "" = false /\
   forall voter t, In (voter, Some t) (nightVotes game) -> t = "") ->
  exists victim g',
    NoDup (tiedTargets (nightVotes game)) /\
    (forall t,
       In t (tiedTargets (nightVotes game))
       <-> topTarget (nightVotes game) t) /\
    nth_error (tiedTargets (nightVotes game))
      (scaled (random 0) (List.length (tiedTargets (nightVotes game))))
    = Some victim /\
    (forall t,
       (forall t', topTarget (nightVotes game) t' <-> t' = t) -> victim = t) /\
    resolveNight game now random = Ok g' /\
    (seatedAlive (players game) victim = true ->
     players g' = markDead victim (players game) /\
     lastKilledId g' = Some victim /\
     seatedAlive (players g') victim = false) /\
    (seatedAlive (players game) victim = false ->
     players g' = players game /\ lastKilledId g' = None).
Proof.
  intros Hphase Hcast Hblank.
  assert (Hshape : forall victim outcome,
    nth_error (tiedTargets (nightVotes game))
      (scaled (random 0) (List.length (tiedTargets (nightVotes game))))
    = Some victim ->
    nightKill game random = Ok outcome ->
    outcome = (if seatedAlive (players game) victim
               then (markDead victim (players game), Some victim)
               else (players game, None)) ->
    exists victim g',
      NoDup (tiedTargets (nightVotes game)) /\
      (forall t,
         In t (tiedTargets (nightVotes game))
         <-> topTarget (nightVotes game) t) /\
      nth_error (tiedTargets (nightVotes game))
        (scaled (random 0) (List.length (tiedTargets (nightVotes game))))
      = Some victim /\
      (forall t,
         (forall t', topTarget (nightVotes game) t' <-> t' = t) ->
         victim = t) /\
      resolveNight game now random = Ok g' /\
      (seatedAlive (players game) victim = true ->
       players g' = markDead victim (players game) /\
       lastKilledId g' = Some victim /\
       seatedAlive (players g') victim = false) /\
      (seatedAlive (players game) victim = false ->
       players g' = players game /\ lastKilledId g' = None)).
  { intros victim outcome Hnth Hkill ->.
    destruct (resolveNight_returns game now random _ Hphase Hkill)
      as (g' & Hrun & Hps & Hlk & _).
    exists victim, g'.
    split; [apply tiedTargets_NoDup|].
    split; [intros t; apply tiedTargets_top|].
    split; [exact Hnth|].
    split.
    { intros t Huniq. apply Huniq. apply tiedTargets_top.
      eapply nth_error_In. exact Hnth. }
    split; [exact Hrun|].
    split; intros Halive; rewrite Halive in Hps, Hlk; simpl in Hps, Hlk.
    - repeat split; auto. rewrite Hps. apply markDead_kills.
      unfold seatedAlive in Halive.
      destruct (getPlayer (players game) victim); congruence.
    - now split. }
  destruct (in_dec string_dec "" (tiedTargets (nightVotes game)))
    as [Htop|Hnot].
  - apply tiedTargets_top in Htop. destruct (Hblank Htop) as [Hdead Hall].
    assert (Hne : 0 < List.length (tiedTargets (nightVotes game))).
    { apply tiedTargets_top in Htop.
      destruct (tiedTargets (nightVotes game)); [destruct Htop | simpl; lia]. }
    assert (Hex : exists victim,
              nth_error (tiedTargets (nightVotes game))
                (scaled (random 0)
                   (List.length (tiedTargets (nightVotes game))))
              = Some victim).
    { destruct (nth_error (tiedTargets (nightVotes game))
                  (scaled (random 0)
                     (List.length (tiedTargets (nightVotes game)))))
        as [victim|] eqn:E; [now exists victim|].
      apply nth_error_None in E.
      pose proof (scaled_lt (random 0) _ Hne). lia. }
    destruct Hex as [victim Hnth].
    assert (Hvictim : victim = "").
    { apply nth_error_In, tiedTargets_top in Hnth. destruct Hnth as [Hpos _].
      apply votesFor_pos in Hpos. destruct Hpos as [voter Hin].
      now apply (Hall voter). }
    apply (Hshape victim (players game, None) Hnth).
    + now apply nightKill_all_blank.
    + subst victim. now rewrite Hdead.
  - assert (Hnot' : ~ topTarget (nightVotes game) "").
    { intros H. apply Hnot. now apply tiedTargets_top. }
    pose proof (tallyVotes_cast _ Hcast Hnot') as Hne.
    destruct (nightKill_picks game random Hne) as (victim & Hnth & Hkill).
    rewrite (leadersOf_tiedTargets _ Hnot') in Hnth.
    now apply (Hshape victim _ Hnth Hkill).
Qed.

(** A tie between two targets broken by the draw 0.9 kills the second of
    them; a ballot for a dead target kills nobody; among two tied targets
    named by the voters seated under 10 and 9 the draw 0 kills the target of
    9, whose ballot is enumerated first; among three tied targets the draw
    0.3333333333333333, whose product with 3 rounds to 1, kills the
    second; a single ballot naming the empty id, under which nobody is
    seated, kills nobody. *)
Lemma resolveNight_kills_top_target_witness :
  (exists g',
     resolveNight tiedNight 500 nineTenths = Ok g' /\
     lastKilledId g' = Some "s2") /\
  (exists g',
     resolveNight deadTargetNight 123 zero = Ok g' /\
     lastKilledId g' = None /\ players g' = players deadTargetNight) /\
  (exists g',
     resolveNight numberedNight 0 zero = Ok g' /\
     lastKilledId g' = Some "b") /\
  (exists g',
     resolveNight threeTiedNight 0 oneThird = Ok g' /\
     lastKilledId g' = Some "s2") /\
  (exists g',
     resolveNight blankAbsentNight 0 nineTenths = Ok g' /\
     lastKilledId g' = None /\ players g' = players blankAbsentNight).
Proof.
  assert (Hblank : forall g (P : Prop),
            votesFor (nightVotes g) "" = 0 ->
            topTarget (nightVotes g) "" -> P).
  { intros g P H [Hpos _]. lia. }
  split; [|split; [|split; [|split]]].
  - destruct (resolveNight_kills_top_target tiedNight 500 nineTenths eq_refl)
      as (victim & g' & _ & _ & _ & _ & Hrun & _).
    { exists "t1", "s1". now left. }
    { now apply Hblank. }
    exists g'. split; [exact Hrun|].
    revert Hrun. vm_compute. intros [= <-]. reflexivity.
  - destruct (resolveNight_kills_top_target deadTargetNight 123 zero eq_refl)
      as (victim & g' & _ & _ & _ & _ & Hrun & _).
    { exists "t1", "s1". now left. }
    { now apply Hblank. }
    exists g'. split; [exact Hrun|].
    revert Hrun. vm_compute. intros [= <-]. split; reflexivity.
  - destruct (resolveNight_kills_top_target numberedNight 0 zero eq_refl)
      as (victim & g' & _ & _ & _ & _ & Hrun & _).
    { exists "10", "a". now left. }
    { now apply Hblank. }
    exists g'. split; [exact Hrun|].
    revert Hrun. vm_compute. intros [= <-]. reflexivity.
  - destruct (resolveNight_kills_top_target threeTiedNight 0 oneThird eq_refl)
      as (victim & g' & _ & _ & _ & _ & Hrun & _).
    { exists "t1", "s1". now left. }
    { now apply Hblank. }
    exists g'. split; [exact Hrun|].
    revert Hrun. vm_compute. intros [= <-]. reflexivity.
  - destruct (resolveNight_kills_top_target blankAbsentNight 0 nineTenths
                eq_refl)
      as (victim & g' & _ & _ & _ & _ & Hrun & _).
    { exists "t1", "". now left. }
    { intros _. split; [reflexivity|].
      intros voter t [[= _ <-]|[]]. reflexivity. }
    exists g'. split; [exact Hrun|].
    revert Hrun. vm_compute. intros [= <-]. split; reflexivity.
Defined.

(* ================================================================== *)
(** ** Invariants of the snapshot *)

Lemma bind_ok {A B : Type} (c : Result A) (k : A -> Result B) (b : B) :
  bind c k = Ok b -> exists a, c = Ok a /\ k a = Ok b.
Proof. destruct c as [a|e]; simpl; [eauto | discriminate]. Qed.

(** The invariants speak of three fields only. *)
Lemma invariants_same (g g' : GameState) :
  phase g' = phase g -> winner g' = winner g ->
  rolesAssigned g' = rolesAssigned g ->
  invariants g -> invariants g'.
Proof.
  unfold invariants, rolesInvariant, winnerInvariant.
  intros -> -> ->. auto.
Qed.

(** A snapshot past the lobby and short of the end has roles and no winner. *)
Lemma invariants_playing (g : GameState) :
  invariants g -> phase g <> LOBBY -> phase g <> GAME_OVER ->
  rolesAssigned g = true /\ winner g = None.
Proof.
  intros [Hr [Hw _]] Hl Ho. split.
  - destruct (rolesAssigned g) eqn:E; [reflexivity|]. now specialize (Hr E).
  - destruct (winner g) as [w|]; [|reflexivity].
    exfalso. apply Ho, Hw. discriminate.
Qed.

Lemma invariants_intro_playing (g : GameState) :
  rolesAssigned g = true -> winner g = None -> phase g <> GAME_OVER ->
  invariants g.
Proof.
  intros Hr Hw Hp. repeat split.
  - intros H. congruence.
  - intros H. congruence.
  - intros H. congruence.
Qed.

Lemma invariants_intro_over (g : GameState) (w : Winner) :
  rolesAssigned g = true -> winner g = Some w -> phase g = GAME_OVER ->
  invariants g.
Proof.
  intros Hr Hw Hp. repeat split.
  - intros H. congruence.
  - auto.
  - intros _. congruence.
Qed.

Ltac phase_guard H :=
  apply bind_ok in H;
  let Hg := fresh "Hguard" in
  destruct H as ([] & Hg & H);
  apply ensurePhase_inv in Hg; simpl in Hg.

Lemma enterNight_inv g now :
  invariants g -> phase g <> GAME_OVER -> rolesAssigned g = true ->
  invariants (enterNight g now).
Proof.
  intros Hinv Hp Hra. apply invariants_intro_playing; simpl; auto.
  - destruct Hinv as [_ [Hw _]]. destruct (winner g); [|reflexivity].
    exfalso. apply Hp, Hw. discriminate.
  - discriminate.
Qed.

Lemma startNight_inv_assigned g now :
  invariants g -> (phase g = LOBBY -> rolesAssigned g = true) ->
  returning invariants (startNight g now).
Proof.
  intros Hinv Hlobby g' Hrun. unfold startNight in Hrun. phase_guard Hrun.
  injection Hrun as <-.
  apply enterNight_inv; auto.
  - intuition congruence.
  - destruct (rolesAssigned g) eqn:E; [reflexivity|].
    destruct Hinv as [Hr _]. specialize (Hr E). auto.
Qed.

Lemma addPlayerToLobby_inv g identity :
  invariants g -> returning invariants (addPlayerToLobby g identity).
Proof.
  intros Hinv g' Hrun. unfold addPlayerToLobby in Hrun. phase_guard Hrun.
  destruct (existsb _ _); [discriminate|]. injection Hrun as <-.
  now apply (invariants_same g).
Qed.

Lemma removePlayerFromLobby_inv g id :
  invariants g -> returning invariants (removePlayerFromLobby g id).
Proof.
  intros Hinv g' Hrun. unfold removePlayerFromLobby in Hrun. phase_guard Hrun.
  apply bind_ok in Hrun. destruct Hrun as (p & _ & Hrun).
  injection Hrun as <-. now apply (invariants_same g).
Qed.

Lemma assignRoles_inv g random :
  invariants g -> returning invariants (assignRoles g random).
Proof.
  intros Hinv g' Hrun. unfold assignRoles in Hrun. phase_guard Hrun.
  destruct (rolesAssigned g) eqn:E.
  - now injection Hrun as <-.
  - injection Hrun as <-. destruct Hinv as [Hr Hw]. split.
    + intros H. simpl in H. discriminate.
    + exact Hw.
Qed.

Lemma assignRoles_assigned g random g' :
  assignRoles g random = Ok g' ->
  rolesAssigned g' = true /\ phase g' = LOBBY.
Proof.
  intros Hrun. unfold assignRoles in Hrun. phase_guard Hrun.
  destruct Hguard as [Hp|[]].
  destruct (rolesAssigned g) eqn:E; injection Hrun as <-; simpl; auto.
Qed.

Lemma startGame_inv g now random :
  invariants g -> returning invariants (startGame g now random).
Proof.
  intros Hinv g' Hrun. unfold startGame in Hrun. phase_guard Hrun.
  destruct (_ <? _)%Z; [discriminate|].
  apply bind_ok in Hrun. destruct Hrun as (assigned & Hassign & Hrun).
  pose proof (assignRoles_inv g random Hinv _ Hassign) as Hinv'.
  apply assignRoles_assigned in Hassign. destruct Hassign as [Hra _].
  now apply (startNight_inv_assigned assigned now Hinv').
Qed.

Lemma recordNightVote_inv g traitorId targetId :
  invariants g -> returning invariants (recordNightVote g traitorId targetId).
Proof.
  intros Hinv g' Hrun. unfold recordNightVote in Hrun. phase_guard Hrun.
  apply bind_ok in Hrun. destruct Hrun as (traitor & _ & Hrun).
  destruct (negb _); [discriminate|].
  apply bind_ok in Hrun. destruct Hrun as (target & _ & Hrun).
  injection Hrun as <-. now apply (invariants_same g).
Qed.

Lemma resolveNight_inv g now random :
  invariants g -> returning invariants (resolveNight g now random).
Proof.
  intros Hinv g' Hrun. unfold resolveNight in Hrun. phase_guard Hrun.
  destruct Hguard as [Hp|[]].
  destruct (invariants_playing g Hinv) as [Hra Hw]; try congruence.
  apply bind_ok in Hrun. destruct Hrun as (outcome & _ & Hrun).
  match type of Hrun with
  | context [checkWin ?b] => destruct (checkWin b) as [w|]
  end; injection Hrun as <-.
  - now apply (invariants_intro_over _ w).
  - apply invariants_intro_playing; simpl; auto. discriminate.
Qed.

Lemma startTrial_inv g accused now :
  invariants g -> returning invariants (startTrial g accused now).
Proof.
  intros Hinv g' Hrun. unfold startTrial in Hrun. phase_guard Hrun.
  destruct Hguard as [Hp|[]].
  destruct (invariants_playing g Hinv) as [Hra Hw]; try congruence.
  apply bind_ok in Hrun. destruct Hrun as (p & _ & Hrun).
  injection Hrun as <-.
  apply invariants_intro_playing; simpl; auto. discriminate.
Qed.

Lemma recordNomination_inv g voterId targetId now :
  invariants g ->
  returning invariants (recordNomination g voterId targetId now).
Proof.
  intros Hinv g' Hrun. unfold recordNomination in Hrun. phase_guard Hrun.
  apply bind_ok in Hrun. destruct Hrun as (voter & _ & Hrun).
  apply bind_ok in Hrun. destruct Hrun as (target & _ & Hrun).
  simpl in Hrun.
  match type of Hrun with
  | (if ?c then _ else _) = _ => destruct c
  end.
  - eapply startTrial_inv; [|exact Hrun]. now apply (invariants_same g).
  - injection Hrun as <-. now apply (invariants_same g).
Qed.

Lemma startDayVerdict_inv g now :
  invariants g -> returning invariants (startDayVerdict g now).
Proof.
  intros Hinv g' Hrun. unfold startDayVerdict in Hrun. phase_guard Hrun.
  destruct Hguard as [Hp|[]].
  destruct (invariants_playing g Hinv) as [Hra Hw]; try congruence.
  destruct (negb _); [discriminate|]. injection Hrun as <-.
  apply invariants_intro_playing; simpl; auto. discriminate.
Qed.

Lemma recordVerdictVote_inv g voterId choice :
  invariants g -> returning invariants (recordVerdictVote g voterId choice).
Proof.
  intros Hinv g' Hrun. unfold recordVerdictVote in Hrun. phase_guard Hrun.
  apply bind_ok in Hrun. destruct Hrun as (voter & _ & Hrun).
  apply bind_ok in Hrun. destruct Hrun as (registered & _ & Hrun).
  destruct (negb registered); [discriminate|].
  destruct (negb _); [discriminate|].
  injection Hrun as <-. now apply (invariants_same g).
Qed.

Lemma verdictBase_inv g accused now :
  invariants g -> invariants (verdictBase g accused now).
Proof. intros Hinv. now apply (invariants_same g). Qed.

Lemma gameOver_inv b w : rolesAssigned b = true -> invariants (gameOver b w).
Proof. intros H. now apply (invariants_intro_over _ w). Qed.

Lemma resolveDayVerdict_inv g now :
  invariants g -> returning invariants (resolveDayVerdict g now).
Proof.
  intros Hinv g' Hrun. unfold resolveDayVerdict in Hrun. phase_guard Hrun.
  destruct Hguard as [Hp|[]].
  destruct (invariants_playing g Hinv) as [Hra Hw]; try congruence.
  destruct (accusedId g) as [accused|]; [|discriminate].
  destruct (negb _); [discriminate|].
  destruct (checkWin _) as [w|].
  - injection Hrun as <-. now apply gameOver_inv.
  - eapply startNight_inv_assigned; [| |exact Hrun].
    + now apply verdictBase_inv.
    + intros _. exact Hra.
Qed.

Lemma skipDayToNight_inv g now :
  invariants g -> returning invariants (skipDayToNight g now).
Proof.
  intros Hinv g' Hrun. unfold skipDayToNight in Hrun. phase_guard Hrun.
  destruct Hguard as [Hp|[]].
  destruct (invariants_playing g Hinv) as [Hra Hw]; try congruence.
  eapply startNight_inv_assigned; [| |exact Hrun].
  - now apply (invariants_same g).
  - intros _. exact Hra.
Qed.

Lemma setPlayerConnection_inv g id connected0 :
  invariants g -> invariants (setPlayerConnection g id connected0).
Proof.
  intros Hinv. unfold setPlayerConnection.
  destruct (getPlayer (players g) id); [|exact Hinv].
  now apply (invariants_same g).
Qed.

(** *** The revised copy *)

Lemma revised_startNight_inv g now :
  invariants g -> returning invariants (Revised.startNight g now).
Proof.
  intros Hinv g' Hrun. unfold Revised.startNight in Hrun. phase_guard Hrun.
  destruct (Phase_eqb (phase g) LOBBY && negb (rolesAssigned g)) eqn:E;
    [discriminate|].
  injection Hrun as <-.
  apply enterNight_inv; auto.
  - intuition congruence.
  - destruct (rolesAssigned g) eqn:Er; [reflexivity|].
    destruct Hinv as [Hr _]. specialize (Hr Er). rewrite Hr in E.
    discriminate E.
Qed.

Lemma revised_startGame_inv g now random :
  invariants g -> returning invariants (Revised.startGame g now random).
Proof.
  intros Hinv g' Hrun. unfold Revised.startGame in Hrun. phase_guard Hrun.
  destruct (_ <? _)%Z; [discriminate|].
  apply bind_ok in Hrun. destruct Hrun as (assigned & Hassign & Hrun).
  pose proof (assignRoles_inv g random Hinv _ Hassign) as Hinv'.
  now apply (revised_startNight_inv assigned now Hinv').
Qed.

Lemma revised_recordNightVote_inv g traitorId targetId :
  invariants g ->
  returning invariants (Revised.recordNightVote g traitorId targetId).
Proof.
  intros Hinv g' Hrun. unfold Revised.recordNightVote in Hrun.
  phase_guard Hrun.
  apply bind_ok in Hrun. destruct Hrun as (traitor & _ & Hrun).
  destruct (negb _); [discriminate|].
  destruct (negb _); [discriminate|].
  apply bind_ok in Hrun. destruct Hrun as (target & _ & Hrun).
  injection Hrun as <-. now apply (invariants_same g).
Qed.

Lemma revised_resolveDayVerdict_inv g now :
  invariants g -> returning invariants (Revised.resolveDayVerdict g now).
Proof.
  intros Hinv g' Hrun. unfold Revised.resolveDayVerdict in Hrun.
  phase_guard Hrun.
  destruct Hguard as [Hp|[]].
  destruct (invariants_playing g Hinv) as [Hra Hw]; try congruence.
  destruct (accusedId g) as [accused|]; [|discriminate].
  destruct (negb _); [discriminate|].
  destruct (checkWin _) as [w|].
  - injection Hrun as <-. now apply gameOver_inv.
  - eapply revised_startNight_inv; [|exact Hrun]. now apply verdictBase_inv.
Qed.

Lemma revised_skipDayToNight_inv g now :
  invariants g -> returning invariants (Revised.skipDayToNight g now).
Proof.
  intros Hinv g' Hrun. unfold Revised.skipDayToNight in Hrun.
  phase_guard Hrun.
  eapply revised_startNight_inv; [|exact Hrun].
  now apply (invariants_same g).
Qed.

(** Every transition of the revised copy keeps both invariants. *)
Theorem revised_transitions_preserve_invariants (g : GameState) :
  invariants g ->
  (forall identity, returning invariants (addPlayerToLobby g identity)) /\
  (forall id, returning invariants (removePlayerFromLobby g id)) /\
  (forall random, returning invariants (assignRoles g random)) /\
  (forall now random,
     returning invariants (Revised.startGame g now random)) /\
  (forall now, returning invariants (Revised.startNight g now)) /\
  (forall voter target,
     returning invariants (Revised.recordNightVote g voter target)) /\
  (forall now random, returning invariants (resolveNight g now random)) /\
  (forall voter target now,
     returning invariants (recordNomination g voter target now)) /\
  (forall accused now, returning invariants (startTrial g accused now)) /\
  (forall now, returning invariants (startDayVerdict g now)) /\
  (forall voter choice,
     returning invariants (recordVerdictVote g voter choice)) /\
  (forall now, returning invariants (Revised.resolveDayVerdict g now)) /\
  (forall now, returning invariants (Revised.skipDayToNight g now)) /\
  (forall id connected0, invariants (setPlayerConnection g id connected0)).
Proof.
  intros Hinv. repeat match goal with |- _ /\ _ => split end; intros.
  - now apply addPlayerToLobby_inv.
  - now apply removePlayerFromLobby_inv.
  - now apply assignRoles_inv.
  - now apply revised_startGame_inv.
  - now apply revised_startNight_inv.
  - now apply revised_recordNightVote_inv.
  - now apply resolveNight_inv.
  - now apply recordNomination_inv.
  - now apply startTrial_inv.
  - now apply startDayVerdict_inv.
  - now apply recordVerdictVote_inv.
  - now apply revised_resolveDayVerdict_inv.
  - now apply revised_skipDayToNight_inv.
  - now apply setPlayerConnection_inv.
Qed.

(** *** The first copy *)

(** Every transition of the first copy other than [startNight] keeps both
    invariants, and [startNight] does when it does not leave a lobby whose
    roles are unassigned. *)
Theorem transitions_preserve_invariants_once_assigned (g : GameState) :
  invariants g ->
  (forall identity, returning invariants (addPlayerToLobby g identity)) /\
  (forall id, returning invariants (removePlayerFromLobby g id)) /\
  (forall random, returning invariants (assignRoles g random)) /\
  (forall now random, returning invariants (startGame g now random)) /\
  ((phase g = LOBBY -> rolesAssigned g = true) ->
   forall now, returning invariants (startNight g now)) /\
  (forall voter target,
     returning invariants (recordNightVote g voter target)) /\
  (forall now random, returning invariants (resolveNight g now random)) /\
  (forall voter target now,
     returning invariants (recordNomination g voter target now)) /\
  (forall accused now, returning invariants (startTrial g accused now)) /\
  (forall now, returning invariants (startDayVerdict g now)) /\
  (forall voter choice,
     returning invariants (recordVerdictVote g voter choice)) /\
  (forall now, returning invariants (resolveDayVerdict g now)) /\
  (forall now, returning invariants (skipDayToNight g now)) /\
  (forall id connected0, invariants (setPlayerConnection g id connected0)).
Proof.
  intros Hinv. repeat match goal with |- _ /\ _ => split end; intros.
  - now apply addPlayerToLobby_inv.
  - now apply removePlayerFromLobby_inv.
  - now apply assignRoles_inv.
  - now apply startGame_inv.
  - now apply startNight_inv_assigned.
  - now apply recordNightVote_inv.
  - now apply resolveNight_inv.
  - now apply recordNomination_inv.
  - now apply startTrial_inv.
  - now apply startDayVerdict_inv.
  - now apply recordVerdictVote_inv.
  - now apply resolveDayVerdict_inv.
  - now apply skipDayToNight_inv.
  - now apply setPlayerConnection_inv.
Qed.

(** C1 on the first copy: the lobby a host has just created satisfies both
    invariants, [startNight] accepts it, and the snapshot it returns is in
    NIGHT with roles unassigned, which breaks the first invariant. *)
Theorem startNight_breaks_roles_invariant :
  invariants freshLobby /\
  exists g',
    startNight freshLobby 0 = Ok g' /\
    rolesAssigned g' = false /\ phase g' = NIGHT /\
    ~ rolesInvariant g' /\ ~ invariants g'.
Proof.
  split.
  - repeat split; simpl; congruence.
  - eexists. split; [reflexivity|]. simpl.
    split; [reflexivity|]. split; [reflexivity|].
    assert (Hn : ~ rolesInvariant (enterNight freshLobby 0)).
    { intros H. specialize (H eq_refl). discriminate H. }
    split; [exact Hn|]. intros [H _]. now apply Hn.
Qed.

(* ================================================================== *)
(** ** Guards of the night *)

(** The first copy of [startNight] accepts every lobby, roles assigned or
    not. *)
Lemma startNight_accepts_any_lobby (g : GameState) (now : Z) :
  phase g = LOBBY -> startNight g now = Ok (enterNight g now).
Proof.
  intros Hp. unfold startNight.
  now rewrite ensurePhase_ok by (rewrite Hp; simpl; auto).
Qed.

(** The revised copy rejects a lobby whose roles are unassigned with a typed
    rejection, and the snapshot is not advanced. *)
Lemma revised_startNight_rejects_unassigned_lobby (g : GameState) (now : Z) :
  phase g = LOBBY -> rolesAssigned g = false ->
  Revised.startNight g now
  = Throw (GameRuleError "ROLES_NOT_ASSIGNED"
             "Cannot start night before assigning roles").
Proof.
  intros Hp Hr. unfold Revised.startNight.
  rewrite ensurePhase_ok by (rewrite Hp; simpl; auto).
  simpl. now rewrite Hp, Hr.
Qed.

(** C2 on the first copy: the lobby a host has just created is in LOBBY with
    roles unassigned; [startNight] raises nothing and returns a snapshot in
    NIGHT (the test [prevents night from starting before roles are assigned]
    expects a rejection here). *)
Theorem startNight_opens_night_without_roles :
  phase freshLobby = LOBBY /\ rolesAssigned freshLobby = false /\
  errorCode (startNight freshLobby 0) = None /\
  exists g',
    startNight freshLobby 0 = Ok g' /\
    phase g' = NIGHT /\ rolesAssigned g' = false.
Proof.
  repeat split. eexists. split; [reflexivity|]. split; reflexivity.
Qed.

(** The first copy of [recordNightVote] never looks at the ballot map: a
    living traitor may vote for a living target whether scheduled or not. *)
Lemma recordNightVote_ignores_schedule (g : GameState)
  (voterId targetId : string) :
  phase g = NIGHT ->
  livingTraitor (players g) voterId = true ->
  seatedAlive (players g) targetId = true ->
  recordNightVote g voterId targetId
  = Ok (withNightVotes g (obj_set (nightVotes g) voterId (Some targetId))).
Proof.
  intros Hp Hv Ht. unfold livingTraitor, seatedAlive in Hv, Ht.
  destruct (getPlayer (players g) voterId) as [voter|] eqn:Ev;
    [|discriminate].
  destruct (getPlayer (players g) targetId) as [target|] eqn:Et;
    [|discriminate].
  apply Bool.andb_true_iff in Hv. destruct Hv as [Hva Hvr].
  unfold recordNightVote.
  rewrite ensurePhase_ok by (rewrite Hp; simpl; auto).
  rewrite (assertPlayer_alive_ok _ _ _ Ev Hva).
  rewrite (assertPlayer_alive_ok _ _ _ Et Ht).
  simpl. rewrite Hvr. simpl.
  now rewrite (getPlayer_id _ _ _ Ev), (getPlayer_id _ _ _ Et).
Qed.

(** The revised copy accepts a night vote exactly when the voter is a living
    traitor holding a ballot this night and the target is living; every
    other vote is a typed rejection, and nothing is recorded. *)
Lemma revised_recordNightVote_accepts_iff (g : GameState)
  (voterId targetId : string) :
  phase g = NIGHT ->
  (nightVoteAllowed g voterId targetId = true ->
   Revised.recordNightVote g voterId targetId
   = Ok (withNightVotes g (rec_set (nightVotes g) voterId (Some targetId))))
  /\
  (nightVoteAllowed g voterId targetId = false ->
   errorCode (Revised.recordNightVote g voterId targetId) <> None).
Proof.
  intros Hp. unfold nightVoteAllowed, livingTraitor, seatedAlive.
  unfold Revised.recordNightVote, assertPlayer, obj_set.
  rewrite ensurePhase_ok by (rewrite Hp; simpl; auto).
  simpl.
  destruct (getPlayer (players g) voterId) as [voter|] eqn:Ev; simpl.
  2:{ split; [discriminate|]. intros _. discriminate. }
  pose proof (getPlayer_id _ _ _ Ev) as Hvid.
  destruct (alive voter); simpl.
  2:{ split; [discriminate|]. intros _. discriminate. }
  destruct (Role_eqb (role voter) TRAITOR); simpl.
  2:{ split; [discriminate|]. intros _. discriminate. }
  rewrite Hvid.
  destruct (rec_has (nightVotes g) voterId); simpl.
  2:{ split; [discriminate|]. intros _. discriminate. }
  destruct (getPlayer (players g) targetId) as [target|] eqn:Et; simpl.
  2:{ split; [discriminate|]. intros _. discriminate. }
  pose proof (getPlayer_id _ _ _ Et) as Htid.
  destruct (alive target); simpl.
  - rewrite Htid. split; [reflexivity | discriminate].
  - split; [discriminate|]. intros _. discriminate.
Qed.

(** C7 on the first copy: a living traitor who holds no ballot this night
    votes for a living target; no rejection is raised and the vote is
    recorded (the test [rejects night votes from players not scheduled to
    vote] expects a rejection here). *)
Theorem recordNightVote_accepts_unscheduled_traitor :
  phase unscheduledNight = NIGHT /\
  rec_has (nightVotes unscheduledNight) "t1" = false /\
  nightVoteAllowed unscheduledNight "t1" "s1" = false /\
  recordNightVote unscheduledNight "t1" "s1"
  = Ok (withNightVotes unscheduledNight [("t1", Some "s1")]) /\
  errorCode (Revised.recordNightVote unscheduledNight "t1" "s1")
  = Some "NOT_A_NIGHT_VOTER".
Proof. repeat split. Qed.

(* ================================================================== *)
(** * Further properties of the engine and the server *)

(* ================================================================== *)
(** ** Shuffling and drawing *)

Lemma replace_nth_error {T : Type} (l : list T) (i j : nat) (b : T) :
  i < List.length l ->
  nth_error (firstn i l ++ b :: skipn (S i) l) j
  = if i =? j then Some b else nth_error l j.
Proof.
  revert i j. induction l as [|a l IH]; intros i j Hi; simpl in Hi; [lia|].
  destruct i as [|i], j as [|j]; simpl; try reflexivity.
  apply IH. lia.
Qed.

Lemma replace_Permutation {T : Type} (l : list T) (i : nat) (a b : T) :
  nth_error l i = Some a ->
  Permutation (a :: firstn i l ++ b :: skipn (S i) l) (b :: l).
Proof.
  revert i. induction l as [|c l IH]; intros i Hi.
  - destruct i; discriminate Hi.
  - destruct i as [|i]; simpl in *.
    + injection Hi as ->. apply perm_swap.
    + eapply perm_trans; [apply perm_swap|].
      eapply perm_trans; [apply perm_skip, IH, Hi|]. apply perm_swap.
Qed.

Lemma swap_Permutation {T : Type} (copy : list T) (i j : nat) :
  Permutation copy (swap copy i j).
Proof.
  unfold swap.
  destruct (nth_error copy i) as [x|] eqn:Ex; [|apply Permutation_refl].
  destruct (nth_error copy j) as [y|] eqn:Ey; [|apply Permutation_refl].
  set (copy1 := firstn i copy ++ y :: skipn (S i) copy).
  assert (Hi : i < List.length copy).
  { apply nth_error_Some. congruence. }
  assert (Hj1 : nth_error copy1 j = Some y).
  { unfold copy1. rewrite replace_nth_error by exact Hi.
    destruct (i =? j); [reflexivity | exact Ey]. }
  pose proof (replace_Permutation copy i x y Ex) as P1.
  pose proof (replace_Permutation copy1 j y x Hj1) as P2.
  fold copy1 in P1.
  apply Permutation_cons_inv with (a := y).
  eapply perm_trans; [apply Permutation_sym, P1|].
  apply Permutation_sym.
  eapply perm_trans; [exact P2|]. apply Permutation_refl.
Qed.

Lemma shuffle_from_Permutation {T : Type} (i k : nat) (random : RandomFn)
  (copy : list T) :
  Permutation copy (shuffle_from i k random copy).
Proof.
  revert k copy. induction i as [|i IH]; intros k copy; simpl.
  - apply Permutation_refl.
  - eapply perm_trans; [apply swap_Permutation | apply IH].
Qed.

(** X1. [shuffle] only rearranges: whatever the randomness source returns,
    the result holds the items of the input, each as often as the input
    does, and so has its length. *)
Theorem shuffle_Permutation {T : Type} (items : list T) (random : RandomFn) :
  Permutation items (shuffle items random) /\
  List.length (shuffle items random) = List.length items.
Proof.
  assert (H : Permutation items (shuffle items random))
    by apply shuffle_from_Permutation.
  split; [exact H|]. symmetry. now apply Permutation_length.
Qed.

(** X2. [randomItem] throws EMPTY_SELECTION on the empty list; on any other
    list it returns the item at index [Math.floor(random() * length)], the
    product being rounded as a double, and that item is an item of the
    list. *)
Theorem randomItem_member {T : Type} (items : list T) (random : RandomFn) :
  (items = [] ->
   randomItem items random
   = Throw (GameRuleError "EMPTY_SELECTION" "Cannot select from empty list"))
  /\
  (items <> [] ->
   exists x,
     randomItem items random = Ok x /\
     nth_error items (scaled (random 0) (List.length items)) = Some x /\
     In x items).
Proof.
  split.
  - intros ->. reflexivity.
  - intros Hne. destruct items as [|a rest]; [congruence|].
    set (l := a :: rest).
    assert (Hnth : nth_error l (scaled (random 0) (List.length l))
                   = Some (nth (scaled (random 0) (List.length l)) l a)).
    { apply nth_error_nth'. apply scaled_lt. simpl. lia. }
    eexists. split; [reflexivity|]. split; [exact Hnth|].
    eapply nth_error_In. exact Hnth.
Qed.

(** The draw 0.9 picks the second of two items; the draw
    0.3333333333333333, whose product with 3 rounds to 1, picks the second
    of three. *)
Lemma randomItem_member_witness :
  randomItem ["s1"; "s2"] nineTenths = Ok "s2" /\
  randomItem ["s1"; "s2"; "s3"] oneThird = Ok "s2".
Proof.
  split.
  - destruct (randomItem_member ["s1"; "s2"] nineTenths) as [_ H].
    destruct H as (x & Hx & Hn & _); [discriminate|].
    rewrite Hx. f_equal. vm_compute in Hn. congruence.
  - destruct (randomItem_member ["s1"; "s2"; "s3"] oneThird) as [_ H].
    destruct H as (x & Hx & Hn & _); [discriminate|].
    rewrite Hx. f_equal. vm_compute in Hn. congruence.
Defined.

(** X3. [majorityThreshold n] is the least strict majority of [n]: a count
    [k] reaches it exactly when [2 * k > n]. *)
Theorem majorityThreshold_least (n k : nat) :
  majorityThreshold n <= k <-> n < 2 * k.
Proof.
  unfold majorityThreshold.
  pose proof (Nat.div_mod_eq n 2) as Hd.
  pose proof (Nat.mod_upper_bound n 2) as Hm.
  lia.
Qed.

(* ================================================================== *)
(** ** The lobby *)

Lemma reassignHost_ids (ps : list Player) :
  map playerId (reassignHost ps) = map playerId ps /\
  map standing (reassignHost ps)
  = match ps with
    | [] => []
    | first :: rest =>
        (accountId first, playerId first, name first, role first, alive first,
         isHost first || negb (existsb (fun p => isHost p) ps))
        :: map standing rest
    end.
Proof.
  destruct ps as [|first rest]; [split; reflexivity|].
  unfold reassignHost.
  destruct (existsb (fun p => isHost p) (first :: rest)) eqn:E; simpl.
  - rewrite Bool.orb_false_r. split; reflexivity.
  - rewrite Bool.orb_true_r. split; reflexivity.
Qed.

Lemma reassignHost_facts (ps : list Player) :
  (ps <> [] -> existsb (fun p => isHost p) (reassignHost ps) = true) /\
  (existsb (fun p => isHost p) ps = true -> reassignHost ps = ps) /\
  reassignHost (reassignHost ps) = reassignHost ps /\
  map playerId (reassignHost ps) = map playerId ps /\
  List.length (reassignHost ps) = List.length ps.
Proof.
  assert (Hhost : ps <> [] ->
                  existsb (fun p => isHost p) (reassignHost ps) = true).
  { intros Hne. destruct ps as [|first rest]; [congruence|].
    unfold reassignHost.
    destruct (existsb (fun p => isHost p) (first :: rest)) eqn:E;
      [exact E | reflexivity]. }
  assert (Hkeep : forall qs, existsb (fun p => isHost p) qs = true ->
                             reassignHost qs = qs).
  { intros qs H. destruct qs as [|first rest]; [reflexivity|].
    unfold reassignHost. now rewrite H. }
  split; [exact Hhost|]. split; [apply Hkeep|]. split; [|split].
  - destruct ps as [|first rest]; [reflexivity|].
    apply Hkeep, Hhost. discriminate.
  - apply reassignHost_ids.
  - rewrite <- (length_map playerId), (proj1 (reassignHost_ids ps)).
    apply length_map.
Qed.

(** X4. [reassignHost] leaves a non-empty list with a host; a list that has
    a host is returned as it is, so that applying it twice is applying it
    once; the seats keep their ids, order and number. *)
Theorem reassignHost_ensures_host (ps : list Player) :
  (ps <> [] -> existsb (fun p => isHost p) (reassignHost ps) = true) /\
  (existsb (fun p => isHost p) ps = true -> reassignHost ps = ps) /\
  reassignHost (reassignHost ps) = reassignHost ps /\
  map playerId (reassignHost ps) = map playerId ps /\
  List.length (reassignHost ps) = List.length ps.
Proof. exact (reassignHost_facts ps). Qed.

Lemma reassignHost_ensures_host_witness :
  existsb (fun p => isHost p)
    (reassignHost [createPlayer "p2" SUBJECT true;
                   createPlayer "p3" SUBJECT true]) = true.
Proof.
  apply (reassignHost_ensures_host
           [createPlayer "p2" SUBJECT true; createPlayer "p3" SUBJECT true]).
  discriminate.
Defined.

Lemma withPlayers_same (g : GameState) : withPlayers g (players g) = g.
Proof. now destruct g. Qed.

Lemma addPlayerToLobby_cases (g : GameState)
  (identity : PlayerIdentity) :
  phase g = LOBBY ->
  (In (id_accountId identity) (map accountId (players g)) ->
   addPlayerToLobby g identity
   = Throw (GameRuleError "DUPLICATE_ACCOUNT" "Account already joined")) /\
  (~ In (id_accountId identity) (map accountId (players g)) ->
   addPlayerToLobby g identity
   = Ok (withPlayers g (players g ++ [toPlayer identity])) /\
   (NoDup (map accountId (players g)) ->
    NoDup (map accountId (players g ++ [toPlayer identity])))).
Proof.
  intros Hp. unfold addPlayerToLobby.
  rewrite ensurePhase_ok by (rewrite Hp; simpl; auto). simpl.
  destruct (existsb (fun p => String.eqb (accountId p) (id_accountId identity))
              (players g)) eqn:E.
  - split; [reflexivity|]. intros Hn. exfalso. apply Hn.
    apply existsb_exists in E. destruct E as (p & Hin & Heq).
    apply String.eqb_eq in Heq. rewrite <- Heq. now apply in_map.
  - split.
    + intros Hin. apply in_map_iff in Hin. destruct Hin as (p & Heq & Hin).
      assert (Ht : existsb
                     (fun p => String.eqb (accountId p) (id_accountId identity))
                     (players g) = true).
      { apply existsb_exists. exists p. split; [exact Hin|].
        now apply String.eqb_eq. }
      congruence.
    + intros Hn. split; [reflexivity|]. intros Hnd.
      rewrite map_app. simpl.
      apply NoDup_app; [exact Hnd | repeat constructor; intros [] |].
      intros a Ha [<-|[]]. now apply Hn.
Qed.

(** X5. In the lobby, [addPlayerToLobby] rejects an account that is already
    seated with DUPLICATE_ACCOUNT, and seats any other identity last, every
    earlier seat unchanged; accounts that were pairwise distinct stay so. *)
Theorem addPlayerToLobby_unique_accounts (g : GameState)
  (identity : PlayerIdentity) :
  phase g = LOBBY ->
  (In (id_accountId identity) (map accountId (players g)) ->
   addPlayerToLobby g identity
   = Throw (GameRuleError "DUPLICATE_ACCOUNT" "Account already joined")) /\
  (~ In (id_accountId identity) (map accountId (players g)) ->
   addPlayerToLobby g identity
   = Ok (withPlayers g (players g ++ [toPlayer identity])) /\
   (NoDup (map accountId (players g)) ->
    NoDup (map accountId (players g ++ [toPlayer identity])))).
Proof. exact (addPlayerToLobby_cases g identity). Qed.

Lemma addPlayerToLobby_unique_accounts_witness :
  errorCode
    (addPlayerToLobby freshLobby
       {| id_accountId := "host"; id_playerId := "x"; id_name := "Dup";
          id_isHost := None |})
  = Some "DUPLICATE_ACCOUNT".
Proof.
  destruct (addPlayerToLobby_unique_accounts freshLobby
              {| id_accountId := "host"; id_playerId := "x";
                 id_name := "Dup"; id_isHost := None |} eq_refl)
    as [Hdup _].
  rewrite Hdup; [reflexivity|]. simpl. now left.
Defined.

Lemma getPlayer_filter_out (ps : list Player) (id : string) :
  getPlayer (filter (fun p => negb (String.eqb (playerId p) id)) ps) id = None.
Proof.
  unfold getPlayer. induction ps as [|p ps IH]; simpl; [reflexivity|].
  destruct (String.eqb (playerId p) id) eqn:E; simpl; [exact IH|].
  now rewrite E.
Qed.

Lemma getPlayer_ids (ps qs : list Player) (id : string) :
  map playerId ps = map playerId qs ->
  (getPlayer ps id = None <-> getPlayer qs id = None).
Proof.
  unfold getPlayer. revert qs. induction ps as [|p ps IH]; intros [|q qs] H;
    simpl in *; try discriminate; [tauto|].
  injection H as Hpq Hrest. rewrite Hpq.
  destruct (String.eqb (playerId q) id); [split; discriminate|].
  now apply IH.
Qed.

Lemma filter_out_ids (ps : list Player) (id : string) :
  map playerId (filter (fun p => negb (String.eqb (playerId p) id)) ps)
  = filter (fun i => negb (String.eqb i id)) (map playerId ps).
Proof.
  induction ps as [|q qs IH]; simpl; [reflexivity|].
  destruct (String.eqb (playerId q) id); simpl; now rewrite ?IH.
Qed.

(** X6. In the lobby, [removePlayerFromLobby] rejects an id nobody is seated
    under with PLAYER_NOT_FOUND; otherwise no seat is left under that id,
    the other seats keep their order, a host is seated whenever a seat is
    left, and the room is still a lobby with its roles flag unchanged. *)
Theorem removePlayerFromLobby_unseats (g : GameState) (id : string) :
  phase g = LOBBY ->
  (getPlayer (players g) id = None ->
   errorCode (removePlayerFromLobby g id) = Some "PLAYER_NOT_FOUND") /\
  (getPlayer (players g) id <> None ->
   exists g',
     removePlayerFromLobby g id = Ok g' /\
     getPlayer (players g') id = None /\
     map playerId (players g')
     = filter (fun i => negb (String.eqb i id)) (map playerId (players g)) /\
     (players g' <> [] -> existsb (fun p => isHost p) (players g') = true) /\
     phase g' = LOBBY /\ rolesAssigned g' = rolesAssigned g).
Proof.
  intros Hp. unfold removePlayerFromLobby, assertPlayer.
  rewrite ensurePhase_ok by (rewrite Hp; simpl; auto). simpl.
  destruct (getPlayer (players g) id) as [p|] eqn:E; simpl.
  - split; [discriminate|]. intros _.
    set (remaining := filter (fun p => negb (String.eqb (playerId p) id))
                        (players g)).
    destruct (reassignHost_facts remaining)
      as (Hhost & _ & _ & Hids & Hlen).
    eexists. split; [reflexivity|]. simpl.
    split; [|split; [|split; [|split]]].
    + apply (getPlayer_ids _ remaining id Hids). apply getPlayer_filter_out.
    + rewrite Hids. apply filter_out_ids.
    + intros Hne. apply Hhost. intros Hnil. apply Hne.
      destruct (reassignHost remaining); [reflexivity|].
      rewrite Hnil in Hlen. discriminate Hlen.
    + exact Hp.
    + reflexivity.
  - split; [reflexivity|]. congruence.
Qed.

Lemma removePlayerFromLobby_unseats_witness :
  errorCode (removePlayerFromLobby freshLobby "nobody")
  = Some "PLAYER_NOT_FOUND".
Proof.
  apply (removePlayerFromLobby_unseats freshLobby "nobody" eq_refl).
  reflexivity.
Defined.

Lemma filter_out_absent (ps : list Player) (id : string) :
  getPlayer ps id = None ->
  filter (fun p => negb (String.eqb (playerId p) id)) ps = ps.
Proof.
  unfold getPlayer. induction ps as [|p ps IH]; simpl; [reflexivity|].
  destruct (String.eqb (playerId p) id); simpl; [discriminate|].
  intros H. now rewrite IH.
Qed.

Lemma getPlayer_app_absent (ps : list Player) (p : Player) :
  getPlayer ps (playerId p) = None ->
  getPlayer (ps ++ [p]) (playerId p) = Some p.
Proof.
  unfold getPlayer. induction ps as [|q qs IH]; simpl.
  - intros _. now rewrite String.eqb_refl.
  - destruct (String.eqb (playerId q) (playerId p)); [discriminate|]. exact IH.
Qed.

(** X7. A player who joins a lobby that has a host, under an unused account
    and an unused id, and then leaves, gives the lobby back as it was. *)
Theorem join_then_leave (g : GameState) (identity : PlayerIdentity) :
  phase g = LOBBY ->
  ~ In (id_accountId identity) (map accountId (players g)) ->
  getPlayer (players g) (id_playerId identity) = None ->
  existsb (fun p => isHost p) (players g) = true ->
  (joined <- addPlayerToLobby g identity ;;
   removePlayerFromLobby joined (id_playerId identity)) = Ok g.
Proof.
  intros Hp Hacc Hid Hhost.
  destruct (addPlayerToLobby_cases g identity Hp) as [_ Hjoin].
  destruct (Hjoin Hacc) as [-> _]. simpl.
  unfold removePlayerFromLobby, assertPlayer.
  rewrite ensurePhase_ok by (simpl; rewrite Hp; simpl; auto). simpl.
  assert (Hfound :
    getPlayer (players g ++ [toPlayer identity]) (id_playerId identity)
    = Some (toPlayer identity)).
  { apply getPlayer_app_absent. exact Hid. }
  rewrite Hfound. simpl.
  rewrite filter_app, (filter_out_absent _ _ Hid). simpl.
  rewrite String.eqb_refl. simpl. rewrite app_nil_r.
  destruct (reassignHost_facts (players g)) as (_ & Hkeep & _).
  rewrite (Hkeep Hhost). unfold withPlayers. simpl. now destruct g.
Qed.

Lemma join_then_leave_witness :
  (joined <- addPlayerToLobby freshLobby
               {| id_accountId := "a2"; id_playerId := "p2"; id_name := "P2";
                  id_isHost := None |} ;;
   removePlayerFromLobby joined "p2") = Ok freshLobby.
Proof.
  apply (join_then_leave freshLobby
           {| id_accountId := "a2"; id_playerId := "p2"; id_name := "P2";
              id_isHost := None |}).
  - reflexivity.
  - simpl. intros [H|[]]. discriminate H.
  - reflexivity.
  - reflexivity.
Defined.

(* ================================================================== *)
(** ** Dealing roles and opening the first night *)

Lemma countAlive_dealt (r : Role) (l : list Player) :
  countAlive
    (map (fun p =>
            {| accountId := accountId p; playerId := playerId p;
               name := name p; role := r; alive := true;
               connected := connected p; isHost := isHost p |}) l)
    (Some TRAITOR)
  = if Role_eqb r TRAITOR then List.length l else 0.
Proof.
  unfold countAlive. induction l as [|p l IH]; simpl.
  - now destruct (Role_eqb r TRAITOR).
  - destruct (Role_eqb r TRAITOR); simpl; simpl in IH; now rewrite IH.
Qed.

Lemma seat_dealt (r : Role) (l : list Player) :
  map seat
    (map (fun p =>
            {| accountId := accountId p; playerId := playerId p;
               name := name p; role := r; alive := true;
               connected := connected p; isHost := isHost p |}) l)
  = map seat l.
Proof. rewrite map_map. now apply map_ext. Qed.

Lemma countAlive_app (ps qs : list Player) (r : option Role) :
  countAlive (ps ++ qs) r = countAlive ps r + countAlive qs r.
Proof. unfold countAlive. now rewrite filter_app, length_app. Qed.

Lemma assignRoles_cases (g : GameState) (random : RandomFn) :
  phase g = LOBBY ->
  (rolesAssigned g = true -> assignRoles g random = Ok g) /\
  (rolesAssigned g = false ->
   exists g',
     assignRoles g random = Ok g' /\
     rolesAssigned g' = true /\ phase g' = LOBBY /\
     Permutation (map seat (players g)) (map seat (players g')) /\
     Forall (fun p => alive p = true) (players g') /\
     countAlive (players g') (Some TRAITOR)
     = Nat.min (Nat.max 1 (List.length (players g) / 4))
         (List.length (players g)) /\
     countAlive (players g') None = List.length (players g)).
Proof.
  intros Hp. unfold assignRoles.
  rewrite ensurePhase_ok by (rewrite Hp; simpl; auto). cbn [bind].
  split; intros Hr; rewrite Hr; [reflexivity|].
  assert (Hperm : Permutation (players g) (shuffle (players g) random))
    by apply shuffle_from_Permutation.
  assert (Hlen : List.length (shuffle (players g) random)
                 = List.length (players g))
    by (symmetry; now apply Permutation_length).
  set (sh := shuffle (players g) random) in *.
  set (tc := Nat.max 1 (List.length sh / 4)).
  eexists. split; [reflexivity|]. cbn [players rolesAssigned phase].
  split; [reflexivity|]. split; [exact Hp|].
  split; [|split; [|split]].
  - rewrite map_app, !seat_dealt, <- map_app, firstn_skipn.
    now apply Permutation_map.
  - apply Forall_app. split; apply Forall_forall; intros p Hin;
      apply in_map_iff in Hin; destruct Hin as (q & <- & _); reflexivity.
  - rewrite countAlive_app, !countAlive_dealt. cbn [Role_eqb].
    rewrite length_firstn. unfold tc. rewrite Hlen. lia.
  - rewrite countAlive_split, !countAlive_app.
    assert (Hs : forall r l,
               countAlive
                 (map (fun p =>
                         {| accountId := accountId p; playerId := playerId p;
                            name := name p; role := r; alive := true;
                            connected := connected p; isHost := isHost p |}) l)
                 (Some SUBJECT)
               = if Role_eqb r SUBJECT then List.length l else 0).
    { intros r l. unfold countAlive. induction l as [|p l IH]; simpl.
      - now destruct (Role_eqb r SUBJECT).
      - destruct (Role_eqb r SUBJECT); simpl; simpl in IH; now rewrite IH. }
    rewrite !Hs, !countAlive_dealt. cbn [Role_eqb].
    rewrite <- Hlen. rewrite <- (firstn_skipn tc sh) at 3.
    rewrite length_app. lia.
Qed.

(** X8. In the lobby, [assignRoles] does nothing once roles are assigned;
    otherwise it returns a lobby with roles assigned in which the seats are
    those of the input up to order (roles and alive flags apart), everybody
    is alive, and the traitors number max(1, floor(n / 4)) capped at the
    number [n] of players, whatever the randomness source returns. *)
Theorem assignRoles_deals (g : GameState) (random : RandomFn) :
  phase g = LOBBY ->
  (rolesAssigned g = true -> assignRoles g random = Ok g) /\
  (rolesAssigned g = false ->
   exists g',
     assignRoles g random = Ok g' /\
     rolesAssigned g' = true /\ phase g' = LOBBY /\
     Permutation (map seat (players g)) (map seat (players g')) /\
     Forall (fun p => alive p = true) (players g') /\
     countAlive (players g') (Some TRAITOR)
     = Nat.min (Nat.max 1 (List.length (players g) / 4))
         (List.length (players g)) /\
     countAlive (players g') None = List.length (players g)).
Proof. exact (assignRoles_cases g random). Qed.

Lemma assignRoles_deals_witness :
  exists g',
    assignRoles threeLobby oneTenth = Ok g' /\
    countAlive (players g') (Some TRAITOR) = 1 /\
    countAlive (players g') None = 3.
Proof.
  destruct (assignRoles_deals threeLobby oneTenth eq_refl) as [_ H].
  destruct (H eq_refl) as (g' & Hrun & _ & _ & _ & _ & Ht & Ha).
  exists g'. split; [exact Hrun|]. split; [exact Ht | exact Ha].
Defined.

(* ================================================================== *)
(** ** Ballot maps rebuilt at phase entry *)

Section FromEntries.
Variable V : Type.
Implicit Types (r acc : list (string * V)) (k : string) (v : V).

Lemma fromEntries_from_NoDup (entries : list (string * V)) acc :
  NoDup (rec_keys acc) ->
  NoDup
    (rec_keys (fold_left (fun a e => obj_set a (fst e) (snd e)) entries acc)).
Proof.
  revert acc. induction entries as [|e entries IH]; simpl; intros acc H.
  - exact H.
  - apply IH. now apply rec_keys_obj_set_NoDup.
Qed.

Lemma fromEntries_from_keys (entries : list (string * V)) acc k :
  In k
    (rec_keys (fold_left (fun a e => obj_set a (fst e) (snd e)) entries acc))
  <-> In k (rec_keys acc) \/ In k (map fst entries).
Proof.
  revert acc. induction entries as [|e entries IH]; simpl; intros acc.
  - tauto.
  - rewrite IH, rec_keys_obj_set. intuition.
Qed.

Lemma fromEntries_from_values (entries : list (string * V)) acc k v :
  In (k, v) (fold_left (fun a e => obj_set a (fst e) (snd e)) entries acc) ->
  In (k, v) acc \/ In v (map snd entries).
Proof.
  revert acc. induction entries as [|e entries IH]; simpl; intros acc H.
  - now left.
  - destruct (IH _ H) as [H'|H']; [|right; now right].
    apply obj_set_In_inv in H'. destruct H' as [[_ ->]|H']; [|now left].
    right. now left.
Qed.

(** [Object.fromEntries]: one entry per distinct key of the list. *)
Lemma obj_fromEntries_keys (entries : list (string * V)) :
  NoDup (rec_keys (obj_fromEntries entries)) /\
  (forall k, In k (rec_keys (obj_fromEntries entries))
             <-> In k (map fst entries)) /\
  (forall k v, In (k, v) (obj_fromEntries entries) -> In v (map snd entries)).
Proof.
  unfold obj_fromEntries. split; [|split].
  - apply fromEntries_from_NoDup. constructor.
  - intros k. rewrite fromEntries_from_keys. simpl. tauto.
  - intros k v H. apply fromEntries_from_values in H.
    destruct H as [[]|H]. exact H.
Qed.
End FromEntries.

Lemma livingTraitorId_filter (ps : list Player) (id : string) :
  In id
    (map playerId
       (filter (fun p => Role_eqb (role p) TRAITOR) (livingPlayers ps)))
  <-> livingTraitorId ps id.
Proof.
  unfold livingTraitorId, livingPlayers. rewrite in_map_iff. split.
  - intros (p & Hid & Hin). apply filter_In in Hin. destruct Hin as [Hin Hr].
    apply filter_In in Hin. destruct Hin as [Hin Ha].
    apply Role_eqb_eq in Hr. now exists p.
  - intros (p & Hin & Ha & Hr & Hid). exists p. split; [exact Hid|].
    apply filter_In. split; [|now apply Role_eqb_eq].
    apply filter_In. now split.
Qed.

Lemma isLiving_filter (ps : list Player) (id : string) :
  In id (map playerId (livingPlayers ps)) <-> isLiving ps id = true.
Proof.
  unfold isLiving, livingPlayers. rewrite in_map_iff, existsb_exists. split.
  - intros (p & Hid & Hin). apply filter_In in Hin. destruct Hin as [Hin Ha].
    exists p. split; [exact Hin|]. rewrite Ha. now apply String.eqb_eq.
  - intros (p & Hin & H). apply Bool.andb_true_iff in H. destruct H as [Ha He].
    apply String.eqb_eq in He. exists p. split; [exact He|].
    apply filter_In. now split.
Qed.

Lemma nightBallots_exact (ps : list Player) :
  NoDup (rec_keys (nightBallots ps)) /\
  (forall id, In id (rec_keys (nightBallots ps)) <-> livingTraitorId ps id) /\
  (forall id v, In (id, v) (nightBallots ps) -> v = None).
Proof.
  unfold nightBallots.
  destruct (obj_fromEntries_keys _
              (map (fun t => (playerId t, @None string))
                 (filter (fun p => Role_eqb (role p) TRAITOR)
                    (livingPlayers ps)))) as (Hnd & Hkeys & Hvals).
  split; [exact Hnd|]. split.
  - intros id. rewrite Hkeys, map_map. simpl. apply livingTraitorId_filter.
  - intros id v H. apply Hvals in H. rewrite map_map in H. simpl in H.
    apply in_map_iff in H. now destruct H as (_ & <- & _).
Qed.

Lemma startNight_cases (g : GameState) (now : Z) :
  (In (phase g) [NIGHT; TRIAL; GAME_OVER] ->
   errorCode (startNight g now) = Some "INVALID_PHASE") /\
  (forall g',
     startNight g now = Ok g' ->
     phase g' = NIGHT /\ players g' = players g /\
     NoDup (rec_keys (nightVotes g')) /\
     (forall id,
        In id (rec_keys (nightVotes g')) <-> livingTraitorId (players g) id) /\
     (forall id v, In (id, v) (nightVotes g') -> v = None) /\
     accusedId g' = None /\ dayNominations g' = [] /\ verdictVotes g' = [] /\
     phaseEndsAt g' = (now + night (durations (options g)))%Z /\
     nightNumber g'
     = (if Phase_eqb (phase g) LOBBY then nightNumber g
        else nightNumber g + 1)%Z /\
     dayNumber g' = dayNumber g /\ lastKilledId g' = lastKilledId g).
Proof.
  split.
  - intros Hin. unfold startNight.
    rewrite ensurePhase_throw; [reflexivity|].
    simpl in *. intuition congruence.
  - intros g' Hrun. unfold startNight in Hrun.
    apply bind_ok in Hrun. destruct Hrun as ([] & _ & Hrun).
    injection Hrun as <-.
    destruct (nightBallots_exact (players g)) as (Hnd & Hkeys & Hvals).
    simpl. repeat split; auto; apply Hkeys.
Qed.

(** X9. [startNight] is rejected with INVALID_PHASE in NIGHT, TRIAL and
    GAME_OVER; when it returns, the room is in NIGHT with the players
    untouched, the night-vote map holds exactly one empty ballot per living
    traitor, the accusation, nominations and verdict ballots are cleared,
    the deadline is [now] plus the night duration, and the night counter
    goes up by one unless the night is the one that opens the game. *)
Theorem startNight_fresh_ballots (g : GameState) (now : Z) :
  (In (phase g) [NIGHT; TRIAL; GAME_OVER] ->
   errorCode (startNight g now) = Some "INVALID_PHASE") /\
  (forall g',
     startNight g now = Ok g' ->
     phase g' = NIGHT /\ players g' = players g /\
     NoDup (rec_keys (nightVotes g')) /\
     (forall id,
        In id (rec_keys (nightVotes g')) <-> livingTraitorId (players g) id) /\
     (forall id v, In (id, v) (nightVotes g') -> v = None) /\
     accusedId g' = None /\ dayNominations g' = [] /\ verdictVotes g' = [] /\
     phaseEndsAt g' = (now + night (durations (options g)))%Z /\
     nightNumber g'
     = (if Phase_eqb (phase g) LOBBY then nightNumber g
        else nightNumber g + 1)%Z /\
     dayNumber g' = dayNumber g /\ lastKilledId g' = lastKilledId g).
Proof. exact (startNight_cases g now). Qed.

Lemma startNight_fresh_ballots_witness :
  exists g',
    startNight tiedVerdict 7 = Ok g' /\
    phase g' = NIGHT /\ nightVotes g' = [] /\ nightNumber g' = 2%Z.
Proof.
  eexists. split; [reflexivity|].
  destruct (startNight_fresh_ballots tiedVerdict 7) as [_ H].
  destruct (H _ eq_refl) as (Hp & _ & _ & _ & _ & _ & _ & _ & _ & Hn & _).
  split; [exact Hp|]. split; [reflexivity | exact Hn].
Defined.

Lemma startDayVerdict_cases (g : GameState) (now : Z) :
  phase g = TRIAL ->
  (truthyOpt (accusedId g) = false ->
   errorCode (startDayVerdict g now) = Some "NO_ACCUSED") /\
  (truthyOpt (accusedId g) = true ->
   exists g',
     startDayVerdict g now = Ok g' /\
     phase g' = DAY_VERDICT /\ players g' = players g /\
     accusedId g' = accusedId g /\
     NoDup (rec_keys (verdictVotes g')) /\
     (forall id,
        In id (rec_keys (verdictVotes g')) <-> isLiving (players g) id = true)
     /\
     (forall id v, In (id, v) (verdictVotes g') -> v = None) /\
     phaseEndsAt g' = (now + dayVerdict (durations (options g)))%Z).
Proof.
  intros Hp. unfold startDayVerdict.
  rewrite ensurePhase_ok by (rewrite Hp; simpl; auto). cbn [bind].
  split; intros Ht; rewrite Ht; cbn [negb]; [reflexivity|].
  destruct (obj_fromEntries_keys _
              (map (fun p => (playerId p, @None VerdictChoice))
                 (livingPlayers (players g)))) as (Hnd & Hkeys & Hvals).
  eexists. split; [reflexivity|]. cbn [phase players accusedId verdictVotes
                                       phaseEndsAt].
  repeat split; auto.
  - intros H. apply Hkeys in H. rewrite map_map in H. simpl in H.
    now apply isLiving_filter.
  - intros H. apply Hkeys. rewrite map_map. simpl. now apply isLiving_filter.
  - intros id v H. apply Hvals in H. rewrite map_map in H. simpl in H.
    apply in_map_iff in H. now destruct H as (_ & <- & _).
Qed.

(** X10. In TRIAL, [startDayVerdict] is rejected with NO_ACCUSED when the
    accusation is null or the empty id; otherwise the room enters
    DAY_VERDICT with players and accusation untouched, exactly one empty
    ballot per living player, and the verdict deadline. *)
Theorem startDayVerdict_fresh_ballots (g : GameState) (now : Z) :
  phase g = TRIAL ->
  (truthyOpt (accusedId g) = false ->
   errorCode (startDayVerdict g now) = Some "NO_ACCUSED") /\
  (truthyOpt (accusedId g) = true ->
   exists g',
     startDayVerdict g now = Ok g' /\
     phase g' = DAY_VERDICT /\ players g' = players g /\
     accusedId g' = accusedId g /\
     NoDup (rec_keys (verdictVotes g')) /\
     (forall id,
        In id (rec_keys (verdictVotes g')) <-> isLiving (players g) id = true)
     /\
     (forall id v, In (id, v) (verdictVotes g') -> v = None) /\
     phaseEndsAt g' = (now + dayVerdict (durations (options g)))%Z).
Proof. exact (startDayVerdict_cases g now). Qed.

Lemma startDayVerdict_fresh_ballots_witness :
  errorCode
    (startDayVerdict
       (makeState [createPlayer "p1" SUBJECT true] TRIAL None [] [] []) 0)
  = Some "NO_ACCUSED".
Proof.
  apply (startDayVerdict_fresh_ballots
           (makeState [createPlayer "p1" SUBJECT true] TRIAL None [] [] []) 0
           eq_refl).
  reflexivity.
Defined.

(* ================================================================== *)
(** ** Starting the game *)

Lemma assignRoles_frame (g : GameState) (random : RandomFn) (g' : GameState) :
  assignRoles g random = Ok g' ->
  phase g = LOBBY /\ phase g' = LOBBY /\ rolesAssigned g' = true /\
  options g' = options g /\ nightNumber g' = nightNumber g /\
  (rolesAssigned g = true -> g' = g).
Proof.
  intros Hrun. unfold assignRoles in Hrun. phase_guard Hrun.
  destruct Hguard as [Hp|[]].
  destruct (rolesAssigned g) eqn:E; injection Hrun as <-; simpl;
    repeat split; congruence.
Qed.

(** X11. In the lobby, [startGame] is rejected with NOT_ENOUGH_PLAYERS below
    the configured minimum; otherwise it opens the first night: phase
    NIGHT, roles assigned, night counter unchanged, the same seats up to
    order, one ballot per living traitor, and, when roles were not yet
    assigned, everybody alive and max(1, floor(n / 4)) traitors capped at
    the number of players. *)
Theorem startGame_opens_first_night (g : GameState) (now : Z)
  (random : RandomFn) :
  phase g = LOBBY ->
  ((Z.of_nat (List.length (players g)) < minPlayers (options g))%Z ->
   errorCode (startGame g now random) = Some "NOT_ENOUGH_PLAYERS") /\
  ((minPlayers (options g) <= Z.of_nat (List.length (players g)))%Z ->
   exists g',
     startGame g now random = Ok g' /\
     phase g' = NIGHT /\ rolesAssigned g' = true /\
     nightNumber g' = nightNumber g /\
     phaseEndsAt g' = (now + night (durations (options g)))%Z /\
     Permutation (map seat (players g)) (map seat (players g')) /\
     NoDup (rec_keys (nightVotes g')) /\
     (forall id,
        In id (rec_keys (nightVotes g')) <-> livingTraitorId (players g') id)
     /\
     (rolesAssigned g = false ->
      Forall (fun p => alive p = true) (players g') /\
      countAlive (players g') (Some TRAITOR)
      = Nat.min (Nat.max 1 (List.length (players g) / 4))
          (List.length (players g)))).
Proof.
  intros Hp. unfold startGame.
  rewrite ensurePhase_ok by (rewrite Hp; simpl; auto). cbn [bind].
  split; intros Hn.
  - apply Z.ltb_lt in Hn. now rewrite Hn.
  - apply Z.ltb_ge in Hn. rewrite Hn.
    destruct (assignRoles_cases g random Hp) as [Hsame Hdeal].
    assert (Hassign : exists a,
               assignRoles g random = Ok a /\
               Permutation (map seat (players g)) (map seat (players a)) /\
               (rolesAssigned g = false ->
                Forall (fun p => alive p = true) (players a) /\
                countAlive (players a) (Some TRAITOR)
                = Nat.min (Nat.max 1 (List.length (players g) / 4))
                    (List.length (players g)))).
    { destruct (rolesAssigned g) eqn:Er.
      - exists g. split; [now apply Hsame|]. split; [apply Permutation_refl|].
        discriminate.
      - destruct (Hdeal eq_refl) as (a & Ha & _ & _ & Hperm & Hall & Hc & _).
        exists a. split; [exact Ha|]. split; [exact Hperm|]. now split. }
    destruct Hassign as (a & Ha & Hperm & Hfresh).
    rewrite Ha. cbn [bind].
    destruct (assignRoles_frame g random a Ha)
      as (_ & Hpa & Hra & Hopt & Hnn & _).
    rewrite (startNight_accepts_any_lobby a now Hpa).
    destruct (startNight_cases a now) as [_ Hnight].
    destruct (Hnight _ (startNight_accepts_any_lobby a now Hpa))
      as (Hph & Hps & Hnd & Hkeys & _ & _ & _ & _ & Hend & Hnum & _).
    exists (enterNight a now). split; [reflexivity|].
    split; [exact Hph|]. split; [exact Hra|].
    split; [rewrite Hnum, Hpa; simpl; exact Hnn|].
    split; [rewrite Hend, Hopt; reflexivity|].
    rewrite Hps. split; [exact Hperm|]. split; [exact Hnd|].
    split; [exact Hkeys | exact Hfresh].
Qed.

Lemma startGame_opens_first_night_witness :
  errorCode (startGame freshLobby 0 zero) = Some "NOT_ENOUGH_PLAYERS" /\
  exists g',
    startGame threeLobby 0 oneTenth = Ok g' /\
    phase g' = NIGHT /\
    countAlive (players g') (Some TRAITOR) = 1.
Proof.
  split.
  - apply (startGame_opens_first_night freshLobby 0 zero eq_refl).
    vm_compute. reflexivity.
  - destruct (startGame_opens_first_night threeLobby 0 oneTenth eq_refl)
      as [_ H].
    destruct H as (g' & Hrun & Hp & _ & _ & _ & _ & _ & _ & Hfresh).
    { vm_compute. discriminate. }
    exists g'. split; [exact Hrun|]. split; [exact Hp|].
    now destruct (Hfresh eq_refl).
Defined.

(* ================================================================== *)
(** ** Casting ballots *)

Section SetFacts.
Variable V : Type.
Implicit Types (r : list (string * V)) (k : string) (v : V).

Lemma rec_set_set r k v1 v2 : rec_set (rec_set r k v1) k v2 = rec_set r k v2.
Proof.
  induction r as [|[k0 v0] r IH]; simpl.
  - now rewrite String.eqb_refl.
  - destruct (String.eqb k0 k) eqn:E; simpl; rewrite E; [reflexivity|].
    now rewrite IH.
Qed.

Lemma rec_has_set r k v k' :
  rec_has (rec_set r k v) k' = String.eqb k k' || rec_has r k'.
Proof.
  induction r as [|[k0 v0] r IH]; simpl.
  - now destruct (String.eqb k k').
  - destruct (String.eqb k0 k) eqn:E; simpl.
    + apply String.eqb_eq in E. subst k0.
      destruct (String.eqb k k'); reflexivity.
    + rewrite IH. destruct (String.eqb k0 k'), (String.eqb k k'); reflexivity.
Qed.

End SetFacts.

(** X12. A verdict vote of a living voter in DAY_VERDICT: rejected with
    NOT_A_VOTER when the voter holds no ballot; otherwise the voter's ballot
    holds the choice, every other ballot and the set and order of ballot
    holders are unchanged, as are players, phase and accusation, and a second
    vote of the same voter replaces the first.  When some ballot is held
    under the id [hasOwnProperty] the membership test is a call of a value
    that is no function, and the vote throws a TypeError instead. *)
Theorem recordVerdictVote_records (g : GameState) (voterId : string)
  (choice : VerdictChoice) :
  phase g = DAY_VERDICT ->
  seatedAlive (players g) voterId = true ->
  (rec_has (verdictVotes g) "hasOwnProperty" = true ->
   exists msg, recordVerdictVote g voterId choice = Throw (TypeError msg)) /\
  (rec_has (verdictVotes g) "hasOwnProperty" = false ->
   rec_has (verdictVotes g) voterId = false ->
   errorCode (recordVerdictVote g voterId choice) = Some "NOT_A_VOTER") /\
  (rec_has (verdictVotes g) "hasOwnProperty" = false ->
   rec_has (verdictVotes g) voterId = true ->
   exists g',
     recordVerdictVote g voterId choice = Ok g' /\
     rec_get (verdictVotes g') voterId = Some (Some choice) /\
     (forall other,
        other <> voterId ->
        rec_get (verdictVotes g') other = rec_get (verdictVotes g) other) /\
     rec_keys (verdictVotes g') = rec_keys (verdictVotes g) /\
     players g' = players g /\ phase g' = DAY_VERDICT /\
     accusedId g' = accusedId g /\
     forall choice2,
       recordVerdictVote g' voterId choice2
       = recordVerdictVote g voterId choice2).
Proof.
  intros Hp Hv. unfold seatedAlive in Hv.
  destruct (getPlayer (players g) voterId) as [voter|] eqn:Ev;
    [|discriminate].
  pose proof (getPlayer_id _ _ _ Ev) as Hid.
  assert (Hrun : forall c,
    recordVerdictVote g voterId c
    = (registered <- hasOwnProperty (verdictVotes g) voterId ;;
       if negb registered then
         Throw (GameRuleError "NOT_A_VOTER"
                  "Player cannot vote in this verdict")
       else
         Ok (withVerdictVotes g
               (obj_set (verdictVotes g) voterId (Some c))))).
  { intros c. unfold recordVerdictVote.
    rewrite ensurePhase_ok by (rewrite Hp; simpl; auto).
    rewrite (assertPlayer_alive_ok _ _ _ Ev Hv). cbn [bind]. rewrite Hid.
    destruct (hasOwnProperty (verdictVotes g) voterId) as [b|e];
      [|reflexivity].
    cbn [bind]. destruct (negb b); [reflexivity|]. now destruct c. }
  split; [|split].
  - intros Hown. rewrite Hrun. unfold hasOwnProperty. rewrite Hown.
    eexists. reflexivity.
  - intros Hown Hreg. rewrite Hrun. unfold hasOwnProperty.
    now rewrite Hown, Hreg.
  - intros Hown Hreg. rewrite Hrun. unfold hasOwnProperty.
    rewrite Hown, Hreg. cbn [bind negb].
    rewrite (obj_set_present _ _ _ (Some choice) Hreg).
    eexists. split; [reflexivity|].
    cbn [verdictVotes withVerdictVotes players phase accusedId].
    split; [apply rec_get_set_same|].
    split; [intros other Hne; now apply rec_get_set_other|].
    split; [now apply rec_keys_set_present|].
    split; [reflexivity|]. split; [exact Hp|]. split; [reflexivity|].
    intros choice2.
    set (g1 := withVerdictVotes g
                 (rec_set (verdictVotes g) voterId (Some choice))).
    rewrite Hrun.
    unfold recordVerdictVote.
    rewrite ensurePhase_ok by (simpl; rewrite Hp; simpl; auto).
    assert (Ev1 : getPlayer (players g1) voterId = Some voter) by exact Ev.
    rewrite (assertPlayer_alive_ok _ _ _ Ev1 Hv). cbn [bind]. rewrite Hid.
    unfold hasOwnProperty. cbn [verdictVotes g1 withVerdictVotes].
    rewrite !rec_has_set, Hown, Hreg, String.eqb_refl.
    replace (String.eqb voterId "hasOwnProperty") with false.
    2:{ symmetry. apply String.eqb_neq. intros ->. congruence. }
    cbn [orb bind negb].
    rewrite (obj_set_present _ _ _ (Some choice2) Hreg).
    rewrite obj_set_present
      by (now rewrite rec_has_set, String.eqb_refl).
    rewrite rec_set_set.
    now destruct choice2.
Qed.

Lemma recordVerdictVote_records_witness :
  exists g',
    recordVerdictVote tiedVerdict "p3" HANG = Ok g' /\
    rec_get (verdictVotes g') "p3" = Some (Some HANG) /\
    rec_keys (verdictVotes g') = ["p1"; "p2"; "p3"].
Proof.
  destruct (recordVerdictVote_records tiedVerdict "p3" HANG eq_refl eq_refl)
    as (_ & _ & H).
  destruct (H eq_refl eq_refl) as (g' & Hrun & Hget & _ & Hkeys & _).
  exists g'. split; [exact Hrun|]. split; [exact Hget|].
  rewrite Hkeys. reflexivity.
Defined.

(** X13. The rejections of [recordNightVote], in the order they are tested:
    INVALID_PHASE outside NIGHT; PLAYER_NOT_FOUND and PLAYER_DEAD for the
    voter; NOT_A_TRAITOR for a living subject; PLAYER_NOT_FOUND and
    PLAYER_DEAD for the target of a living traitor. *)
Theorem recordNightVote_rejections (g : GameState)
  (voterId targetId : string) :
  (phase g <> NIGHT ->
   errorCode (recordNightVote g voterId targetId) = Some "INVALID_PHASE") /\
  (phase g = NIGHT ->
   (getPlayer (players g) voterId = None ->
    errorCode (recordNightVote g voterId targetId) = Some "PLAYER_NOT_FOUND")
   /\
   (forall voter,
      getPlayer (players g) voterId = Some voter -> alive voter = false ->
      errorCode (recordNightVote g voterId targetId) = Some "PLAYER_DEAD") /\
   (forall voter,
      getPlayer (players g) voterId = Some voter -> alive voter = true ->
      role voter = SUBJECT ->
      errorCode (recordNightVote g voterId targetId) = Some "NOT_A_TRAITOR")
   /\
   (livingTraitor (players g) voterId = true ->
    getPlayer (players g) targetId = None ->
    errorCode (recordNightVote g voterId targetId) = Some "PLAYER_NOT_FOUND")
   /\
   (livingTraitor (players g) voterId = true ->
    forall target,
      getPlayer (players g) targetId = Some target -> alive target = false ->
      errorCode (recordNightVote g voterId targetId) = Some "PLAYER_DEAD")).
Proof.
  split.
  - intros Hp. unfold recordNightVote.
    rewrite ensurePhase_throw; [reflexivity|].
    simpl. intuition congruence.
  - intros Hp. unfold recordNightVote, assertPlayer, livingTraitor.
    rewrite ensurePhase_ok by (rewrite Hp; simpl; auto). cbn [bind].
    repeat match goal with |- _ /\ _ => split end.
    + intros ->. reflexivity.
    + intros voter -> ->. reflexivity.
    + intros voter -> -> Hr. cbn [bind andb negb]. now rewrite Hr.
    + destruct (getPlayer (players g) voterId) as [voter|]; [|discriminate].
      intros H ->. apply Bool.andb_true_iff in H. destruct H as [Ha Hr].
      rewrite Ha. cbn [bind andb negb]. rewrite Hr. reflexivity.
    + destruct (getPlayer (players g) voterId) as [voter|]; [|discriminate].
      intros H target -> ->. apply Bool.andb_true_iff in H.
      destruct H as [Ha Hr].
      rewrite Ha. cbn [bind andb negb]. rewrite Hr. reflexivity.
Qed.

Lemma recordNightVote_rejections_witness :
  errorCode (recordNightVote nightGame "s1" "s2") = Some "NOT_A_TRAITOR" /\
  errorCode (recordNightVote tiedVerdict "p1" "p2") = Some "INVALID_PHASE".
Proof.
  split.
  - destruct (recordNightVote_rejections nightGame "s1" "s2") as [_ H].
    destruct (H eq_refl) as (_ & _ & Hsub & _).
    now apply (Hsub (createPlayer "s1" SUBJECT true)).
  - apply (recordNightVote_rejections tiedVerdict "p1" "p2"). discriminate.
Defined.

(* ================================================================== *)
(** ** Resolutions *)

Lemma countAlive_markDead (ps : list Player) (id : string) (r : option Role) :
  countAlive (markDead id ps) r <= countAlive ps r /\
  countAlive ps r <= countAlive (markDead id ps) r + 1.
Proof.
  unfold countAlive. induction ps as [|p ps [IH1 IH2]]; simpl; [lia|].
  destruct (String.eqb (playerId p) id); simpl.
  - destruct (alive p && _); simpl; lia.
  - destruct (alive p && _); simpl; lia.
Qed.

Lemma countAlive_markDead_living (ps : list Player) (id : string) :
  seatedAlive ps id = true ->
  countAlive (markDead id ps) None + 1 = countAlive ps None.
Proof.
  unfold seatedAlive, getPlayer, countAlive.
  induction ps as [|p ps IH]; simpl; [discriminate|].
  destruct (String.eqb (playerId p) id); simpl.
  - intros ->. simpl. lia.
  - intros H. specialize (IH H). destruct (alive p); simpl; lia.
Qed.

(** The kill of a night never throws: it kills nobody, or one seated living
    player. *)
Lemma nightKill_total (g : GameState) (random : RandomFn) :
  nightKill g random = Ok (players g, None) \/
  exists victim,
    seatedAlive (players g) victim = true /\
    In victim (rec_keys (tallyVotes (nightVotes g))) /\
    nightKill g random = Ok (markDead victim (players g), Some victim).
Proof.
  unfold nightKill. rewrite clonePlayers_id.
  destruct (tallyVotes (nightVotes g)) as [|e tally] eqn:Et; [now left|].
  cbn [List.length Nat.ltb Nat.leb].
  assert (Hne : e :: tally <> []) by discriminate.
  destruct (pickVictim_draws _ random (leadersOf_nonempty _ Hne))
    as (victim & Hpick & Hnth).
  rewrite Hpick. cbn [bind].
  destruct (getPlayer (players g) victim) as [p|] eqn:Ep; [|now left].
  destruct (alive p) eqn:Ea; [|now left].
  right. exists victim. unfold seatedAlive. rewrite Ep.
  split; [exact Ea|]. split.
  - apply nth_error_In in Hnth. unfold leadersOf in Hnth.
    apply in_map_iff in Hnth. destruct Hnth as (x & <- & Hin).
    apply filter_In in Hin. apply in_map. tauto.
  - now rewrite (getPlayer_id _ _ _ Ep).
Qed.

(** X14. In NIGHT, [resolveNight] always returns, and at most one player
    dies: either nobody is recorded as killed and the players are
    untouched, or the recorded victim was seated and alive, is the only
    player changed, and the living are one fewer.  When no ballot names a
    target nobody dies.  The three ballot maps are cleared; the room keeps
    its id and options. *)
Theorem resolveNight_at_most_one_death (g : GameState) (now : Z)
  (random : RandomFn) :
  phase g = NIGHT ->
  exists g',
    resolveNight g now random = Ok g' /\
    ((lastKilledId g' = None /\ players g' = players g) \/
     (exists victim,
        lastKilledId g' = Some victim /\
        seatedAlive (players g) victim = true /\
        players g' = markDead victim (players g) /\
        countAlive (players g') None + 1 = countAlive (players g) None)) /\
    (Forall (fun v => truthyOpt v = false) (rec_values (nightVotes g)) ->
     lastKilledId g' = None /\ players g' = players g) /\
    nightVotes g' = [] /\ dayNominations g' = [] /\ verdictVotes g' = [] /\
    gameId g' = gameId g /\ options g' = options g.
Proof.
  intros Hp.
  assert (Hfields : forall outcome,
    nightKill g random = Ok outcome ->
    exists g',
      resolveNight g now random = Ok g' /\
      players g' = fst outcome /\ lastKilledId g' = snd outcome /\
      nightVotes g' = [] /\ dayNominations g' = [] /\ verdictVotes g' = [] /\
      gameId g' = gameId g /\ options g' = options g).
  { intros outcome Hkill. unfold resolveNight.
    rewrite ensurePhase_ok by (rewrite Hp; simpl; auto).
    cbn [bind]. rewrite Hkill. cbn [bind].
    match goal with
    | |- context [checkWin ?b] => destruct (checkWin b) as [w|]
    end; eexists; (split; [reflexivity|]); simpl; repeat split. }
  assert (Hquiet :
    Forall (fun v => truthyOpt v = false) (rec_values (nightVotes g)) ->
    nightKill g random = Ok (players g, None)).
  { intros Hnone. unfold nightKill, tallyVotes.
    rewrite tallyFold_none_cast; [now rewrite clonePlayers_id|].
    eapply Permutation_Forall; [|exact Hnone].
    apply Permutation_sym, obj_values_Permutation. }
  destruct (nightKill_total g random) as [Hkill | (victim & Ha & _ & Hkill)].
  - destruct (Hfields _ Hkill) as (g' & Hrun & Hps & Hlk & Hrest).
    exists g'. split; [exact Hrun|]. split; [left; now split|].
    split; [intros _; now split | exact Hrest].
  - destruct (Hfields _ Hkill) as (g' & Hrun & Hps & Hlk & Hrest).
    exists g'. split; [exact Hrun|]. simpl in Hps, Hlk. split.
    + right. exists victim. rewrite Hps. repeat split; auto.
      now apply countAlive_markDead_living.
    + split; [|exact Hrest]. intros Hnone. apply Hquiet in Hnone.
      rewrite Hnone in Hkill. discriminate Hkill.
Qed.

Lemma resolveNight_at_most_one_death_witness :
  exists g',
    resolveNight nightGame 0 zero = Ok g' /\
    lastKilledId g' = None /\ players g' = players nightGame.
Proof.
  destruct (resolveNight_at_most_one_death nightGame 0 zero eq_refl)
    as (g' & Hrun & _ & Hquiet & _).
  exists g'. split; [exact Hrun|]. apply Hquiet.
  repeat constructor.
Defined.

(** X15. A resolution cannot be applied twice: the snapshot returned by
    [resolveNight] is rejected by [resolveNight], and the one returned by
    [resolveDayVerdict] is rejected by [resolveDayVerdict], with
    INVALID_PHASE. *)
Theorem resolution_not_repeated (g g' : GameState) (now now' : Z)
  (random random' : RandomFn) :
  (resolveNight g now random = Ok g' ->
   errorCode (resolveNight g' now' random') = Some "INVALID_PHASE") /\
  (resolveDayVerdict g now = Ok g' ->
   errorCode (resolveDayVerdict g' now') = Some "INVALID_PHASE").
Proof.
  split; intros Hrun.
  - assert (Hp : phase g' = GAME_OVER \/ phase g' = DAY_DISCUSSION).
    { unfold resolveNight in Hrun. phase_guard Hrun.
      apply bind_ok in Hrun. destruct Hrun as (outcome & _ & Hrun).
      match type of Hrun with
      | context [checkWin ?b] => destruct (checkWin b) as [w|]
      end; injection Hrun as <-; simpl; auto. }
    unfold resolveNight. rewrite ensurePhase_throw; [reflexivity|].
    simpl. intuition congruence.
  - assert (Hp : phase g' = GAME_OVER \/ phase g' = NIGHT).
    { unfold resolveDayVerdict in Hrun. phase_guard Hrun.
      destruct (accusedId g) as [accused|]; [|discriminate].
      destruct (negb _); [discriminate|].
      destruct (checkWin _) as [w|].
      - injection Hrun as <-. now left.
      - unfold startNight in Hrun. phase_guard Hrun.
        injection Hrun as <-. now right. }
    unfold resolveDayVerdict. rewrite ensurePhase_throw; [reflexivity|].
    simpl. intuition congruence.
Qed.

Lemma resolution_not_repeated_witness :
  exists g',
    resolveDayVerdict tiedVerdict 0 = Ok g' /\
    errorCode (resolveDayVerdict g' 1) = Some "INVALID_PHASE".
Proof.
  eexists. split; [reflexivity|].
  apply (resolution_not_repeated tiedVerdict _ 0 1 zero zero). reflexivity.
Defined.

(* ================================================================== *)
(** ** Completeness of the night ballots *)

Lemma filter_length_all {A : Type} (f : A -> bool) (l : list A) :
  List.length (filter f l) <= List.length l /\
  (List.length (filter f l) = List.length l <-> Forall (fun x => f x = true) l).
Proof.
  induction l as [|a l [IHle IH]]; simpl.
  - split; [lia|]. split; [constructor | reflexivity].
  - destruct (f a) eqn:E; simpl.
    + split; [lia|]. split.
      * intros H. constructor; [exact E|]. apply IH. lia.
      * intros H. inversion H; subst. f_equal. now apply IH.
    + split; [lia|]. split; [lia|].
      intros H. inversion H; subst. congruence.
Qed.

(** Filtering players seated under distinct ids leaves distinct ids. *)
Lemma kept_ids_NoDup (keep : Player -> bool) (ps : list Player) :
  NoDup (map playerId ps) -> NoDup (map playerId (filter keep ps)).
Proof.
  intros Hnd. induction ps as [|q ps IH]; [exact Hnd|].
  cbn [filter map] in *. apply NoDup_cons_iff in Hnd.
  destruct Hnd as [Hnin Hnd].
  destruct (keep q); cbn [map]; [|now apply IH].
  apply NoDup_cons; [|now apply IH].
  intros Hin. apply Hnin. apply in_map_iff in Hin.
  destruct Hin as (x & Hx & Hin). apply filter_In in Hin.
  apply in_map_iff. exists x. tauto.
Qed.

Lemma countAlive_traitors (ps : list Player) :
  countAlive ps (Some TRAITOR)
  = List.length
      (filter (fun p => Role_eqb (role p) TRAITOR) (livingPlayers ps)).
Proof.
  unfold countAlive, livingPlayers. induction ps as [|p ps IH]; simpl;
    [reflexivity|].
  destruct (alive p); simpl; [|exact IH].
  destruct (Role_eqb (role p) TRAITOR); simpl; now rewrite IH.
Qed.

(** Under the ballot invariant, with players seated under distinct ids,
    the ballots are as many as the living traitors. *)
Lemma nightBallots_count (g : GameState) :
  phase g = NIGHT -> nightBallotInvariant g ->
  NoDup (map playerId (players g)) ->
  List.length (nightVotes g) = countAlive (players g) (Some TRAITOR).
Proof.
  intros Hp Hinv Hids. destruct (Hinv Hp) as [Hnd Hkeys].
  rewrite countAlive_traitors.
  rewrite <- (length_map fst (nightVotes g)).
  rewrite <- (length_map playerId
                (filter (fun p => Role_eqb (role p) TRAITOR)
                   (livingPlayers (players g)))).
  apply Permutation_length. apply NoDup_Permutation.
  - exact Hnd.
  - unfold livingPlayers. now apply kept_ids_NoDup, kept_ids_NoDup.
  - intros id. unfold rec_keys in Hkeys. rewrite Hkeys.
    symmetry. apply livingTraitorId_filter.
Qed.

(** X16. [areNightVotesComplete] is rejected with INVALID_PHASE outside
    NIGHT.  In a night whose ballot map holds one ballot per living traitor,
    with players seated under distinct ids, it answers true exactly when
    some traitor is alive and every ballot names a target. *)
Theorem areNightVotesComplete_iff (g : GameState) :
  (phase g <> NIGHT ->
   errorCode (areNightVotesComplete g) = Some "INVALID_PHASE") /\
  (phase g = NIGHT -> nightBallotInvariant g ->
   NoDup (map playerId (players g)) ->
   exists complete,
     areNightVotesComplete g = Ok complete /\
     (complete = true <->
      1 <= countAlive (players g) (Some TRAITOR) /\
      forall voter v, In (voter, v) (nightVotes g) -> truthyOpt v = true)).
Proof.
  split.
  - intros Hp. unfold areNightVotesComplete.
    rewrite ensurePhase_throw; [reflexivity|]. simpl. intuition congruence.
  - intros Hp Hinv Hids. unfold areNightVotesComplete.
    rewrite ensurePhase_ok by (rewrite Hp; simpl; auto). cbn [bind].
    eexists. split; [reflexivity|].
    rewrite <- (nightBallots_count g Hp Hinv Hids).
    rewrite (filter_length_Permutation truthyOpt _ _
               (obj_values_Permutation _ (nightVotes g))).
    destruct (filter_length_all truthyOpt (rec_values (nightVotes g)))
      as [_ Hall].
    unfold rec_values in *. rewrite <- (length_map snd (nightVotes g)).
    rewrite Bool.andb_true_iff, Nat.eqb_eq, Nat.ltb_lt, Hall.
    rewrite Forall_forall. split.
    + intros [H Hpos]. split; [lia|]. intros voter v Hin. apply H.
      apply in_map_iff. now exists (voter, v).
    + intros [Hpos H]. split; [|lia]. intros v Hin.
      apply in_map_iff in Hin. destruct Hin as ([voter v'] & <- & Hin).
      now apply (H voter).
Qed.

Lemma areNightVotesComplete_iff_witness :
  areNightVotesComplete votedNight = Ok true.
Proof.
  destruct (areNightVotesComplete_iff votedNight) as [_ H].
  destruct H as (complete & Hrun & Hiff).
  - reflexivity.
  - intros _. split; [repeat constructor; intros []|].
    intros id. split.
    + intros [<-|[]]. exists (createPlayer "t1" TRAITOR true).
      repeat split. now left.
    + intros (p & Hin & Ha & Hr & <-).
      destruct Hin as [<-|[<-|[<-|[<-|[]]]]]; try discriminate Hr.
      now left.
  - repeat constructor; simpl; intuition discriminate.
  - rewrite Hrun. f_equal. apply Hiff. split; [vm_compute; lia|].
    intros voter v [[= <- <-]|[]]. reflexivity.
Defined.

(* ================================================================== *)
(** ** Winner, accusation and ballot invariants *)

Lemma standing_living (ps qs : list Player) (id : string) :
  map standing ps = map standing qs ->
  (livingTraitorId ps id <-> livingTraitorId qs id) /\
  isLiving ps id = isLiving qs id.
Proof.
  revert qs. induction ps as [|p ps IH]; intros [|q qs] H; simpl in H;
    try discriminate.
  - split; [|reflexivity]. split; intros (x & [] & _).
  - injection H as Ha Hi Hn Hr Hl Hh Hrest.
    destruct (IH qs Hrest) as [IHt IHl]. split.
    + unfold livingTraitorId. split.
      * intros (x & [<-|Hin] & Hx).
        -- exists q. split; [now left|]. now rewrite <- Hl, <- Hr, <- Hi.
        -- destruct (proj1 IHt) as (y & Hy); [now exists x|].
           exists y. split; [right|]; tauto.
      * intros (x & [<-|Hin] & Hx).
        -- exists p. split; [now left|]. now rewrite Hl, Hr, Hi.
        -- destruct (proj2 IHt) as (y & Hy); [now exists x|].
           exists y. split; [right|]; tauto.
    + unfold isLiving in *. simpl. now rewrite IHl, Hl, Hi.
Qed.

Lemma winner_none (g : GameState) :
  winnerInvariant g -> phase g <> GAME_OVER -> winner g = None.
Proof.
  intros [Hw _] Hp. destruct (winner g); [|reflexivity].
  exfalso. apply Hp, Hw. discriminate.
Qed.

Lemma accused_none (g : GameState) :
  accusationInvariant g -> phase g <> TRIAL -> phase g <> DAY_VERDICT ->
  accusedId g = None.
Proof.
  intros Ha Ht Hv. destruct (accusedId g) eqn:E; [|reflexivity].
  destruct Ha as [H|H]; congruence.
Qed.

(** A snapshot in a phase without ballots, without winner. *)
Lemma wellFormed_quiet (g : GameState) :
  winner g = None -> phase g <> GAME_OVER ->
  phase g <> NIGHT -> phase g <> DAY_VERDICT ->
  (accusedId g <> None -> phase g = TRIAL) ->
  wellFormed g.
Proof.
  intros Hw Ho Hn Hv Ha. repeat split; try congruence.
  intros H. left. now apply Ha.
Qed.

Lemma wellFormed_over (g : GameState) (w : Winner) :
  winner g = Some w -> phase g = GAME_OVER -> accusedId g = None ->
  wellFormed g.
Proof.
  intros Hw Ho Ha. repeat split; try congruence.
Qed.

(** A transition that keeps the phase, the winner, the accusation, the keys
    of both ballot maps and the standing of every player. *)
Lemma wellFormed_same (g g' : GameState) :
  phase g' = phase g -> winner g' = winner g -> accusedId g' = accusedId g ->
  rec_keys (nightVotes g') = rec_keys (nightVotes g) ->
  rec_keys (verdictVotes g') = rec_keys (verdictVotes g) ->
  map standing (players g') = map standing (players g) ->
  wellFormed g -> wellFormed g'.
Proof.
  intros Hp Hw Ha Hn Hv Hs (Hwin & Hacc & Hnight & Hverdict).
  unfold wellFormed, winnerInvariant, accusationInvariant, ballotInvariants,
    nightBallotInvariant, verdictBallotInvariant in *.
  rewrite Hp, Hw, Ha, Hn, Hv.
  split; [exact Hwin|]. split; [exact Hacc|]. split.
  - intros H. destruct (Hnight H) as [Hnd Hk]. split; [exact Hnd|].
    intros id. rewrite Hk. symmetry. now apply standing_living.
  - intros H. destruct (Hverdict H) as [Hnd Hk]. split; [exact Hnd|].
    intros id. rewrite Hk.
    now rewrite (proj2 (standing_living _ _ id Hs)).
Qed.

Lemma wellFormed_enterNight (b : GameState) (now : Z) :
  winner b = None -> wellFormed (enterNight b now).
Proof.
  intros Hw. destruct (nightBallots_exact (players b)) as (Hnd & Hk & _).
  unfold wellFormed, winnerInvariant, accusationInvariant, ballotInvariants,
    nightBallotInvariant, verdictBallotInvariant, enterNight.
  cbn [phase winner accusedId nightVotes verdictVotes players].
  rewrite Hw. split; [split; congruence|]. split; [congruence|].
  split; [|discriminate]. intros _. split; [exact Hnd | exact Hk].
Qed.

Lemma startNight_wellFormed g now :
  wellFormed g -> returning wellFormed (startNight g now).
Proof.
  intros (Hw & _) g' Hrun. unfold startNight in Hrun. phase_guard Hrun.
  injection Hrun as <-. apply wellFormed_enterNight.
  apply winner_none; [exact Hw | intuition congruence].
Qed.

Lemma addPlayerToLobby_wellFormed g identity :
  wellFormed g -> returning wellFormed (addPlayerToLobby g identity).
Proof.
  intros (Hw & Ha & _) g' Hrun. unfold addPlayerToLobby in Hrun.
  phase_guard Hrun. destruct Hguard as [Hp|[]].
  destruct (existsb _ _); [discriminate|]. injection Hrun as <-.
  apply wellFormed_quiet; simpl; try congruence.
  - apply winner_none; [exact Hw | congruence].
  - intros H. apply Ha in H. destruct H; congruence.
Qed.

Lemma removePlayerFromLobby_wellFormed g id :
  wellFormed g -> returning wellFormed (removePlayerFromLobby g id).
Proof.
  intros (Hw & Ha & _) g' Hrun. unfold removePlayerFromLobby in Hrun.
  phase_guard Hrun. destruct Hguard as [Hp|[]].
  apply bind_ok in Hrun. destruct Hrun as (p & _ & Hrun).
  injection Hrun as <-.
  apply wellFormed_quiet; simpl; try congruence.
  - apply winner_none; [exact Hw | congruence].
  - intros H. apply Ha in H. destruct H; congruence.
Qed.

Lemma assignRoles_wellFormed g random :
  wellFormed g -> returning wellFormed (assignRoles g random).
Proof.
  intros Hwf g' Hrun. pose proof Hwf as (Hw & Ha & _).
  unfold assignRoles in Hrun.
  phase_guard Hrun. destruct Hguard as [Hp|[]].
  destruct (rolesAssigned g); injection Hrun as <-; [exact Hwf|].
  apply wellFormed_quiet; simpl; try congruence.
  - apply winner_none; [exact Hw | congruence].
  - intros H. apply Ha in H. destruct H; congruence.
Qed.

Lemma assignRoles_winner g random g' :
  assignRoles g random = Ok g' -> winner g' = winner g /\ phase g' = LOBBY.
Proof.
  intros Hrun. unfold assignRoles in Hrun.
  phase_guard Hrun. destruct Hguard as [Hp|[]].
  destruct (rolesAssigned g); injection Hrun as <-; simpl; auto.
Qed.

Lemma startGame_wellFormed g now random :
  wellFormed g -> returning wellFormed (startGame g now random).
Proof.
  intros (Hw & _) g' Hrun. unfold startGame in Hrun. phase_guard Hrun.
  destruct Hguard as [Hp|[]].
  destruct (_ <? _)%Z; [discriminate|].
  apply bind_ok in Hrun. destruct Hrun as (a & Ha & Hrun).
  apply assignRoles_winner in Ha. destruct Ha as [Hwa Hpa].
  unfold startNight in Hrun. phase_guard Hrun. injection Hrun as <-.
  apply wellFormed_enterNight. rewrite Hwa.
  apply winner_none; [exact Hw | congruence].
Qed.

Lemma recordNightVote_wellFormed g voter target :
  wellFormed g -> returning wellFormed (recordNightVote g voter target).
Proof.
  intros Hwf g' Hrun. pose proof Hwf as (_ & _ & Hnight & _).
  unfold recordNightVote in Hrun. phase_guard Hrun.
  destruct Hguard as [Hp|[]].
  apply bind_ok in Hrun. destruct Hrun as (traitor & Ht & Hrun).
  destruct (negb _) eqn:Er; [discriminate|].
  apply bind_ok in Hrun. destruct Hrun as (tg & _ & Hrun).
  injection Hrun as <-.
  apply assertPlayer_inv in Ht. destruct Ht as [Hget Halive].
  apply (wellFormed_same g); simpl; auto.
  apply rec_keys_obj_set_present. apply rec_has_keys.
  destruct (Hnight (eq_sym Hp)) as [_ Hk]. apply Hk.
  exists traitor. split; [now apply (getPlayer_In _ voter)|].
  split; [now apply Halive|]. split; [|reflexivity].
  apply Bool.negb_false_iff in Er. now apply Role_eqb_eq.
Qed.

Lemma resolveNight_wellFormed g now random :
  wellFormed g -> returning wellFormed (resolveNight g now random).
Proof.
  intros (Hw & Ha & _) g' Hrun. unfold resolveNight in Hrun.
  phase_guard Hrun. destruct Hguard as [Hp|[]].
  apply bind_ok in Hrun. destruct Hrun as (outcome & _ & Hrun).
  match type of Hrun with
  | context [checkWin ?b] => destruct (checkWin b) as [w|]
  end; injection Hrun as <-.
  - apply (wellFormed_over _ w); simpl; auto.
    apply accused_none; [exact Ha | congruence | congruence].
  - apply wellFormed_quiet; simpl; try congruence.
    apply winner_none; [exact Hw | congruence].
Qed.

Lemma startTrial_wellFormed g accused now :
  wellFormed g -> returning wellFormed (startTrial g accused now).
Proof.
  intros (Hw & _) g' Hrun. unfold startTrial in Hrun.
  phase_guard Hrun. destruct Hguard as [Hp|[]].
  apply bind_ok in Hrun. destruct Hrun as (p & _ & Hrun).
  injection Hrun as <-.
  apply wellFormed_quiet; simpl; try congruence; auto.
  apply winner_none; [exact Hw | congruence].
Qed.

Lemma recordNomination_wellFormed g voter target now :
  wellFormed g -> returning wellFormed (recordNomination g voter target now).
Proof.
  intros Hwf g' Hrun. unfold recordNomination in Hrun. phase_guard Hrun.
  apply bind_ok in Hrun. destruct Hrun as (v & _ & Hrun).
  apply bind_ok in Hrun. destruct Hrun as (t & _ & Hrun).
  simpl in Hrun.
  match type of Hrun with
  | (if ?c then _ else _) = _ => destruct c
  end.
  - eapply startTrial_wellFormed; [|exact Hrun].
    now apply (wellFormed_same g).
  - injection Hrun as <-. now apply (wellFormed_same g).
Qed.

Lemma startDayVerdict_wellFormed g now :
  wellFormed g -> returning wellFormed (startDayVerdict g now).
Proof.
  intros (Hw & _) g' Hrun.
  assert (Hp : phase g = TRIAL).
  { unfold startDayVerdict in Hrun. phase_guard Hrun.
    destruct Hguard as [Hp|[]]. auto. }
  destruct (startDayVerdict_cases g now Hp) as [Hno Hyes].
  destruct (truthyOpt (accusedId g)) eqn:Et.
  - destruct (Hyes eq_refl)
      as (g1 & Hrun1 & Hph & Hps & Hacc & Hnd & Hk & _).
    rewrite Hrun1 in Hrun. injection Hrun as <-.
    assert (Hwg : winner g1 = None).
    { unfold startDayVerdict in Hrun1. phase_guard Hrun1.
      rewrite Et in Hrun1. simpl in Hrun1. injection Hrun1 as <-. simpl.
      apply winner_none; [exact Hw | congruence]. }
    split; [split; congruence|]. split; [intros _; now right|].
    split; [congruence|]. intros _. split; [exact Hnd|].
    intros id. rewrite Hps. apply Hk.
  - specialize (Hno eq_refl). rewrite Hrun in Hno. discriminate Hno.
Qed.

Lemma recordVerdictVote_wellFormed g voter choice :
  wellFormed g -> returning wellFormed (recordVerdictVote g voter choice).
Proof.
  intros Hwf g' Hrun. unfold recordVerdictVote in Hrun. phase_guard Hrun.
  apply bind_ok in Hrun. destruct Hrun as (v & _ & Hrun).
  apply bind_ok in Hrun. destruct Hrun as (registered & Hreg & Hrun).
  destruct registered; [|discriminate]. simpl in Hrun.
  destruct (negb _); [discriminate|]. injection Hrun as <-.
  apply (wellFormed_same g); simpl; auto.
  apply rec_keys_obj_set_present.
  unfold hasOwnProperty in Hreg.
  destruct (rec_has (verdictVotes g) "hasOwnProperty"); [discriminate|].
  now injection Hreg.
Qed.

Lemma resolveDayVerdict_wellFormed g now :
  wellFormed g -> returning wellFormed (resolveDayVerdict g now).
Proof.
  intros (Hw & _) g' Hrun. unfold resolveDayVerdict in Hrun.
  phase_guard Hrun. destruct Hguard as [Hp|[]].
  destruct (accusedId g) as [accused|]; [|discriminate].
  destruct (negb _); [discriminate|].
  destruct (checkWin _) as [w|].
  - injection Hrun as <-. now apply (wellFormed_over _ w).
  - unfold startNight in Hrun. phase_guard Hrun. injection Hrun as <-.
    apply wellFormed_enterNight. simpl.
    apply winner_none; [exact Hw | congruence].
Qed.

Lemma skipDayToNight_wellFormed g now :
  wellFormed g -> returning wellFormed (skipDayToNight g now).
Proof.
  intros (Hw & _) g' Hrun. unfold skipDayToNight in Hrun.
  phase_guard Hrun. destruct Hguard as [Hp|[]].
  unfold startNight in Hrun. phase_guard Hrun. injection Hrun as <-.
  apply wellFormed_enterNight. simpl.
  apply winner_none; [exact Hw | congruence].
Qed.

Lemma setPlayerConnection_standing g id connected0 :
  map standing (players (setPlayerConnection g id connected0))
  = map standing (players g).
Proof.
  unfold setPlayerConnection.
  destruct (getPlayer (players g) id) as [found|]; [|reflexivity]. simpl.
  rewrite map_map. apply map_ext. intros q.
  now destruct (String.eqb (playerId q) id).
Qed.

Lemma setPlayerConnection_fields g id connected0 :
  let g' := setPlayerConnection g id connected0 in
  gameId g' = gameId g /\ phase g' = phase g /\ winner g' = winner g /\
  accusedId g' = accusedId g /\ lastKilledId g' = lastKilledId g /\
  options g' = options g /\ rolesAssigned g' = rolesAssigned g /\
  nightVotes g' = nightVotes g /\ dayNominations g' = dayNominations g /\
  verdictVotes g' = verdictVotes g /\ phaseEndsAt g' = phaseEndsAt g /\
  dayNumber g' = dayNumber g /\ nightNumber g' = nightNumber g.
Proof.
  unfold setPlayerConnection.
  destruct (getPlayer (players g) id); simpl; repeat split.
Qed.

Lemma setPlayerConnection_wellFormed g id connected0 :
  wellFormed g -> wellFormed (setPlayerConnection g id connected0).
Proof.
  intros Hwf.
  destruct (setPlayerConnection_fields g id connected0)
    as (_ & Hp & Hw & Ha & _ & _ & _ & Hn & _ & Hv & _).
  apply (wellFormed_same g); auto.
  - now rewrite Hn.
  - now rewrite Hv.
  - apply setPlayerConnection_standing.
Qed.

Lemma createInitialGame_wellFormed (id : string) (host : PlayerIdentity)
  (overrides : option GameOptionsOverrides) :
  wellFormed (createInitialGame id host overrides).
Proof.
  apply wellFormed_quiet; simpl; congruence.
Qed.

Lemma wellFormed_step (g g' : GameState) :
  wellFormed g -> step g g' -> wellFormed g'.
Proof.
  intros Hwf Hstep. destruct Hstep.
  - eapply addPlayerToLobby_wellFormed; eauto.
  - eapply removePlayerFromLobby_wellFormed; eauto.
  - eapply assignRoles_wellFormed; eauto.
  - eapply startGame_wellFormed; eauto.
  - eapply startNight_wellFormed; eauto.
  - eapply recordNightVote_wellFormed; eauto.
  - eapply resolveNight_wellFormed; eauto.
  - eapply recordNomination_wellFormed; eauto.
  - eapply startTrial_wellFormed; eauto.
  - eapply startDayVerdict_wellFormed; eauto.
  - eapply recordVerdictVote_wellFormed; eauto.
  - eapply resolveDayVerdict_wellFormed; eauto.
  - eapply skipDayToNight_wellFormed; eauto.
  - now apply setPlayerConnection_wellFormed.
Qed.

(** X17. Every accepted action of the engine (the thirteen transitions that
    may throw, when they return, and [setPlayerConnection]) keeps the
    winner, accusation and ballot-map invariants of the data model. *)
Theorem step_preserves_wellFormed (g g' : GameState) :
  wellFormed g -> step g g' -> wellFormed g'.
Proof. exact (wellFormed_step g g'). Qed.

Lemma step_preserves_wellFormed_witness :
  wellFormed (enterNight freshLobby 0).
Proof.
  apply (step_preserves_wellFormed freshLobby).
  - apply createInitialGame_wellFormed.
  - apply (step_startNight freshLobby 0%Z). reflexivity.
Defined.

(* ================================================================== *)
(** ** What no action changes *)

Lemma startNight_frame g now g' :
  startNight g now = Ok g' -> gameId g' = gameId g /\ options g' = options g.
Proof.
  intros Hrun. unfold startNight in Hrun. phase_guard Hrun.
  injection Hrun as <-. split; reflexivity.
Qed.

Lemma startTrial_frame g accused now g' :
  startTrial g accused now = Ok g' ->
  gameId g' = gameId g /\ options g' = options g.
Proof.
  intros Hrun. unfold startTrial in Hrun. phase_guard Hrun.
  apply bind_ok in Hrun. destruct Hrun as (p & _ & Hrun).
  injection Hrun as <-. split; reflexivity.
Qed.

Lemma step_frame (g g' : GameState) :
  step g g' -> gameId g' = gameId g /\ options g' = options g.
Proof.
  intros Hstep. destruct Hstep as
    [identity g' Hrun | id g' Hrun | random g' Hrun | now random g' Hrun
    | now g' Hrun | voter target g' Hrun | now random g' Hrun
    | voter target now g' Hrun | accused now g' Hrun | now g' Hrun
    | voter choice g' Hrun | now g' Hrun | now g' Hrun | id connected0].
  - unfold addPlayerToLobby in Hrun. phase_guard Hrun.
    destruct (existsb _ _); [discriminate|]. injection Hrun as <-.
    split; reflexivity.
  - unfold removePlayerFromLobby in Hrun. phase_guard Hrun.
    apply bind_ok in Hrun. destruct Hrun as (p & _ & Hrun).
    injection Hrun as <-. split; reflexivity.
  - unfold assignRoles in Hrun. phase_guard Hrun.
    destruct (rolesAssigned g); injection Hrun as <-; split; reflexivity.
  - unfold startGame in Hrun. phase_guard Hrun.
    destruct (_ <? _)%Z; [discriminate|].
    apply bind_ok in Hrun. destruct Hrun as (a & Ha & Hrun).
    apply startNight_frame in Hrun. destruct Hrun as [-> ->].
    unfold assignRoles in Ha. phase_guard Ha.
    destruct (rolesAssigned g); injection Ha as <-; split; reflexivity.
  - now apply startNight_frame in Hrun.
  - unfold recordNightVote in Hrun. phase_guard Hrun.
    apply bind_ok in Hrun. destruct Hrun as (traitor & _ & Hrun).
    destruct (negb _); [discriminate|].
    apply bind_ok in Hrun. destruct Hrun as (tg & _ & Hrun).
    injection Hrun as <-. split; reflexivity.
  - unfold resolveNight in Hrun. phase_guard Hrun.
    apply bind_ok in Hrun. destruct Hrun as (outcome & _ & Hrun).
    match type of Hrun with
    | context [checkWin ?b] => destruct (checkWin b) as [w|]
    end; injection Hrun as <-; split; reflexivity.
  - unfold recordNomination in Hrun. phase_guard Hrun.
    apply bind_ok in Hrun. destruct Hrun as (v & _ & Hrun).
    apply bind_ok in Hrun. destruct Hrun as (t & _ & Hrun).
    simpl in Hrun.
    match type of Hrun with
    | (if ?c then _ else _) = _ => destruct c
    end.
    + apply startTrial_frame in Hrun. exact Hrun.
    + injection Hrun as <-. split; reflexivity.
  - now apply startTrial_frame in Hrun.
  - unfold startDayVerdict in Hrun. phase_guard Hrun.
    destruct (negb _); [discriminate|]. injection Hrun as <-.
    split; reflexivity.
  - unfold recordVerdictVote in Hrun. phase_guard Hrun.
    apply bind_ok in Hrun. destruct Hrun as (v & _ & Hrun).
    apply bind_ok in Hrun. destruct Hrun as (registered & _ & Hrun).
    destruct (negb registered); [discriminate|].
    destruct (negb _); [discriminate|].
    injection Hrun as <-. split; reflexivity.
  - unfold resolveDayVerdict in Hrun. phase_guard Hrun.
    destruct (accusedId g) as [accused|]; [|discriminate].
    destruct (negb _); [discriminate|].
    destruct (checkWin _) as [w|].
    + injection Hrun as <-. split; reflexivity.
    + apply startNight_frame in Hrun. exact Hrun.
  - unfold skipDayToNight in Hrun. phase_guard Hrun.
    apply startNight_frame in Hrun. exact Hrun.
  - destruct (setPlayerConnection_fields g id connected0)
      as (Hid & _ & _ & _ & _ & Hopt & _).
    now split.
Qed.

(** X18. Every snapshot a room goes through, from the lobby
    [createInitialGame] returns and by any sequence of accepted actions,
    satisfies the winner, accusation and ballot-map invariants, and carries
    the id and the options the room was created with. *)
Theorem reachable_wellFormed (id : string) (host : PlayerIdentity)
  (overrides : option GameOptionsOverrides) (g : GameState) :
  reachable (createInitialGame id host overrides) g ->
  wellFormed g /\ gameId g = id /\ options g = mergeOptions overrides.
Proof.
  induction 1 as [|g g' _ (Hwf & Hid & Hopt) Hstep].
  - split; [apply createInitialGame_wellFormed|]. split; reflexivity.
  - destruct (step_frame _ _ Hstep) as [Hid' Hopt'].
    split; [now apply (wellFormed_step g)|].
    split; congruence.
Qed.

Lemma reachable_wellFormed_witness :
  exists g,
    startGame threeLobby 0 oneTenth = Ok g /\
    wellFormed g /\ gameId g = "g".
Proof.
  eexists. split; [vm_compute; reflexivity|].
  match goal with
  | |- wellFormed ?g /\ _ =>
      destruct (reachable_wellFormed "g"
                  {| id_accountId := "host"; id_playerId := "host";
                     id_name := "Host"; id_isHost := None |}
                  (Some {| o_minPlayers := Some 3%Z; o_durations := None |})
                  g) as (Hwf & Hid & _)
  end.
  - eapply reachable_step.
    + eapply reachable_step.
      * eapply reachable_step; [apply reachable_start|].
        eapply (step_join _ {| id_accountId := "a2"; id_playerId := "p2";
                               id_name := "P2"; id_isHost := None |}).
        reflexivity.
      * eapply (step_join _ {| id_accountId := "a3"; id_playerId := "p3";
                               id_name := "P3"; id_isHost := None |}).
        reflexivity.
    + eapply (step_startGame _ 0%Z oneTenth). vm_compute. reflexivity.
  - split; assumption.
Defined.

(* ================================================================== *)
(** ** Tallies, in full *)

(** X19. [tallyVotes] counts each target once: the keys of the tally are
    pairwise distinct, the count of a non-empty id is the number of ballots
    naming it, the empty id is never counted, and the keys are exactly the
    non-empty ids named by at least one ballot. *)
Theorem tallyVotes_counts (votes : Rec string) :
  NoDup (rec_keys (tallyVotes votes)) /\
  (forall t, t <> "" -> tallyOf (tallyVotes votes) t = votesFor votes t) /\
  tallyOf (tallyVotes votes) "" = 0 /\
  (forall t, In t (rec_keys (tallyVotes votes))
             <-> t <> "" /\ 1 <= votesFor votes t).
Proof.
  destruct (tallyVotes_ok votes) as [Hnd Hval].
  assert (Hcount : forall t, t <> "" ->
                             tallyOf (tallyVotes votes) t = votesFor votes t).
  { intros t Ht. apply tallyOf_tallyVotes. now apply truthy_neq. }
  assert (Hblank : rec_get (tallyVotes votes) "" = None).
  { destruct (rec_get (tallyVotes votes) "") as [n|] eqn:E; [|reflexivity].
    destruct (Hval _ _ E) as [Ht _]. discriminate Ht. }
  split; [exact Hnd|]. split; [exact Hcount|]. split.
  - unfold tallyOf. now rewrite Hblank.
  - intros t. split.
    + intros Hin. apply rec_key_get in Hin. destruct Hin as [n Hget].
      destruct (Hval _ _ Hget) as [Ht Hn]. apply truthy_neq in Ht.
      split; [exact Ht|]. rewrite <- (Hcount t Ht). unfold tallyOf.
      now rewrite Hget.
    + intros [Ht Hpos]. rewrite <- (Hcount t Ht) in Hpos.
      unfold tallyOf in Hpos.
      destruct (rec_get (tallyVotes votes) t) as [n|] eqn:E.
      * eapply rec_get_key. exact E.
      * simpl in Hpos. lia.
Qed.

Lemma tallyVotes_counts_witness :
  tallyOf (tallyVotes (nightVotes tiedNight)) "s2" = 1 /\
  tallyOf (tallyVotes (nightVotes blankTargetNight)) "" = 0.
Proof.
  split.
  - destruct (tallyVotes_counts (nightVotes tiedNight)) as (_ & H & _).
    rewrite H; [reflexivity | discriminate].
  - now destruct (tallyVotes_counts (nightVotes blankTargetNight))
      as (_ & _ & H & _).
Defined.

(* ================================================================== *)
(** ** Connections *)

Lemma countAlive_standing (ps qs : list Player) (r : option Role) :
  map standing ps = map standing qs -> countAlive ps r = countAlive qs r.
Proof.
  unfold countAlive. revert qs.
  induction ps as [|p ps IH]; intros [|q qs] H; simpl in H;
    try discriminate; [reflexivity|].
  injection H as Ha Hi Hn Hr Hl Hh Hrest. simpl.
  rewrite Hl, Hr. specialize (IH qs Hrest).
  destruct (alive q && _); simpl; now rewrite IH.
Qed.

Lemma getPlayer_reconnect (ps : list Player) (id other : string)
  (connected0 : bool) :
  other <> id ->
  getPlayer
    (map (fun p =>
            if String.eqb (playerId p) id then
              {| accountId := accountId p; playerId := playerId p;
                 name := name p; role := role p; alive := alive p;
                 connected := connected0; isHost := isHost p |}
            else p) ps) other
  = getPlayer ps other.
Proof.
  intros Hne. unfold getPlayer.
  induction ps as [|q qs IH]; simpl; [reflexivity|].
  destruct (String.eqb (playerId q) id) eqn:Eq; simpl.
  - apply String.eqb_eq in Eq.
    destruct (String.eqb (playerId q) other) eqn:Eo.
    + apply String.eqb_eq in Eo. congruence.
    + exact IH.
  - destruct (String.eqb (playerId q) other); [reflexivity | exact IH].
Qed.

(** X20. [setPlayerConnection] changes connection flags only: everything
    else of every player is as before, the players seated under the id get
    the new flag, lookups under other ids are unchanged, and so are the
    winner evaluation, the phase and the ballots; an id nobody is seated
    under leaves the snapshot as it is. *)
Theorem setPlayerConnection_only_connection (g : GameState) (id : string)
  (connected0 : bool) :
  map standing (players (setPlayerConnection g id connected0))
  = map standing (players g) /\
  (forall p,
     In p (players (setPlayerConnection g id connected0)) ->
     playerId p = id -> connected p = connected0) /\
  (forall other,
     other <> id ->
     getPlayer (players (setPlayerConnection g id connected0)) other
     = getPlayer (players g) other) /\
  checkWin (setPlayerConnection g id connected0) = checkWin g /\
  phase (setPlayerConnection g id connected0) = phase g /\
  nightVotes (setPlayerConnection g id connected0) = nightVotes g /\
  verdictVotes (setPlayerConnection g id connected0) = verdictVotes g /\
  (getPlayer (players g) id = None ->
   setPlayerConnection g id connected0 = g).
Proof.
  pose proof (setPlayerConnection_standing g id connected0) as Hst.
  destruct (setPlayerConnection_fields g id connected0)
    as (_ & Hp & Hw & _ & _ & _ & _ & Hn & _ & Hv & _).
  split; [exact Hst|]. split; [|split; [|split; [|split; [|split; [|split]]]]].
  - intros p Hin Hid. unfold setPlayerConnection in Hin.
    destruct (getPlayer (players g) id) as [found|] eqn:E.
    + simpl in Hin. apply in_map_iff in Hin. destruct Hin as (q & Hq & _).
      destruct (String.eqb (playerId q) id) eqn:Eq; subst p; [reflexivity|].
      apply String.eqb_neq in Eq. congruence.
    + exfalso. unfold getPlayer in E.
      apply (find_none _ _ E) in Hin. rewrite Hid, String.eqb_refl in Hin.
      discriminate Hin.
  - intros other Hne. unfold setPlayerConnection.
    destruct (getPlayer (players g) id) as [found|]; [|reflexivity].
    simpl. now apply getPlayer_reconnect.
  - unfold checkWin. rewrite Hw.
    now rewrite !(countAlive_standing _ _ _ Hst).
  - exact Hp.
  - exact Hn.
  - exact Hv.
  - intros E. unfold setPlayerConnection. now rewrite E.
Qed.

Lemma setPlayerConnection_only_connection_witness :
  getPlayer (players (setPlayerConnection nightGame "s1" false)) "s1"
  = Some (mkPlayer "s1" "s1" "s1" SUBJECT true false false) /\
  checkWin (setPlayerConnection nightGame "s1" false) = checkWin nightGame.
Proof.
  split; [reflexivity|].
  apply (setPlayerConnection_only_connection nightGame "s1" false).
Defined.

(* ================================================================== *)
(** ** Deadlines *)

(** X21. What a deadline triggers: nothing in LOBBY and GAME_OVER; in NIGHT
    and DAY_DISCUSSION a transition that returns and leaves the phase; in
    TRIAL and DAY_VERDICT the same when the accusation is a non-empty id,
    and a NO_ACCUSED rejection otherwise. *)
Theorem phaseTimeoutStep_progress (g : GameState) (now : Z)
  (random : RandomFn) :
  (phase g = LOBBY \/ phase g = GAME_OVER ->
   phaseTimeoutStep g now random = None) /\
  (phase g = NIGHT \/ phase g = DAY_DISCUSSION ->
   exists g',
     phaseTimeoutStep g now random = Some (Ok g') /\ phase g' <> phase g) /\
  (phase g = TRIAL \/ phase g = DAY_VERDICT ->
   (truthyOpt (accusedId g) = true ->
    exists g',
      phaseTimeoutStep g now random = Some (Ok g') /\ phase g' <> phase g) /\
   (truthyOpt (accusedId g) = false ->
    exists r,
      phaseTimeoutStep g now random = Some r /\
      errorCode r = Some "NO_ACCUSED")).
Proof.
  unfold phaseTimeoutStep. split; [|split].
  - intros [-> | ->]; reflexivity.
  - intros [Hp | Hp]; rewrite Hp.
    + assert (Hkill : exists outcome, nightKill g random = Ok outcome).
      { destruct (nightKill_total g random) as [H | (v & _ & _ & H)];
          eexists; exact H. }
      destruct Hkill as (outcome & Hkill).
      destruct (resolveNight_returns g now random outcome Hp Hkill)
        as (g' & Hrun & _ & _ & _ & Hph).
      exists g'. split; [now rewrite Hrun|]. destruct Hph; congruence.
    + unfold skipDayToNight.
      rewrite ensurePhase_ok by (rewrite Hp; simpl; auto). cbn [bind].
      unfold startNight.
      rewrite ensurePhase_ok by (simpl; rewrite Hp; simpl; auto). cbn [bind].
      eexists. split; [reflexivity|]. simpl. congruence.
  - intros Hp. split; intros Ht.
    + destruct Hp as [Hp | Hp]; rewrite Hp.
      * destruct (startDayVerdict_cases g now Hp) as [_ H].
        destruct (H Ht) as (g' & Hrun & Hph & _).
        exists g'. split; [now rewrite Hrun | congruence].
      * destruct (accusedId g) as [accused|] eqn:Ea; [|discriminate].
        simpl in Ht. apply truthy_neq in Ht.
        destruct (resolveDayVerdict_returns g now accused Hp Ea Ht)
          as (g' & Hrun & _ & _ & _ & _ & Hph).
        exists g'. split; [now rewrite Hrun|].
        destruct Hph; congruence.
    + destruct Hp as [Hp | Hp]; rewrite Hp.
      * destruct (startDayVerdict_cases g now Hp) as [H _].
        eexists. split; [reflexivity | now apply H].
      * eexists. split; [reflexivity|]. unfold resolveDayVerdict.
        rewrite ensurePhase_ok by (rewrite Hp; simpl; auto). cbn [bind].
        destruct (accusedId g) as [accused|]; [|reflexivity].
        simpl in Ht. now rewrite Ht.
Qed.

Lemma phaseTimeoutStep_progress_witness :
  exists g',
    phaseTimeoutStep tiedVerdict 9 zero = Some (Ok g') /\
    phase g' <> DAY_VERDICT.
Proof.
  destruct (phaseTimeoutStep_progress tiedVerdict 9 zero) as (_ & _ & H).
  destruct H as [H _]; [now right|].
  destruct (H eq_refl) as (g' & Hrun & Hp). now exists g'.
Defined.

(* ================================================================== *)
(** ** The room registry *)

Section DeleteFacts.
Variable V : Type.
Implicit Types (r : list (string * V)) (k : string) (v : V).

Lemma rec_delete_In r k k' v :
  In (k', v) (rec_delete r k) -> In (k', v) r.
Proof.
  induction r as [|[k0 v0] r IH]; simpl; [tauto|].
  destruct (String.eqb k0 k); simpl; [tauto|].
  intros [H|H]; [now left | right; now apply IH].
Qed.

Lemma rec_delete_keys r k k' :
  In k' (rec_keys (rec_delete r k)) -> In k' (rec_keys r).
Proof.
  unfold rec_keys. intros H. apply in_map_iff in H.
  destruct H as ([k1 v1] & <- & Hin). apply rec_delete_In in Hin.
  apply in_map_iff. now exists (k1, v1).
Qed.

Lemma rec_delete_NoDup r k :
  NoDup (rec_keys r) -> NoDup (rec_keys (rec_delete r k)).
Proof.
  induction r as [|[k0 v0] r IH]; simpl; intros H; [constructor|].
  inversion H as [|? ? Hnin Hnd]; subst.
  destruct (String.eqb k0 k); [exact Hnd|]. simpl.
  constructor; [|now apply IH].
  intros Hin. apply Hnin. now apply (rec_delete_keys r k).
Qed.

Lemma rec_get_delete_same r k :
  NoDup (rec_keys r) -> rec_get (rec_delete r k) k = None.
Proof.
  induction r as [|[k0 v0] r IH]; simpl; intros H; [reflexivity|].
  inversion H as [|? ? Hnin Hnd]; subst.
  destruct (String.eqb k0 k) eqn:E; simpl.
  - apply String.eqb_eq in E. subst k0.
    destruct (rec_get r k) as [v|] eqn:Eg; [|reflexivity].
    exfalso. apply Hnin. eapply rec_get_key. exact Eg.
  - rewrite E. now apply IH.
Qed.

Lemma rec_get_delete_other r k k' :
  k' <> k -> rec_get (rec_delete r k) k' = rec_get r k'.
Proof.
  intros Hne. induction r as [|[k0 v0] r IH]; simpl; [reflexivity|].
  destruct (String.eqb k0 k) eqn:E; simpl.
  - apply String.eqb_eq in E. subst k0.
    destruct (String.eqb k k') eqn:E'; [|reflexivity].
    apply String.eqb_eq in E'. congruence.
  - now rewrite IH.
Qed.

Lemma rec_has_false_get r k : rec_has r k = false <-> rec_get r k = None.
Proof.
  induction r as [|[k0 v0] r IH]; simpl; [tauto|].
  destruct (String.eqb k0 k); [split; discriminate | exact IH].
Qed.
End DeleteFacts.

(** X22. [create] never overwrites: under an id in use it throws and leaves
    the registry as it is; under a new id it returns the game, which is then
    found under its id, last in the listing, every other room unchanged. *)
Theorem GameStore_create_never_overwrites (games : GameStore.t)
  (game : GameState) :
  (GameStore.get games (gameId game) <> None ->
   exists msg,
     GameStore.create games game = (Throw (Error msg), games)) /\
  (GameStore.get games (gameId game) = None ->
   exists games',
     GameStore.create games game = (Ok game, games') /\
     GameStore.get games' (gameId game) = Some game /\
     (forall other,
        other <> gameId game ->
        GameStore.get games' other = GameStore.get games other) /\
     GameStore.list games' = GameStore.list games ++ [game]).
Proof.
  unfold GameStore.create, GameStore.get, GameStore.list. split.
  - intros H. apply rec_has_get in H. rewrite H. eexists. reflexivity.
  - intros H. apply rec_has_false_get in H. rewrite H.
    eexists. split; [reflexivity|].
    split; [apply rec_get_set_same|].
    split; [intros other Hne; now apply rec_get_set_other|].
    apply rec_has_false_get in H. unfold rec_values.
    induction games as [|[k v] games IH]; simpl in *; [reflexivity|].
    destruct (String.eqb k (gameId game)); [discriminate|].
    simpl. now rewrite IH.
Qed.

Lemma GameStore_create_never_overwrites_witness :
  exists msg,
    GameStore.create [("g", freshLobby)] (enterNight freshLobby 0)
    = (Throw (Error msg), [("g", freshLobby)]).
Proof.
  apply (GameStore_create_never_overwrites [("g", freshLobby)]
           (enterNight freshLobby 0)).
  discriminate.
Defined.

(** X23. [update] throws Game ID mismatch, leaving the registry as it is,
    when the snapshot's id is not the one given; otherwise the snapshot is
    found under the id and every other room is unchanged.  After [delete]
    nothing is found under the id, and every other room is unchanged. *)
Theorem GameStore_update_delete (games : GameStore.t) (id : string)
  (game : GameState) :
  (gameId game <> id ->
   GameStore.update games id game
   = (Throw (Error "Game ID mismatch"), games)) /\
  (gameId game = id ->
   GameStore.update games id game = (Ok game, rec_set games id game) /\
   GameStore.get (rec_set games id game) id = Some game /\
   forall other,
     other <> id ->
     GameStore.get (rec_set games id game) other = GameStore.get games other)
  /\
  (NoDup (rec_keys games) ->
   GameStore.get (GameStore.delete games id) id = None /\
   forall other,
     other <> id ->
     GameStore.get (GameStore.delete games id) other
     = GameStore.get games other).
Proof.
  unfold GameStore.update, GameStore.get, GameStore.delete.
  split; [|split].
  - intros H. apply String.eqb_neq in H. now rewrite H.
  - intros H. apply String.eqb_eq in H. rewrite H. simpl.
    split; [reflexivity|]. split; [apply rec_get_set_same|].
    intros other Hne. now apply rec_get_set_other.
  - intros Hnd. split; [now apply rec_get_delete_same|].
    intros other Hne. now apply rec_get_delete_other.
Qed.

Lemma GameStore_update_delete_witness :
  GameStore.update [("g", freshLobby)] "other" freshLobby
  = (Throw (Error "Game ID mismatch"), [("g", freshLobby)]) /\
  GameStore.get (GameStore.delete [("g", freshLobby)] "g") "g" = None.
Proof.
  destruct (GameStore_update_delete [("g", freshLobby)] "other" freshLobby)
    as (Hbad & _ & _).
  destruct (GameStore_update_delete [("g", freshLobby)] "g" freshLobby)
    as (_ & _ & Hdel).
  split.
  - apply Hbad. discriminate.
  - apply Hdel. repeat constructor. intros [].
Defined.

(** X24. [withGame] stores all or nothing: it throws for an unknown id;
    when the updater throws, its exception is passed on and the registry is
    as before; when the updater returns, its result is returned and found
    under the id, every other room and the order of the rooms unchanged. *)
Theorem GameStore_withGame_all_or_nothing (games : GameStore.t) (id : string)
  (updater : GameState -> Result GameState) :
  (GameStore.get games id = None ->
   exists msg,
     GameStore.withGame games id updater = (Throw (Error msg), games)) /\
  (forall current e,
     GameStore.get games id = Some current -> updater current = Throw e ->
     GameStore.withGame games id updater = (Throw e, games)) /\
  (forall current updated,
     GameStore.get games id = Some current -> updater current = Ok updated ->
     exists games',
       GameStore.withGame games id updater = (Ok updated, games') /\
       GameStore.get games' id = Some updated /\
       (forall other,
          other <> id ->
          GameStore.get games' other = GameStore.get games other) /\
       rec_keys games' = rec_keys games).
Proof.
  unfold GameStore.withGame, GameStore.get. split; [|split].
  - intros ->. eexists. reflexivity.
  - intros current e -> ->. reflexivity.
  - intros current updated Hget Hup. rewrite Hget, Hup.
    eexists. split; [reflexivity|].
    split; [apply rec_get_set_same|].
    split; [intros other Hne; now apply rec_get_set_other|].
    apply rec_keys_set_present. apply rec_has_get. congruence.
Qed.

Lemma GameStore_withGame_all_or_nothing_witness :
  exists e,
    GameStore.withGame [("g", freshLobby)] "g"
      (fun current => recordNightVote current "host" "host")
    = (Throw e, [("g", freshLobby)]).
Proof.
  destruct (GameStore_withGame_all_or_nothing [("g", freshLobby)] "g"
              (fun current => recordNightVote current "host" "host"))
    as (_ & Hthrow & _).
  eexists. apply (Hthrow freshLobby); reflexivity.
Defined.

(** X25. The registry stays keyed by the ids of its snapshots: when every
    room is stored once and under its own id, the same holds after
    [create], [update], [delete], and after [withGame] with an updater
    whose results are accepted actions of the engine, whether the call
    throws or returns. *)
Theorem GameStore_keyed_by_own_id (games : GameStore.t) :
  NoDup (rec_keys games) -> storedUnderOwnId games ->
  (forall game,
     NoDup (rec_keys (snd (GameStore.create games game))) /\
     storedUnderOwnId (snd (GameStore.create games game))) /\
  (forall id game,
     NoDup (rec_keys (snd (GameStore.update games id game))) /\
     storedUnderOwnId (snd (GameStore.update games id game))) /\
  (forall id updater,
     (forall current updated,
        updater current = Ok updated -> step current updated) ->
     NoDup (rec_keys (snd (GameStore.withGame games id updater))) /\
     storedUnderOwnId (snd (GameStore.withGame games id updater))) /\
  (forall id,
     NoDup (rec_keys (GameStore.delete games id)) /\
     storedUnderOwnId (GameStore.delete games id)).
Proof.
  intros Hnd Hown.
  assert (Hset : forall id game,
            gameId game = id -> storedUnderOwnId (rec_set games id game)).
  { intros id game Hid k g Hin. apply rec_set_In_inv in Hin.
    destruct Hin as [[-> ->]|Hin]; [exact Hid | now apply Hown]. }
  split; [|split; [|split]].
  - intros game. unfold GameStore.create.
    destruct (rec_has games (gameId game)); simpl; [now split|].
    split; [now apply rec_keys_set_NoDup | now apply Hset].
  - intros id game. unfold GameStore.update.
    destruct (String.eqb (gameId game) id) eqn:E; simpl; [|now split].
    apply String.eqb_eq in E.
    split; [now apply rec_keys_set_NoDup | now apply Hset].
  - intros id updater Hstep. unfold GameStore.withGame.
    destruct (rec_get games id) as [current|] eqn:Eg; simpl; [|now split].
    destruct (updater current) as [updated|e] eqn:Eu; simpl; [|now split].
    split; [now apply rec_keys_set_NoDup|]. apply Hset.
    destruct (step_frame _ _ (Hstep _ _ Eu)) as [-> _].
    apply Hown. now apply (rec_get_In _ games id current Hnd).
  - intros id. unfold GameStore.delete.
    split; [now apply rec_delete_NoDup|].
    intros k g Hin. apply rec_delete_In in Hin. now apply Hown.
Qed.

Lemma GameStore_keyed_by_own_id_witness :
  storedUnderOwnId
    (snd (GameStore.withGame [("g", freshLobby)] "g"
            (fun current => startNight current 0))).
Proof.
  destruct (GameStore_keyed_by_own_id [("g", freshLobby)])
    as (_ & _ & Hwith & _).
  - repeat constructor. intros [].
  - intros k g [[= <- <-]|[]]. reflexivity.
  - apply (Hwith "g" (fun current => startNight current 0)).
    intros current updated H. now apply (step_startNight current 0%Z).
Defined.

(* ================================================================== *)
(** ** The two copies of the engine, on concrete rooms *)

Lemma revised_transitions_preserve_invariants_witness :
  exists g,
    Revised.startGame threeLobby 0 oneTenth = Ok g /\ invariants g.
Proof.
  assert (Hinv : invariants threeLobby) by (repeat split; simpl; congruence).
  destruct (revised_transitions_preserve_invariants threeLobby Hinv)
    as (_ & _ & _ & Hstart & _).
  eexists. split; [vm_compute; reflexivity|].
  apply (Hstart 0%Z oneTenth). vm_compute. reflexivity.
Defined.

Lemma transitions_preserve_invariants_once_assigned_witness :
  exists g, startGame threeLobby 0 oneTenth = Ok g /\ invariants g.
Proof.
  assert (Hinv : invariants threeLobby) by (repeat split; simpl; congruence).
  destruct (transitions_preserve_invariants_once_assigned threeLobby Hinv)
    as (_ & _ & _ & Hstart & _).
  eexists. split; [vm_compute; reflexivity|].
  apply (Hstart 0%Z oneTenth). vm_compute. reflexivity.
Defined.

Lemma revised_startNight_rejects_unassigned_lobby_witness :
  Revised.startNight freshLobby 0
  = Throw (GameRuleError "ROLES_NOT_ASSIGNED"
             "Cannot start night before assigning roles").
Proof.
  apply (revised_startNight_rejects_unassigned_lobby freshLobby 0);
    reflexivity.
Defined.

Lemma revised_recordNightVote_accepts_iff_witness :
  Revised.recordNightVote nightGame "t1" "s1"
  = Ok (withNightVotes nightGame [("t1", Some "s1")]) /\
  errorCode (Revised.recordNightVote unscheduledNight "t1" "s1") <> None.
Proof.
  split.
  - now apply (revised_recordNightVote_accepts_iff nightGame "t1" "s1").
  - now apply (revised_recordNightVote_accepts_iff unscheduledNight "t1" "s1").
Defined.

(* ================================================================== *)
(** ** What the view does not show *)

Lemma find_viewer_sameToViewer (viewerId : string) (ps qs : list Player) :
  Forall2 (sameToViewer viewerId) ps qs ->
  match find (fun p => String.eqb (playerId p) viewerId) ps,
        find (fun p => String.eqb (playerId p) viewerId) qs with
  | Some p, Some q => sameToViewer viewerId p q /\ role p = role q
  | None, None => True
  | _, _ => False
  end.
Proof.
  induction 1 as [|p q ps qs Hpq _ IH]; simpl; [exact I|].
  destruct Hpq as (Hi & Hn & Hl & Hc & Hh & Hr).
  rewrite <- Hi.
  destruct (String.eqb (playerId p) viewerId) eqn:E.
  - apply String.eqb_eq in E. repeat split; auto.
  - exact IH.
Qed.

Lemma publicView_sameToViewer (viewerId : string) (ps qs : list Player) :
  Forall2 (sameToViewer viewerId) ps qs ->
  map publicView ps = map publicView qs.
Proof.
  induction 1 as [|p q ps qs Hpq _ IH]; simpl; [reflexivity|].
  destruct Hpq as (Hi & Hn & Hl & Hc & Hh & Hr).
  unfold publicView at 1 3. now rewrite Hi, Hn, Hl, Hc, Hh, IH.
Qed.

(** X30. The view shows nothing else: two snapshots that agree on id, phase,
    counters, accusation, last kill, deadline, winner, and on the id, name,
    alive, connection and host flags of every player and the role of the
    viewer, give the viewer the same view (or the same rejection), whatever
    their ballots, nominations, options, account ids and the other players'
    roles. *)
Theorem buildGameView_hides_the_rest (viewerId : string)
  (g1 g2 : GameState) :
  sameToViewerGame viewerId g1 g2 ->
  buildGameView g1 viewerId = buildGameView g2 viewerId.
Proof.
  intros (H1 & H2 & H3 & H4 & H5 & H6 & H7 & H8 & Hps).
  unfold buildGameView.
  pose proof (find_viewer_sameToViewer _ _ _ Hps) as Hv.
  pose proof (publicView_sameToViewer _ _ _ Hps) as Hpub.
  destruct (find (fun p => String.eqb (playerId p) viewerId) (players g1))
    as [v1|];
    destruct (find (fun p => String.eqb (playerId p) viewerId) (players g2))
      as [v2|]; try contradiction; [|reflexivity].
  destruct Hv as [(Hi & Hn & Hl & Hc & Hh & _) Hr].
  now rewrite H1, H2, H3, H4, H5, H6, H7, H8, Hpub, Hi, Hn, Hl, Hc, Hh, Hr.
Qed.

Lemma buildGameView_hides_the_rest_witness :
  buildGameView nightGame "s1" = buildGameView votedNight "s1".
Proof.
  apply buildGameView_hides_the_rest.
  repeat split; repeat constructor; reflexivity.
Defined.
